(** * karsu-ui: sensor-readings transport, polling hook and statistics

    A shallow embedding of

    - [src/lib/api/sensor-readings.ts]        (module [Api]),
    - [src/hooks/use-sensor-readings.ts]      (module [Hook]),
    - [computeStatistics] of
      [src/components/sensor-readings/sensor-readings-dashboard.tsx]
                                              (module [Dashboard]),

    together with the properties of the specification that concern them.

    JavaScript numbers are IEEE 754 binary64 values.  They are modelled by
    [spec_float] with precision 53 and maximal exponent 1024, and the
    arithmetic of the source ([+], [-], [/], [<], [>], [<=]) by the
    corresponding operations of [SpecFloat], so rounding, overflow, the two
    zeros, the infinities and NaN behave as they do in the engine. *)

From Stdlib Require Import ZArith Lia Bool List String Ascii.
From Stdlib Require Import Floats.SpecFloat.
From Stdlib Require Import DecimalString.
Import ListNotations.

#[local] Set Warnings "-register-all".
Local Open Scope Z_scope.

(** ** JavaScript numbers *)

Module JS.

Definition number : Type := spec_float.

Definition prec : Z := 53.
Definition emax : Z := 1024.

Definition Number_NaN : number := S754_nan.
Definition POSITIVE_INFINITY : number := S754_infinity false.
Definition NEGATIVE_INFINITY : number := S754_infinity true.

(** An integer literal of the source ([0], [1], [20], ...). *)
Definition lit (z : Z) : number := binary_normalize prec emax z 0 false.

(** [Number.isFinite] and [Number.isNaN] on a value of type number. *)
Definition Number_isFinite (x : number) : bool :=
  match x with
  | S754_zero _ | S754_finite _ _ _ => true
  | S754_infinity _ | S754_nan => false
  end.

Definition Number_isNaN (x : number) : bool :=
  match x with
  | S754_nan => true
  | _ => false
  end.

(** The relational operators [x < y], [x > y], [x <= y]. *)
Definition lt (x y : number) : bool := SFltb x y.
Definition gt (x y : number) : bool := SFltb y x.
Definition le (x y : number) : bool := SFleb x y.

(** [x + y], [x - y], [x / y], rounded to nearest even. *)
Definition add (x y : number) : number := SFadd prec emax x y.
Definition sub (x y : number) : number := SFsub prec emax x y.
Definition div (x y : number) : number := SFdiv prec emax x y.

(** [Math.floor]: the greatest integer below the argument.  A value whose
    exponent is not negative is an integer already; otherwise the
    mantissa is shifted right (towards minus infinity, as [Z.shiftr] does
    on negative integers) and the integer obtained is put back in
    binary64 form. *)
Definition Math_floor (x : number) : number :=
  match x with
  | S754_finite s m e =>
      if 0 <=? e then x
      else binary_normalize prec emax
             (Z.shiftr (cond_Zopp s (Zpos m)) (- e)) 0 s
  | _ => x
  end.

(** The values that are genuine binary64 numbers: canonical mantissa and
    exponent in range. *)
Definition valid (x : number) : bool := valid_binary prec emax x.

(** The binary64 form of an integer of at most 53 bits: its bits moved
    to the top of the mantissa. *)
Definition top_aligned (p : positive) : positive * Z :=
  shl_align p 0 (Zpos (digits2_pos p) - 53).

(** A finite integer: a genuine finite number that [Math.floor] leaves
    as it is. *)
Definition integer (x : number) : Prop :=
  Number_isFinite x = true /\ valid x = true /\ Math_floor x = x.

(** [x >= y]. *)
Definition ge (x y : number) : bool := SFleb y x.

(** [Math.ceil]: the least integer above the argument, which is the
    floor of the opposite number, negated (so [-0.5] gives [-0]). *)
Definition Math_ceil (x : number) : number := SFopp (Math_floor (SFopp x)).

(** [Math.max] of two numbers: NaN when either is NaN, [+0] above
    [-0], and the second argument only when it is greater. *)
Definition Math_max (x y : number) : number :=
  if Number_isNaN x || Number_isNaN y then Number_NaN
  else
    match x, y with
    | S754_zero true, S754_zero false => y
    | _, _ => if lt x y then y else x
    end.

(** [array.length], as a number. *)
Definition Array_length {A : Type} (array : list A) : number :=
  lit (Z.of_nat (List.length array)).

End JS.

Import JS.

(** ** Errors and completions

    A thrown value is an [Error] object; the code reads its [name] only.
    A call either returns normally or throws: [completion] is the outcome
    of a synchronous call as well as the settlement of a promise
    ([Normal] for fulfilled, [Throw] for rejected). *)

Record Error : Type := mkError { name : string; message : string }.

Inductive completion (A : Type) : Type :=
| Normal (a : A)
| Throw (e : Error).

Arguments Normal {A} a.
Arguments Throw {A} e.

(** [new Error(msg)] *)
Definition new_Error (msg : string) : Error :=
  {| name := "Error"; message := msg |}.

(** ** [src/lib/api/sensor-readings.ts] *)

Module Api.

Record SensorReading : Type := mkReading
  { timestamp : string; moisture : number }.

Record PaginationMeta : Type := mkMeta
  { totalItems : number; totalPages : number;
    meta_page : number; meta_limit : number }.

Record SensorReadingsResponse : Type := mkResponse
  { data : list SensorReading; meta : PaginationMeta }.

(** [page?], [limit?], [signal?]: [None] is an omitted (undefined)
    member.  A signal is named by the controller that owns it. *)
Record FetchSensorReadingsParams : Type := mkParams
  { page : option number; limit : option number; signal : option nat }.

(** What [response.json()] can decode, before the cast to
    [SensorReadingsResponse]. *)
Inductive JSON : Type :=
| JNull
| JBool (b : bool)
| JNumber (n : number)
| JString (s : string)
| JArray (items : list JSON)
| JObject (members : list (string * JSON)).

(** [!!v] *)
Definition truthy (v : JSON) : bool :=
  match v with
  | JNull => false
  | JBool b => b
  | JNumber n =>
      match n with
      | S754_zero _ | S754_nan => false
      | _ => true
      end
  | JString s => negb (String.eqb s "")
  | JArray _ | JObject _ => true
  end.

Fixpoint assoc (key : string) (members : list (string * JSON)) : option JSON :=
  match members with
  | [] => None
  | (k, v) :: rest => if String.eqb k key then Some v else assoc key rest
  end.

(** [v.key] for a key that no prototype defines (here ["data"] and
    ["meta"]): a member of an object, [undefined] ([None]) on anything
    else.  It is only evaluated on a truthy [v], so it does not throw. *)
Definition get (v : JSON) (key : string) : option JSON :=
  match v with
  | JObject members => assoc key members
  | _ => None
  end.

(** [Array.isArray(v)] and [typeof v], [None] being [undefined]. *)
Definition Array_isArray (v : option JSON) : bool :=
  match v with
  | Some (JArray _) => true
  | _ => false
  end.

Definition typeof (v : option JSON) : string :=
  match v with
  | None => "undefined"
  | Some JNull => "object"
  | Some (JBool _) => "boolean"
  | Some (JNumber _) => "number"
  | Some (JString _) => "string"
  | Some (JArray _) => "object"
  | Some (JObject _) => "object"
  end.

(** A URL: what precedes the query, and the query as [URLSearchParams]
    keeps it. *)
Record URL : Type := mkURL
  { href : string; searchParams : list (string * string) }.

(** [URLSearchParams.prototype.set]: the first pair named [key] takes
    the value and the other ones go; without such a pair, one is
    appended. *)
Fixpoint searchParams_set (key value : string) (ps : list (string * string))
  : list (string * string) :=
  match ps with
  | [] => [(key, value)]
  | (k, v) :: rest =>
      if String.eqb k key
      then (key, value)
             :: filter (fun kv => negb (String.eqb (fst kv) key)) rest
      else (k, v) :: searchParams_set key value rest
  end.

Fixpoint searchParams_get (key : string) (ps : list (string * string))
  : option string :=
  match ps with
  | [] => None
  | (k, v) :: rest =>
      if String.eqb k key then Some v else searchParams_get key rest
  end.

Definition searchParams_has (key : string) (ps : list (string * string))
  : bool :=
  existsb (fun kv => String.eqb (fst kv) key) ps.


Definition url_set (key value : string) (u : URL) : URL :=
  {| href := href u; searchParams := searchParams_set key value (searchParams u) |}.

(** The argument of [fetch]. *)
Record Request : Type := mkRequest
  { url : URL; method : string; Accept : string;
    req_signal : option nat; cache : string }.

(** A response of the server: its status line and the settlement of
    [response.json()]. *)
Record Response : Type := mkHttp
  { status : Z; statusText : string; json : completion JSON }.

(** [response.ok]: the status is in the range 200-299. *)
Definition ok (r : Response) : bool :=
  (200 <=? status r) && (status r <=? 299).

(** The status code is an integer; it is printed in decimal. *)
Definition status_toString (z : Z) : string :=
  NilZero.string_of_int (Z.to_int z).

Definition default_endpoint : string :=
  "http://localhost:8080/api/sensor-readings-alt".

Section Transport.

(** [String(n)] on numbers and the URL parser [new URL(s)] belong to
    the platform. *)
Variable Number_toString : number -> string.
Variable new_URL : string -> URL.

(** [process.env.NEXT_PUBLIC_SENSOR_READINGS_ENDPOINT] *)
Variable env_endpoint : option string.

Definition SENSOR_READINGS_ENDPOINT : string :=
  match env_endpoint with
  | Some e => e
  | None => default_endpoint
  end.

(** Lines 33-41: the URL with its query.  [page] and [limit] have
    type number once the defaults are in, so [typeof x === "number"]
    holds and the test left is [!Number.isNaN(x)]. *)
Definition request_url (params : FetchSensorReadingsParams) : URL :=
  let page := match page params with Some p => p | None => lit 1 end in
  let limit := match limit params with Some l => l | None => lit 20 end in
  let url := new_URL SENSOR_READINGS_ENDPOINT in
  let url :=
    if negb (Number_isNaN page)
    then url_set "page" (Number_toString page) url else url in
  let url :=
    if negb (Number_isNaN limit)
    then url_set "limit" (Number_toString limit) url else url in
  url.

Definition request (params : FetchSensorReadingsParams) : Request :=
  {| url := request_url params; method := "GET";
     Accept := "application/json";
     req_signal := signal params; cache := "no-store" |}.

(** [fetchSensorReadings], given how [fetch] settles for a request. *)
Definition fetchSensorReadings
    (fetch : Request -> completion Response)
    (params : FetchSensorReadingsParams) : completion JSON :=
  match fetch (request params) with
  | Throw e => Throw e
  | Normal response =>
      if negb (ok response) then
        Throw (new_Error
                 ("Failed to fetch sensor readings: "
                    ++ status_toString (status response) ++ " "
                    ++ statusText response))
      else
        match json response with
        | Throw e => Throw e
        | Normal payload =>
            if negb (truthy payload)
               || negb (Array_isArray (get payload "data"))
               || negb (String.eqb (typeof (get payload "meta")) "object")
            then Throw (new_Error "Invalid sensor readings response shape")
            else Normal payload
        end
  end.

End Transport.

(** The platform on the inputs of the examples: [String(n)] when [n]
    is NaN, an infinity or an integer of at most sixteen digits, and
    [new URL(s)] when [s] has no query, as the default endpoint. *)
Definition String_of_integer (n : number) : string :=
  match n with
  | S754_nan => "NaN"
  | S754_infinity false => "Infinity"
  | S754_infinity true => "-Infinity"
  | S754_zero _ => "0"
  | S754_finite s m e => status_toString (Z.shiftl (cond_Zopp s (Zpos m)) e)
  end.

Definition URL_without_query (s : string) : URL :=
  {| href := s; searchParams := [] |}.

(** Two answers of the server for the examples: an empty page with its
    pagination, and a failure whose body is no JSON. *)
Definition empty_page : JSON :=
  JObject [("data"%string, JArray []);
           ("meta"%string, JObject [("totalItems"%string, JNumber (lit 0))])].

Definition answers_empty_page (_ : Request) : completion Response :=
  Normal {| status := 200; statusText := "OK"; json := Normal empty_page |}.

Definition answers_500 (_ : Request) : completion Response :=
  Normal {| status := 500; statusText := "Internal Server Error";
            json := Throw {| name := "SyntaxError";
                             message := "Unexpected token" |} |}.

Definition no_params : FetchSensorReadingsParams :=
  {| page := None; limit := None; signal := None |}.

End Api.

(** ** [src/hooks/use-sensor-readings.ts] *)

Module Hook.

Import Api.

Definition DEFAULT_SENSOR_POLL_INTERVAL_MS : number := lit 5000.

Module FetchRequest.
Record t : Type := mk
  { page : number; limit : number; withLoading : bool }.
End FetchRequest.

(** [sanitizePositiveInteger(value, fallback, { allowZero })] *)
Definition sanitizePositiveInteger
    (value fallback : number) (allowZero : bool) : number :=
  if negb (Number_isFinite value) then fallback
  else
    let normalized := Math_floor value in
    if allowZero then
      if lt normalized (lit 0) then fallback else normalized
    else
      if le normalized (lit 0) then fallback else normalized.

Module Options.
(** [UseSensorReadingsOptions]; [None] is an omitted member. *)
Record t : Type := mk
  { initialPage : option number;
    initialLimit : option number;
    pollIntervalMs : option number;
    enabled : option bool }.
End Options.

(** The state of one mounted hook: the seven [useState] cells, the two
    refs, and the [AbortController] objects created so far.  A
    controller is named by its index in [controllers], where its
    [signal.aborted] flag is kept; [controllerRef] holds such a name or
    [null].  [intervalRef] holds the period of the running timer. *)
Record State : Type := mkState
  { page : number;
    limit : number;
    data : list SensorReading;
    meta : option PaginationMeta;
    isLoading : bool;
    isRefreshing : bool;
    error : option Error;
    controllers : list bool;
    controllerRef : option nat;
    intervalRef : option number }.

(** *** State and exceptions *)

Definition M (A : Type) : Type := State -> State * completion A.

Definition ret {A} (a : A) : M A := fun s => (s, Normal a).

Definition bind {A B} (m : M A) (k : A -> M B) : M B :=
  fun s =>
    match m s with
    | (s', Normal a) => k a s'
    | (s', Throw e) => (s', Throw e)
    end.

Notation "x <- m ;; k" := (bind m (fun x => k))
  (at level 61, m at next level, right associativity).
Notation "m ;; k" := (bind m (fun _ => k))
  (at level 61, right associativity).

(** [try { body } catch (e) { handler e }] *)
Definition try_catch {A} (body : M A) (handler : Error -> M A) : M A :=
  fun s =>
    match body s with
    | (s', Normal a) => (s', Normal a)
    | (s', Throw e) => handler e s'
    end.

(** [try { body } finally { final }]: [final] runs whatever the body
    did, and the completion of the body stands unless [final] throws. *)
Definition try_finally {A} (body : M A) (final : M unit) : M A :=
  fun s =>
    match body s with
    | (s', c) =>
        match final s' with
        | (s'', Normal _) => (s'', c)
        | (s'', Throw e) => (s'', Throw e)
        end
    end.

(** [await p] for a promise that settles with [c]. *)
Definition await {A} (c : completion A) : M A := fun s => (s, c).

Definition get_State : M State := fun s => (s, Normal s).

Definition setPageState (f : number -> number) : M unit := fun s =>
  ({| page := f (page s); limit := limit s; data := data s; meta := meta s;
      isLoading := isLoading s; isRefreshing := isRefreshing s;
      error := error s; controllers := controllers s;
      controllerRef := controllerRef s; intervalRef := intervalRef s |},
   Normal tt).

Definition setLimitState (f : number -> number) : M unit := fun s =>
  ({| page := page s; limit := f (limit s); data := data s; meta := meta s;
      isLoading := isLoading s; isRefreshing := isRefreshing s;
      error := error s; controllers := controllers s;
      controllerRef := controllerRef s; intervalRef := intervalRef s |},
   Normal tt).

Definition setData (v : list SensorReading) : M unit := fun s =>
  ({| page := page s; limit := limit s; data := v; meta := meta s;
      isLoading := isLoading s; isRefreshing := isRefreshing s;
      error := error s; controllers := controllers s;
      controllerRef := controllerRef s; intervalRef := intervalRef s |},
   Normal tt).

Definition setMeta (v : option PaginationMeta) : M unit := fun s =>
  ({| page := page s; limit := limit s; data := data s; meta := v;
      isLoading := isLoading s; isRefreshing := isRefreshing s;
      error := error s; controllers := controllers s;
      controllerRef := controllerRef s; intervalRef := intervalRef s |},
   Normal tt).

Definition setIsLoading (v : bool) : M unit := fun s =>
  ({| page := page s; limit := limit s; data := data s; meta := meta s;
      isLoading := v; isRefreshing := isRefreshing s;
      error := error s; controllers := controllers s;
      controllerRef := controllerRef s; intervalRef := intervalRef s |},
   Normal tt).

Definition setIsRefreshing (v : bool) : M unit := fun s =>
  ({| page := page s; limit := limit s; data := data s; meta := meta s;
      isLoading := isLoading s; isRefreshing := v;
      error := error s; controllers := controllers s;
      controllerRef := controllerRef s; intervalRef := intervalRef s |},
   Normal tt).

Definition setError (v : option Error) : M unit := fun s =>
  ({| page := page s; limit := limit s; data := data s; meta := meta s;
      isLoading := isLoading s; isRefreshing := isRefreshing s;
      error := v; controllers := controllers s;
      controllerRef := controllerRef s; intervalRef := intervalRef s |},
   Normal tt).

Definition set_controllers (v : list bool) : M unit := fun s =>
  ({| page := page s; limit := limit s; data := data s; meta := meta s;
      isLoading := isLoading s; isRefreshing := isRefreshing s;
      error := error s; controllers := v;
      controllerRef := controllerRef s; intervalRef := intervalRef s |},
   Normal tt).

Definition set_controllerRef (v : option nat) : M unit := fun s =>
  ({| page := page s; limit := limit s; data := data s; meta := meta s;
      isLoading := isLoading s; isRefreshing := isRefreshing s;
      error := error s; controllers := controllers s;
      controllerRef := v; intervalRef := intervalRef s |},
   Normal tt).

Definition set_intervalRef (v : option number) : M unit := fun s =>
  ({| page := page s; limit := limit s; data := data s; meta := meta s;
      isLoading := isLoading s; isRefreshing := isRefreshing s;
      error := error s; controllers := controllers s;
      controllerRef := controllerRef s; intervalRef := v |},
   Normal tt).

(** *** Abort controllers *)

Fixpoint set_aborted (c : nat) (flags : list bool) : list bool :=
  match flags, c with
  | [], _ => []
  | _ :: rest, O => true :: rest
  | b :: rest, S c' => b :: set_aborted c' rest
  end.

(** [new AbortController()] *)
Definition new_AbortController : M nat :=
  s <- get_State ;;
  set_controllers (controllers s ++ [false]) ;;
  ret (List.length (controllers s)).

(** [controller.abort()] *)
Definition abort (c : nat) : M unit :=
  s <- get_State ;;
  set_controllers (set_aborted c (controllers s)).

(** [controllerRef.current?.abort()] *)
Definition abort_current : M unit :=
  s <- get_State ;;
  match controllerRef s with
  | Some c => abort c
  | None => ret tt
  end.

(** [controller.signal.aborted] *)
Definition signal_aborted (c : nat) : M bool :=
  s <- get_State ;;
  ret (nth c (controllers s) false).

(** [controllerRef.current === controller] *)
Definition is_current (c : nat) : M bool :=
  s <- get_State ;;
  ret (match controllerRef s with
       | Some c' => Nat.eqb c' c
       | None => false
       end).

(** *** [fetchData]

    The function runs up to its [await] when it is called
    ([fetchData_start]) and resumes when the promise of
    [fetchSensorReadings] settles ([fetchData_settle]), other calls
    having possibly run in between.  What the suspended call keeps is
    its [controller], [withLoading] and the parameters it sent. *)

Record Pending : Type := mkPending
  { controller : nat;
    pending_withLoading : bool;
    params : FetchSensorReadingsParams }.

(** Lines 83-98. *)
Definition fetchData_start (req : FetchRequest.t) : M Pending :=
  abort_current ;;
  controller <- new_AbortController ;;
  set_controllerRef (Some controller) ;;
  (if FetchRequest.withLoading req
   then setIsLoading true
   else setIsRefreshing true) ;;
  ret {| controller := controller;
         pending_withLoading := FetchRequest.withLoading req;
         params := {| Api.page := Some (FetchRequest.page req);
                      Api.limit := Some (FetchRequest.limit req);
                      signal := Some controller |} |}.

(** Lines 93-128, from the settlement of the awaited promise on. *)
Definition fetchData_settle
    (p : Pending) (settled : completion SensorReadingsResponse)
  : M (option SensorReadingsResponse) :=
  let controller := controller p in
  let withLoading := pending_withLoading p in
  try_finally
    (try_catch
       (response <- await settled ;;
        aborted <- signal_aborted controller ;;
        current <- is_current controller ;;
        if aborted || negb current then ret None
        else
          setData (Api.data response) ;;
          setMeta (Some (Api.meta response)) ;;
          setError None ;;
          ret (Some response))
       (fun caughtError =>
          if String.eqb (name caughtError) "AbortError" then ret None
          else
            setError (Some caughtError) ;;
            ret None))
    (isLatestRequest <- is_current controller ;;
     if withLoading then
       if isLatestRequest then setIsLoading false else ret tt
     else if isLatestRequest then setIsRefreshing false
     else setIsRefreshing false).

(** *** The hook *)

Definition option_default {A} (d : A) (o : option A) : A :=
  match o with
  | Some a => a
  | None => d
  end.

(** Lines 66-79: the initial values of the cells and refs. *)
Definition initial (opts : Options.t) : State :=
  {| page := sanitizePositiveInteger
               (option_default (lit 1) (Options.initialPage opts))
               (lit 1) true;
     limit := sanitizePositiveInteger
                (option_default (lit 20) (Options.initialLimit opts))
                (lit 20) false;
     data := [];
     meta := None;
     isLoading := option_default true (Options.enabled opts);
     isRefreshing := false;
     error := None;
     controllers := [];
     controllerRef := None;
     intervalRef := None |}.

(** [clearInterval] of lines 136-139, 146-149 and 176-179. *)
Definition clear_interval : M unit :=
  s <- get_State ;;
  match intervalRef s with
  | Some _ => set_intervalRef None
  | None => ret tt
  end.

(** Lines 133-141: the cleanup on unmount. *)
Definition unmount : M unit :=
  abort_current ;;
  clear_interval.

(** Lines 143-156: the effect on [enabled], [page], [limit]. *)
Definition load_effect (enabled : bool) : M (option Pending) :=
  if negb enabled then
    abort_current ;;
    clear_interval ;;
    setIsLoading false ;;
    setIsRefreshing false ;;
    ret None
  else
    s <- get_State ;;
    p <- fetchData_start
           {| FetchRequest.page := page s; FetchRequest.limit := limit s;
              FetchRequest.withLoading := true |} ;;
    ret (Some p).

(** Lines 158-181: the effect that arms the timer, and its cleanup. *)
Definition poll_effect (enabled : bool) (pollIntervalMs : number) : M unit :=
  if negb enabled then ret tt
  else if le pollIntervalMs (lit 0) then ret tt
  else
    clear_interval ;;
    set_intervalRef (Some pollIntervalMs).

Definition poll_cleanup : M unit := clear_interval.

(** Lines 171-173: one tick of the polling timer, for the [page] and
    [limit] the effect was set up with. *)
Definition interval_tick (page limit : number) : M Pending :=
  fetchData_start
    {| FetchRequest.page := page; FetchRequest.limit := limit;
       FetchRequest.withLoading := false |}.

(** The argument of a state setter: a value or an updater. *)
Inductive SetStateAction : Type :=
| Value (value : number)
| Updater (f : number -> number).

(** [typeof value === "function" ? value(current) : value] *)
Definition nextValue (value : SetStateAction) (current : number) : number :=
  match value with
  | Updater f => f current
  | Value v => v
  end.

(** Lines 183-193. *)
Definition setPage (value : SetStateAction) : M unit :=
  setPageState (fun current =>
    sanitizePositiveInteger (nextValue value current) (lit 1) true).

(** Lines 195-205. *)
Definition setLimit (value : SetStateAction) : M unit :=
  setLimitState (fun current =>
    sanitizePositiveInteger (nextValue value current) (lit 20) false).

(** Lines 207-211. *)
Definition refetch : M Pending :=
  s <- get_State ;;
  fetchData_start
    {| FetchRequest.page := page s; FetchRequest.limit := limit s;
       FetchRequest.withLoading := false |}.

(** A sequence of calls of the two setters, run from a state. *)
Inductive Call : Type :=
| SetPage (value : SetStateAction)
| SetLimit (value : SetStateAction).

Definition call (c : Call) : M unit :=
  match c with
  | SetPage v => setPage v
  | SetLimit v => setLimit v
  end.

Definition run_calls (cs : list Call) (s : State) : State :=
  fold_left (fun s c => fst (call c s)) cs s.

(** The options of a hook used without arguments, and the error a
    cancelled [fetch] rejects with. *)
Definition no_options : Options.t :=
  {| Options.initialPage := None; Options.initialLimit := None;
     Options.pollIntervalMs := None; Options.enabled := None |}.

Definition AbortError : Error :=
  {| name := "AbortError"; message := "The operation was aborted." |}.

(** What the examples receive: one reading with its pagination, and
    the error of a response with status 500. *)
Definition one_reading : SensorReadingsResponse :=
  {| Api.data := [ {| timestamp := "2024-01-01T00:00:00Z";
                      moisture := lit 10 |} ];
     Api.meta := {| totalItems := lit 1; totalPages := lit 1;
                    meta_page := lit 1; meta_limit := lit 20 |} |}.

Definition status_500 : Error :=
  new_Error "Failed to fetch sensor readings: 500 Internal Server Error".

Definition first_request (withLoading : bool) : Pending :=
  {| controller := 0%nat; pending_withLoading := withLoading;
     params := {| Api.page := Some (lit 1); Api.limit := Some (lit 20);
                  signal := Some 0%nat |} |}.

Definition second_request (withLoading : bool) : Pending :=
  {| controller := 1%nat; pending_withLoading := withLoading;
     params := {| Api.page := Some (lit 1); Api.limit := Some (lit 20);
                  signal := Some 1%nat |} |}.


(** *** The life of a mounted hook

    What can happen to the state between the mount and the unmount:
    the two effects run, the timer ticks with the [page] and [limit] of
    the render that armed it, the caller refetches or calls a setter, and
    a request that was issued settles. *)
Inductive Event : Type :=
| LoadEffect (enabled : bool)
| PollEffect (enabled : bool) (pollIntervalMs : number)
| PollCleanup
| Tick (page limit : number)
| Refetch
| Settle (p : Pending) (settled : completion SensorReadingsResponse)
| Setter (c : Call)
| Unmount.

Definition event (e : Event) (s : State) : State :=
  match e with
  | LoadEffect enabled => fst (load_effect enabled s)
  | PollEffect enabled pollIntervalMs => fst (poll_effect enabled pollIntervalMs s)
  | PollCleanup => fst (poll_cleanup s)
  | Tick page limit => fst (interval_tick page limit s)
  | Refetch => fst (refetch s)
  | Settle p settled => fst (fetchData_settle p settled s)
  | Setter c => fst (call c s)
  | Unmount => fst (unmount s)
  end.

Definition run (es : list Event) (s : State) : State :=
  fold_left (fun s e => event e s) es s.

(** A life of the hook for the examples: the first load succeeds, the
    caller picks fifty rows per page, comes back to page three and asks
    for a refresh. *)
Definition sample_life : list Event :=
  [ LoadEffect true;
    PollEffect true DEFAULT_SENSOR_POLL_INTERVAL_MS;
    Settle (first_request true) (Normal one_reading);
    Setter (SetLimit (Value (lit 50)));
    Setter (SetPage (Value (lit 3)));
    Setter (SetPage (Updater (fun current => current)));
    Refetch ].

(** *** Notions the properties are stated with *)


(** The events that issue a request, and those that only abort the
    current one. *)
Definition issues (e : Event) : bool :=
  match e with
  | LoadEffect true | Tick _ _ | Refetch => true
  | _ => false
  end.

Definition aborts (e : Event) : bool :=
  match e with
  | LoadEffect false | Unmount => true
  | _ => false
  end.

(** [controllerRef.current === controller] for the controller of [p]. *)
Definition is_latest (s : State) (p : Pending) : bool :=
  match controllerRef s with
  | Some c' => Nat.eqb c' (controller p)
  | None => false
  end.

(** The controllers once [controllerRef.current?.abort()] has run. *)
Definition aborted_current (s : State) : list bool :=
  match controllerRef s with
  | Some c => set_aborted c (controllers s)
  | None => controllers s
  end.

(** The numbers a caller hands over are genuine: a value is, and an
    updater returns one when given one. *)
Definition genuine_action (a : SetStateAction) : Prop :=
  match a with
  | Value v => valid v = true
  | Updater f => forall c, valid c = true -> valid (f c) = true
  end.

Definition genuine_call (c : Call) : Prop :=
  match c with
  | SetPage a => genuine_action a
  | SetLimit a => genuine_action a
  end.

Definition genuine_event (e : Event) : Prop :=
  match e with
  | Setter c => genuine_call c
  | _ => True
  end.

Definition genuine_options (opts : Options.t) : Prop :=
  match Options.initialPage opts with Some v => valid v = true | None => True end /\
  match Options.initialLimit opts with Some v => valid v = true | None => True end.

(** [page] and [limit] hold finite integers. *)
Definition query_integers (s : State) : Prop :=
  integer (page s) /\ integer (limit s).

(** The ranges the setters keep [page] and [limit] in. *)
Definition in_range (s : State) : Prop :=
  le (lit 0) (page s) = true /\ le (lit 1) (limit s) = true.

(** [p] was issued, and a later request took its place in
    [controllerRef]. *)
Definition superseded (s : State) (p : Pending) : Prop :=
  controllerRef s <> Some (controller p).

(** The test of line 110 on the error caught. *)
Definition cancelled (e : Error) : bool := String.eqb (name e) "AbortError".

(** [p] is the request issued last and nothing aborted it. *)
Definition current_live (s : State) (p : Pending) : Prop :=
  controllerRef s = Some (controller p) /\
  nth (controller p) (controllers s) false = false.

End Hook.

(** ** [computeStatistics] of [sensor-readings-dashboard.tsx] *)

Module Dashboard.

Import Api.

Record SensorStatistics : Type := mkStatistics
  { average : option number;
    min : option number;
    max : option number;
    range : option number;
    trend : option number;
    latest : option SensorReading;
    earliest : option SensorReading;
    lastUpdated : option number }.

(** The local variables of the loop (lines 101-108).  [count] only
    takes integer values below the length of an array, which binary64
    holds exactly: it is kept as an integer and read as a number where
    it is divided by. *)
Module Vars.
Record t : Type := mk
  { latest : option SensorReading;
    earliest : option SensorReading;
    latestTime : number;
    earliestTime : number;
    sum : number;
    count : Z;
    min : number;
    max : number }.
End Vars.

Section Statistics.

(** [Date.parse]: NaN, or the time value of the date, a finite
    number. *)
Variable Date_parse : string -> number.

Definition vars0 : Vars.t :=
  {| Vars.latest := None;
     Vars.earliest := None;
     Vars.latestTime := NEGATIVE_INFINITY;
     Vars.earliestTime := POSITIVE_INFINITY;
     Vars.sum := lit 0;
     Vars.count := 0;
     Vars.min := POSITIVE_INFINITY;
     Vars.max := NEGATIVE_INFINITY |}.

(** Lines 113-122.  [moisture] has type number, so the [typeof] test
    holds. *)
Definition fold_moisture (moisture : number) (v : Vars.t) : Vars.t :=
  if Number_isFinite moisture then
    {| Vars.latest := Vars.latest v;
       Vars.earliest := Vars.earliest v;
       Vars.latestTime := Vars.latestTime v;
       Vars.earliestTime := Vars.earliestTime v;
       Vars.sum := add (Vars.sum v) moisture;
       Vars.count := Vars.count v + 1;
       Vars.min := if lt moisture (Vars.min v) then moisture else Vars.min v;
       Vars.max := if gt moisture (Vars.max v) then moisture else Vars.max v |}
  else v.

(** Lines 124-134. *)
Definition fold_timestamp (reading : SensorReading) (v : Vars.t) : Vars.t :=
  let parsedTime := Date_parse (timestamp reading) in
  if negb (Number_isNaN parsedTime) then
    let newer := gt parsedTime (Vars.latestTime v) in
    let older := lt parsedTime (Vars.earliestTime v) in
    {| Vars.latest := if newer then Some reading else Vars.latest v;
       Vars.earliest := if older then Some reading else Vars.earliest v;
       Vars.latestTime := if newer then parsedTime else Vars.latestTime v;
       Vars.earliestTime := if older then parsedTime else Vars.earliestTime v;
       Vars.sum := Vars.sum v;
       Vars.count := Vars.count v;
       Vars.min := Vars.min v;
       Vars.max := Vars.max v |}
  else v.

(** One iteration of the loop of line 110. *)
Definition body (v : Vars.t) (reading : SensorReading) : Vars.t :=
  fold_timestamp reading (fold_moisture (moisture reading) v).

(** Lines 137-144: the moisture of a candidate when it is finite. *)
Definition finite_moisture (r : option SensorReading) : option number :=
  match r with
  | Some reading =>
      if Number_isFinite (moisture reading)
      then Some (moisture reading) else None
  | None => None
  end.

Definition computeStatistics (data : list SensorReading) : SensorStatistics :=
  let v := fold_left body data vars0 in
  let latestMoisture := finite_moisture (Vars.latest v) in
  let earliestMoisture := finite_moisture (Vars.earliest v) in
  let counted := 0 <? Vars.count v in
  {| average :=
       if counted then Some (div (Vars.sum v) (lit (Vars.count v))) else None;
     min := if counted then Some (Vars.min v) else None;
     max := if counted then Some (Vars.max v) else None;
     range := if counted then Some (sub (Vars.max v) (Vars.min v)) else None;
     trend :=
       match latestMoisture, earliestMoisture with
       | Some l, Some e => Some (sub l e)
       | _, _ => None
       end;
     latest := Vars.latest v;
     earliest := Vars.earliest v;
     lastUpdated :=
       if gt (Vars.latestTime v) NEGATIVE_INFINITY
       then Some (Vars.latestTime v) else None |}.

(** The parsed time of a reading, the finite moistures of the data
    in their order, and the least and greatest element of a list as
    the loop computes them. *)
Definition time (reading : SensorReading) : number :=
  Date_parse (timestamp reading).

Definition finite_moistures (data : list SensorReading) : list number :=
  filter Number_isFinite (map moisture data).

Definition running_min (ms : list number) (m0 : number) : number :=
  fold_left (fun m x => if lt x m then x else m) ms m0.

Definition running_max (ms : list number) (m0 : number) : number :=
  fold_left (fun m x => if gt x m then x else m) ms m0.

(** The timestamp of [r] does not parse, or its time satisfies [P]. *)
Definition unparsed_or (P : number -> bool) (r : SensorReading) : Prop :=
  Number_isNaN (time r) = true \/ P (time r) = true.

(** What the loop knows of the latest candidate after the readings
    [seen]. *)
Definition latest_of (v : Vars.t) (seen : list SensorReading) : Prop :=
  match Vars.latest v with
  | None =>
      Vars.latestTime v = NEGATIVE_INFINITY /\
      forall x, In x seen -> Number_isNaN (time x) = false ->
                time x = NEGATIVE_INFINITY
  | Some r =>
      In r seen /\ Vars.latestTime v = time r /\
      Number_isNaN (time r) = false /\
      lt NEGATIVE_INFINITY (time r) = true /\
      forall x, In x seen -> Number_isNaN (time x) = false ->
                le (time x) (time r) = true
  end.

Definition earliest_of (v : Vars.t) (seen : list SensorReading) : Prop :=
  match Vars.earliest v with
  | None =>
      Vars.earliestTime v = POSITIVE_INFINITY /\
      forall x, In x seen -> Number_isNaN (time x) = false ->
                time x = POSITIVE_INFINITY
  | Some r =>
      In r seen /\ Vars.earliestTime v = time r /\
      Number_isNaN (time r) = false /\
      lt (time r) POSITIVE_INFINITY = true /\
      forall x, In x seen -> Number_isNaN (time x) = false ->
                le (time r) (time x) = true
  end.

(** A reading with something to use: a finite moisture or a timestamp
    that parses. *)
Definition usable (r : SensorReading) : bool :=
  Number_isFinite (moisture r) || negb (Number_isNaN (time r)).

End Statistics.

(** [Date.parse] on the timestamps of the examples: three instants one
    second apart, and NaN on the text that is no date. *)
Definition Date_parse_sample (s : string) : number :=
  if String.eqb s "1970-01-01T00:00:00.000Z" then lit 0
  else if String.eqb s "1970-01-01T00:00:01.000Z" then lit 1000
  else if String.eqb s "1970-01-01T00:00:02.000Z" then lit 2000
  else Number_NaN.

(** Lines 210-211 (and lines 66-67 of [sensor-readings-table.tsx]):
    the page shown, [meta?.page ?? page] when it is above [0]. *)
Definition currentPage (meta : option PaginationMeta) (page : number) : number :=
  match meta with
  | Some m => meta_page m
  | None => page
  end.

Definition displayPage (meta : option PaginationMeta) (page : number) : number :=
  let currentPage := currentPage meta page in
  if gt currentPage (lit 0) then currentPage else lit 1.

(** Lines 199-209 (and lines 59-75 of [sensor-readings-table.tsx],
    where [totalPages] is called [estimatedTotalPages]): the number of
    records and of pages, from the pagination received or estimated
    from the rows at hand. *)
Definition totalItemsFromMeta (meta : option PaginationMeta) : number :=
  match meta with
  | Some m => totalItems m
  | None => lit 0
  end.

Definition normalizedTotalItems (data : list SensorReading)
    (meta : option PaginationMeta) : number :=
  let totalItemsFromMeta := totalItemsFromMeta meta in
  if gt totalItemsFromMeta (lit 0)
  then Math_max totalItemsFromMeta (Array_length data)
  else Array_length data.

Definition totalPagesFromMeta (meta : option PaginationMeta) : option number :=
  match meta with
  | Some m => if gt (Api.totalPages m) (lit 0) then Some (Api.totalPages m) else None
  | None => None
  end.

Definition totalPages (data : list SensorReading)
    (meta : option PaginationMeta) (limit : number) : number :=
  let normalizedTotalItems := normalizedTotalItems data meta in
  match totalPagesFromMeta meta with
  | Some total => total
  | None =>
      if gt normalizedTotalItems (lit 0)
      then Math_max (lit 1)
             (Math_ceil (div normalizedTotalItems (Math_max limit (lit 1))))
      else lit 1
  end.

(** Three readings for the examples, not in the order of their
    times. *)
Definition sample_readings : list SensorReading :=
  [ {| timestamp := "1970-01-01T00:00:00.000Z"; moisture := lit 40 |};
    {| timestamp := "1970-01-01T00:00:02.000Z"; moisture := lit 42 |};
    {| timestamp := "1970-01-01T00:00:01.000Z"; moisture := Number_NaN |} ].

End Dashboard.

(** ** [src/components/sensor-readings/sensor-readings-table.tsx] *)

Module Table.

Import Hook.

(** Lines 117-124: the handler of the page-size selector, [value] being
    what [Number.parseInt] made of the option chosen. *)
Definition handleLimitChange (value : number) : M unit :=
  if negb (Number_isFinite value) then ret tt
  else
    setLimit (Value value) ;;
    setPage (Value (lit 1)).

(** Lines 76-82: what a render derives from the values of the hook it
    was given. *)
Definition displayTotalPages (data : list Api.SensorReading)
    (meta : option Api.PaginationMeta) (limit : number) : number :=
  let estimatedTotalPages := Dashboard.totalPages data meta limit in
  if gt estimatedTotalPages (lit 0) then estimatedTotalPages else lit 1.

Definition canPreviousPage (meta : option Api.PaginationMeta) (page : number) : bool :=
  gt (Dashboard.displayPage meta page) (lit 1).

Definition canNextPage (data : list Api.SensorReading)
    (meta : option Api.PaginationMeta) (page limit : number) : bool :=
  match Dashboard.totalPagesFromMeta meta with
  | Some totalPagesFromMeta => lt (Dashboard.displayPage meta page) totalPagesFromMeta
  | None => ge (Array_length data) limit
  end.

(** Lines 105-115: the handlers of the two pager buttons, in a render
    that was given [data], [meta], [page] and [limit]. *)
Definition handlePrevious (meta : option Api.PaginationMeta) (page : number) : M unit :=
  if canPreviousPage meta page then
    setPage (Updater (fun current => Math_max (lit 1) (sub current (lit 1))))
  else ret tt.

Definition handleNext (data : list Api.SensorReading)
    (meta : option Api.PaginationMeta) (page limit : number) : M unit :=
  if canNextPage data meta page limit then
    setPage (Updater (fun current => add current (lit 1)))
  else ret tt.

End Table.

(** * Properties *)

(** ** The order and the rounding of binary64 numbers *)

Module NumberFacts.

Ltac compare_cases :=
  repeat match goal with
  | |- context [Z.compare ?a ?b] => destruct (Z.compare_spec a b)
  | H : context [Z.compare ?a ?b] |- _ => destruct (Z.compare_spec a b)
  | |- context [Pos.compare_cont Eq ?a ?b] =>
      change (Pos.compare_cont Eq a b) with (Pos.compare a b);
      destruct (Pos.compare_spec a b)
  | H : context [Pos.compare_cont Eq ?a ?b] |- _ =>
      change (Pos.compare_cont Eq a b) with (Pos.compare a b) in H;
      destruct (Pos.compare_spec a b)
  end.

(** Decides a statement on [SFltb] and [SFleb] by cases on the operands. *)
Ltac float_order :=
  unfold lt, gt, le, SFltb, SFleb, SFcompare; intros;
  repeat match goal with
  | x : spec_float |- _ => destruct x
  | x : number |- _ => destruct x
  | s : bool |- _ => destruct s
  end;
  simpl in *; try congruence; try reflexivity;
  compare_cases; simpl in *; subst; try congruence; try reflexivity; try lia.

Lemma ltb_leb_trans x y z :
  SFltb x y = true -> SFleb y z = true -> SFltb x z = true.
Proof. float_order. Qed.

Lemma leb_ltb_trans x y z :
  SFleb x y = true -> SFltb y z = true -> SFltb x z = true.
Proof. float_order. Qed.

Lemma leb_trans x y z :
  SFleb x y = true -> SFleb y z = true -> SFleb x z = true.
Proof. float_order. Qed.

Lemma ltb_leb x y : SFltb x y = true -> SFleb x y = true.
Proof. float_order. Qed.

Lemma leb_total x y :
  x <> S754_nan -> y <> S754_nan -> SFltb x y = false -> SFleb y x = true.
Proof. float_order. Qed.

Lemma ltb_antisym x y : SFleb y x = true -> SFltb x y = false.
Proof. float_order. Qed.

Lemma leb_refl x : x <> S754_nan -> SFleb x x = true.
Proof. float_order. Qed.

Lemma isFinite_not_NaN x : Number_isFinite x = true -> x <> S754_nan.
Proof. destruct x; simpl; congruence. Qed.

Lemma finite_below_infinity x :
  Number_isFinite x = true -> SFltb x POSITIVE_INFINITY = true.
Proof. destruct x as [[]|[]| |[] ? ?]; cbv; congruence. Qed.

Lemma finite_above_infinity x :
  Number_isFinite x = true -> SFltb NEGATIVE_INFINITY x = true.
Proof. destruct x as [[]|[]| |[] ? ?]; cbv; congruence. Qed.

(** *** Mantissas and shifts *)

Lemma digits2_pos_bounds m :
  2 ^ (Zpos (digits2_pos m) - 1) <= Zpos m < 2 ^ Zpos (digits2_pos m).
Proof.
  induction m as [m IH | m IH |]; cbn [digits2_pos].
  - rewrite Pos2Z.inj_succ, Z.pow_succ_r by lia.
    replace (Z.succ (Zpos (digits2_pos m)) - 1)
      with (Z.succ (Zpos (digits2_pos m) - 1)) by lia.
    rewrite Z.pow_succ_r by lia. lia.
  - rewrite Pos2Z.inj_succ, Z.pow_succ_r by lia.
    replace (Z.succ (Zpos (digits2_pos m)) - 1)
      with (Z.succ (Zpos (digits2_pos m) - 1)) by lia.
    rewrite Z.pow_succ_r by lia. lia.
  - simpl. lia.
Qed.

Lemma Zdigits2_bounds m :
  0 < m -> 2 ^ (Zdigits2 m - 1) <= m /\ 0 < Zdigits2 m.
Proof.
  destruct m as [|p|p]; try lia. intros _. cbn [Zdigits2].
  pose proof (digits2_pos_bounds p). lia.
Qed.

Lemma shr_1_half mrs : 0 <= shr_m mrs -> shr_m (shr_1 mrs) = shr_m mrs / 2.
Proof.
  destruct mrs as [m r s]; cbn [shr_m]; intros Hm.
  destruct m as [|p|p]; [reflexivity| |lia].
  rewrite <- Z.div2_div.
  destruct p as [p|p|]; reflexivity.
Qed.

Lemma shr_m_iter n : forall mrs,
  0 <= shr_m mrs -> shr_m (iter_pos shr_1 n mrs) = shr_m mrs / 2 ^ Zpos n.
Proof.
  assert (Hpow : forall a k, 0 <= a -> 0 <= a / 2 ^ Zpos k).
  { intros a k Ha. apply Z.div_pos; [lia|]. apply Z.pow_pos_nonneg; lia. }
  induction n as [n IH | n IH |]; intros mrs Hm; cbn [iter_pos].
  - assert (H1 : 0 <= shr_m (shr_1 mrs))
      by (rewrite shr_1_half by assumption; apply Z.div_pos; lia).
    assert (H2 : 0 <= shr_m (iter_pos shr_1 n (shr_1 mrs)))
      by (rewrite IH by assumption; apply Hpow; assumption).
    rewrite IH by assumption. rewrite IH by assumption.
    rewrite shr_1_half by assumption.
    rewrite !Z.div_div by (try apply Z.pow_pos_nonneg; lia).
    f_equal. replace (Zpos n~1) with (1 + Zpos n + Zpos n) by lia.
    rewrite !Z.pow_add_r by lia. change (2 ^ 1) with 2. lia.
  - assert (H2 : 0 <= shr_m (iter_pos shr_1 n mrs))
      by (rewrite IH by assumption; apply Hpow; assumption).
    rewrite IH by assumption. rewrite IH by assumption.
    rewrite !Z.div_div by (try apply Z.pow_pos_nonneg; lia).
    f_equal. replace (Zpos n~0) with (Zpos n + Zpos n) by lia.
    rewrite !Z.pow_add_r by lia. reflexivity.
  - rewrite shr_1_half by assumption. reflexivity.
Qed.

Lemma iter_xO_pow d : forall m, Zpos (Pos.iter xO m d) = Zpos m * 2 ^ Zpos d.
Proof.
  induction d as [d IH | d IH |]; intros m; cbn [Pos.iter].
  - rewrite Pos2Z.inj_xO, IH, IH.
    replace (Zpos d~1) with (1 + Zpos d + Zpos d) by lia.
    rewrite !Z.pow_add_r by lia. change (2 ^ 1) with 2. lia.
  - rewrite IH, IH.
    replace (Zpos d~0) with (Zpos d + Zpos d) by lia.
    rewrite !Z.pow_add_r by lia. lia.
  - rewrite Pos2Z.inj_xO. change (2 ^ 1) with 2. lia.
Qed.

Lemma shl_align_spec m e e' :
  Zpos (fst (shl_align m e e')) = Zpos m * 2 ^ Z.max 0 (e - e') /\
  snd (shl_align m e e') = Z.min e e'.
Proof.
  unfold shl_align. destruct (e' - e) as [|d|d] eqn:E; cbn [fst snd].
  - replace (Z.max 0 (e - e')) with 0 by lia. split; lia.
  - replace (Z.max 0 (e - e')) with 0 by lia. split; lia.
  - rewrite iter_xO_pow. replace (Z.max 0 (e - e')) with (Zpos d) by lia.
    split; lia.
Qed.

Lemma shr_m_record_of_loc m l : shr_m (shr_record_of_loc m l) = m.
Proof. destruct l as [|[]]; reflexivity. Qed.

Lemma round_nearest_even_bounds m l :
  m <= round_nearest_even m l <= m + 1.
Proof.
  destruct l as [|[]]; cbn [round_nearest_even]; try lia.
  destruct (Z.even m); lia.
Qed.

Section Rounding.

Variables prec emax : Z.
Hypothesis prec_pos : 0 < prec.

Lemma shr_spec mrs e n :
  0 <= shr_m mrs ->
  shr_m (fst (shr mrs e n)) = shr_m mrs / 2 ^ Z.max 0 n /\
  snd (shr mrs e n) = e + Z.max 0 n.
Proof.
  intros Hm. destruct n as [|n|n]; cbn [shr fst snd].
  - rewrite Z.div_1_r. split; lia.
  - rewrite shr_m_iter by assumption. split; reflexivity.
  - rewrite Z.div_1_r. split; lia.
Qed.

Lemma shr_fexp_spec m e l :
  0 <= m ->
  let n := Z.max 0 (fexp prec emax (Zdigits2 m + e) - e) in
  shr_m (fst (shr_fexp prec emax m e l)) = m / 2 ^ n /\
  snd (shr_fexp prec emax m e l) = e + n.
Proof.
  intros Hm. unfold shr_fexp.
  pose proof (shr_spec (shr_record_of_loc m l) e
                (fexp prec emax (Zdigits2 m + e) - e)) as H.
  rewrite shr_m_record_of_loc in H. apply H. assumption.
Qed.

Lemma shr_fexp_pos m e l :
  emin prec emax <= e -> 0 < m ->
  0 < shr_m (fst (shr_fexp prec emax m e l)).
Proof.
  intros He Hm.
  destruct (shr_fexp_spec m e l) as [H _]; [lia|]. rewrite H. clear H.
  destruct (Zdigits2_bounds m Hm) as [Hd Hd0].
  set (n := Z.max 0 (fexp prec emax (Zdigits2 m + e) - e)).
  assert (Hn : 0 <= n <= Zdigits2 m - 1) by (unfold n, fexp; lia).
  apply Z.div_str_pos. split; [apply Z.pow_pos_nonneg; lia|].
  apply Z.le_trans with (2 ^ (Zdigits2 m - 1)); [|assumption].
  apply Z.pow_le_mono_r; lia.
Qed.

(** Rounding a mantissa that is not negative gives a zero, an infinity
    or a finite value of the sign asked for, never NaN, and the
    exponent does not go down. *)
Lemma binary_round_aux_cases s m e l :
  0 <= m ->
  let r := binary_round_aux prec emax s m e l in
  r = S754_zero s \/ r = S754_infinity s \/
  exists m' e', r = S754_finite s m' e' /\ e <= e'.
Proof.
  intros Hm. unfold binary_round_aux.
  pose proof (shr_fexp_spec m e l Hm) as H1.
  destruct (shr_fexp prec emax m e l) as [mrs' e'] eqn:E1.
  cbn [fst snd] in H1. destruct H1 as [H1m H1e].
  assert (Hm' : 0 <= shr_m mrs').
  { rewrite H1m. apply Z.div_pos; [lia|]. apply Z.pow_pos_nonneg; lia. }
  pose proof (round_nearest_even_bounds (shr_m mrs') (loc_of_shr_record mrs')) as Hr.
  set (m1 := round_nearest_even (shr_m mrs') (loc_of_shr_record mrs')) in *.
  assert (Hm1 : 0 <= m1) by lia.
  pose proof (shr_fexp_spec m1 e' loc_Exact Hm1) as H2.
  destruct (shr_fexp prec emax m1 e' loc_Exact) as [mrs'' e''] eqn:E2.
  cbn [fst snd] in H2. destruct H2 as [H2m H2e].
  assert (Hm'' : 0 <= shr_m mrs'').
  { rewrite H2m. apply Z.div_pos; [lia|]. apply Z.pow_pos_nonneg; lia. }
  destruct (shr_m mrs'') as [|p|p]; [auto| |lia].
  destruct (e'' <=? emax - prec); [|auto].
  right; right. exists p, e''. split; [reflexivity|lia].
Qed.

(** From the least exponent up, a positive mantissa does not round to
    zero. *)
Lemma binary_round_aux_pos s m e l :
  emin prec emax <= e -> 0 < m ->
  let r := binary_round_aux prec emax s m e l in
  r = S754_infinity s \/
  exists m' e', r = S754_finite s m' e' /\ e <= e'.
Proof.
  intros He Hm. unfold binary_round_aux.
  pose proof (shr_fexp_spec m e l (Z.lt_le_incl _ _ Hm)) as H1.
  pose proof (shr_fexp_pos m e l He Hm) as P1.
  destruct (shr_fexp prec emax m e l) as [mrs' e'] eqn:E1.
  cbn [fst snd] in H1, P1. destruct H1 as [_ H1e].
  pose proof (round_nearest_even_bounds (shr_m mrs') (loc_of_shr_record mrs')) as Hr.
  set (m1 := round_nearest_even (shr_m mrs') (loc_of_shr_record mrs')) in *.
  assert (Hm1 : 0 < m1) by lia.
  pose proof (shr_fexp_spec m1 e' loc_Exact (Z.lt_le_incl _ _ Hm1)) as H2.
  pose proof (shr_fexp_pos m1 e' loc_Exact ltac:(lia) Hm1) as P2.
  destruct (shr_fexp prec emax m1 e' loc_Exact) as [mrs'' e''] eqn:E2.
  cbn [fst snd] in H2, P2. destruct H2 as [_ H2e].
  destruct (shr_m mrs'') as [|p|p]; [lia| |lia].
  destruct (e'' <=? emax - prec); [|auto].
  right. exists p, e''. split; [reflexivity|lia].
Qed.

Lemma binary_round_cases s m e :
  let r := binary_round prec emax s m e in
  r = S754_zero s \/ r = S754_infinity s \/
  exists m' e', r = S754_finite s m' e' /\
                Z.min e (fexp prec emax (Zpos (digits2_pos m) + e)) <= e'.
Proof.
  unfold binary_round.
  pose proof (shl_align_spec m e (fexp prec emax (Zpos (digits2_pos m) + e)))
    as [_ Hs].
  destruct (shl_align m e _) as [mz ez]. cbn [snd] in Hs. subst ez.
  apply binary_round_aux_cases. lia.
Qed.

Lemma binary_round_pos s m e :
  emin prec emax <= e ->
  let r := binary_round prec emax s m e in
  r = S754_infinity s \/
  exists m' e', r = S754_finite s m' e' /\
                Z.min e (fexp prec emax (Zpos (digits2_pos m) + e)) <= e'.
Proof.
  intros He. unfold binary_round.
  pose proof (shl_align_spec m e (fexp prec emax (Zpos (digits2_pos m) + e)))
    as [_ Hs].
  destruct (shl_align m e _) as [mz ez]. cbn [snd] in Hs. subst ez.
  apply binary_round_aux_pos; [unfold fexp; lia | lia].
Qed.

(** A canonical mantissa has at most [prec] digits, and exactly [prec]
    above the least exponent. *)
Lemma canonical_bounds m e :
  canonical_mantissa prec emax m e = true ->
  emin prec emax <= e /\ Zpos m < 2 ^ prec /\
  (emin prec emax < e -> 2 ^ (prec - 1) <= Zpos m).
Proof.
  unfold canonical_mantissa, fexp. intros H. apply Z.eqb_eq in H.
  pose proof (digits2_pos_bounds m) as [Hlo Hhi].
  assert (Hd : Zpos (digits2_pos m) <= prec) by lia.
  split; [lia|]. split.
  - apply Z.lt_le_trans with (1 := Hhi). apply Z.pow_le_mono_r; lia.
  - intros He. replace prec with (Zpos (digits2_pos m)) by lia. assumption.
Qed.

(** Two canonical mantissas brought to their least exponent compare as
    the pairs (exponent, mantissa) do. *)
Lemma aligned_le m1 e1 m2 e2 :
  canonical_mantissa prec emax m1 e1 = true ->
  canonical_mantissa prec emax m2 e2 = true ->
  e1 < e2 \/ (e1 = e2 /\ (m1 <= m2)%positive) ->
  Zpos (fst (shl_align m1 e1 (Z.min e1 e2))) <=
  Zpos (fst (shl_align m2 e2 (Z.min e1 e2))).
Proof.
  intros C1 C2 Hle.
  destruct (shl_align_spec m1 e1 (Z.min e1 e2)) as [-> _].
  destruct (shl_align_spec m2 e2 (Z.min e1 e2)) as [-> _].
  destruct Hle as [Hlt | [-> Hm]].
  - replace (Z.max 0 (e1 - Z.min e1 e2)) with 0 by lia.
    replace (Z.max 0 (e2 - Z.min e1 e2)) with (1 + (e2 - e1 - 1)) by lia.
    rewrite Z.pow_add_r by lia. change (2 ^ 1) with 2. rewrite Z.pow_0_r.
    destruct (canonical_bounds m1 e1 C1) as (He1 & Hm1 & _).
    destruct (canonical_bounds m2 e2 C2) as (_ & _ & Hm2).
    specialize (Hm2 ltac:(lia)).
    assert (Hp : 2 ^ prec = 2 * 2 ^ (prec - 1)).
    { replace prec with (1 + (prec - 1)) at 1 by lia.
      rewrite Z.pow_add_r by lia. reflexivity. }
    assert (0 < 2 ^ (e2 - e1 - 1)) by (apply Z.pow_pos_nonneg; lia).
    nia.
  - replace (Z.max 0 (e2 - Z.min e2 e2)) with 0 by lia. lia.
Qed.

End Rounding.

(** *** Binary64 *)

Lemma prec_pos : 0 < JS.prec.
Proof. reflexivity. Qed.

Lemma digits2_pos_one p : p <> 1%positive -> 2 <= Zpos (digits2_pos p).
Proof. destruct p; cbn [digits2_pos]; intros; lia. Qed.

(** A positive integer is a number not below [1]. *)
Lemma round_pos_ge_one p :
  SFleb (lit 1) (binary_round JS.prec JS.emax false p 0) = true.
Proof.
  destruct (Pos.eq_dec p 1) as [-> | Hp]; [reflexivity|].
  pose proof (digits2_pos_one p Hp) as Hd.
  destruct (binary_round_pos JS.prec JS.emax prec_pos false p 0)
    as [-> | (m' & e' & -> & He)].
  - unfold emin, JS.prec, JS.emax. lia.
  - reflexivity.
  - unfold fexp, emin, JS.prec, JS.emax in He.
    change (lit 1) with (S754_finite false 4503599627370496 (-52)).
    unfold SFleb, SFcompare.
    destruct (Z.compare_spec (-52) e'); first [reflexivity | lia].
Qed.

(** A negative integer is a number below [0]. *)
Lemma round_neg_lt_zero p :
  SFltb (binary_round JS.prec JS.emax true p 0) (lit 0) = true.
Proof.
  destruct (binary_round_pos JS.prec JS.emax prec_pos true p 0)
    as [-> | (m' & e' & -> & He)].
  - unfold emin, JS.prec, JS.emax. lia.
  - reflexivity.
  - reflexivity.
Qed.

(** [Math.floor] on a few numbers: 2.5, -2.5, 0.5, -0.5, 7 and -0. *)
Example Math_floor_examples :
  Math_floor (div (lit 5) (lit 2)) = lit 2 /\
  Math_floor (div (lit (-5)) (lit 2)) = lit (-3) /\
  Math_floor (div (lit 1) (lit 2)) = lit 0 /\
  Math_floor (div (lit (-1)) (lit 2)) = lit (-1) /\
  Math_floor (lit 7) = lit 7 /\
  Math_floor (S754_zero true) = S754_zero true.
Proof. vm_compute. repeat split. Qed.

Lemma Math_floor_not_NaN x :
  Number_isFinite x = true -> Math_floor x <> S754_nan.
Proof.
  destruct x as [s|s| |s m e]; simpl; try congruence. intros _.
  destruct (0 <=? e); [congruence|].
  destruct (Z.shiftr (cond_Zopp s (Zpos m)) (- e)) as [|p|p];
    cbn [binary_normalize]; [congruence| |].
  - destruct (binary_round_cases JS.prec JS.emax false p 0)
      as [-> | [-> | (m' & e' & -> & _)]]; congruence.
  - destruct (binary_round_cases JS.prec JS.emax true p 0)
      as [-> | [-> | (m' & e' & -> & _)]]; congruence.
Qed.

(** [Math.floor] of a finite number is an integer: above [0] it is at
    least [1]. *)
Lemma Math_floor_ge_one x :
  Number_isFinite x = true ->
  le (Math_floor x) (lit 0) = false -> le (lit 1) (Math_floor x) = true.
Proof.
  unfold le.
  destruct x as [s|s| |s m e]; try (simpl; congruence).
  - destruct s; cbv; congruence.
  - intros _. cbn [Math_floor].
    destruct (Z.leb_spec 0 e) as [He | He].
    + destruct s; [cbv; congruence|]. intros _.
      change (lit 1) with (S754_finite false 4503599627370496 (-52)).
      unfold SFleb, SFcompare.
      destruct (Z.compare_spec (-52) e); first [reflexivity | lia].
    + destruct (Z.shiftr (cond_Zopp s (Zpos m)) (- e)) as [|p|p];
        cbn [binary_normalize].
      * destruct s; cbv; congruence.
      * intros _. apply round_pos_ge_one.
      * intros H. pose proof (round_neg_lt_zero p) as Hn.
        apply ltb_leb in Hn. congruence.
Qed.

Lemma Math_floor_nonneg x :
  Number_isFinite x = true ->
  lt (Math_floor x) (lit 0) = false -> le (lit 0) (Math_floor x) = true.
Proof.
  unfold lt, le. intros Hx Hlt.
  apply leb_total; [apply Math_floor_not_NaN; assumption | | assumption].
  cbv; congruence.
Qed.

(** The difference of two genuine finite numbers, the greater first, is
    not negative (it may be the infinity). *)
Lemma sub_nonneg x y :
  valid x = true -> valid y = true ->
  Number_isFinite x = true -> Number_isFinite y = true ->
  le y x = true -> le (lit 0) (sub x y) = true.
Proof.
  unfold le, sub, valid.
  destruct x as [sx|sx| |sx mx ex]; try (simpl; congruence);
    destruct y as [sy|sy| |sy my ey]; try (simpl; congruence);
    intros Vx Vy _ _ Hle.
  - destruct sx, sy; reflexivity.
  - destruct sy; [reflexivity|]. destruct sx; cbv in Hle; congruence.
  - destruct sx; [|reflexivity]. destruct sy; cbv in Hle; congruence.
  - cbn [valid_binary] in Vx, Vy. unfold bounded in Vx, Vy.
    apply andb_prop in Vx, Vy. destruct Vx as [Cx _], Vy as [Cy _].
    cbn [SFsub].
    set (z := cond_Zopp sx (Zpos (fst (shl_align mx ex (Z.min ex ey))))
              - cond_Zopp sy (Zpos (fst (shl_align my ey (Z.min ex ey))))).
    assert (Hz : 0 <= z).
    { unfold z. unfold SFleb, SFcompare in Hle.
      destruct sx, sy; cbn [cond_Zopp].
      - pose proof (aligned_le JS.prec JS.emax prec_pos mx ex my ey Cx Cy) as A.
        compare_cases; simpl in Hle; try congruence;
          specialize (A ltac:(lia)); lia.
      - congruence.
      - lia.
      - pose proof (aligned_le JS.prec JS.emax prec_pos my ey mx ex Cy Cx) as A.
        rewrite (Z.min_comm ey ex) in A.
        compare_cases; simpl in Hle; try congruence;
          specialize (A ltac:(lia)); lia. }
    destruct z as [|p|p]; [reflexivity| |lia].
    cbn [binary_normalize].
    destruct (binary_round_cases JS.prec JS.emax false p (Z.min ex ey))
      as [-> | [-> | (m' & e' & -> & _)]]; reflexivity.
Qed.

End NumberFacts.

(** ** The polling hook *)

Module HookFacts.

Import Api Hook NumberFacts.

Ltac run_hook :=
  unfold fetchData_settle, fetchData_start, refetch, interval_tick,
    new_AbortController, abort_current, abort, signal_aborted, is_current,
    try_finally, try_catch, bind, await, ret, get_State,
    setData, setMeta, setError, setIsLoading, setIsRefreshing,
    set_controllers, set_controllerRef;
  cbn [fst snd page limit data meta isLoading isRefreshing error
       controllers controllerRef intervalRef controller
       pending_withLoading params].

(** *** The sanitizer *)

Lemma sanitize_not_finite value fallback allowZero :
  Number_isFinite value = false ->
  sanitizePositiveInteger value fallback allowZero = fallback.
Proof. unfold sanitizePositiveInteger. intros ->. reflexivity. Qed.

Lemma sanitize_page_nonneg value :
  le (lit 0) (sanitizePositiveInteger value (lit 1) true) = true.
Proof.
  unfold sanitizePositiveInteger.
  destruct (Number_isFinite value) eqn:F; cbn [negb]; [|reflexivity].
  destruct (lt (Math_floor value) (lit 0)) eqn:L; [reflexivity|].
  apply Math_floor_nonneg; assumption.
Qed.

Lemma sanitize_limit_ge_one value :
  le (lit 1) (sanitizePositiveInteger value (lit 20) false) = true.
Proof.
  unfold sanitizePositiveInteger.
  destruct (Number_isFinite value) eqn:F; cbn [negb]; [|reflexivity].
  destruct (le (Math_floor value) (lit 0)) eqn:L; [reflexivity|].
  apply Math_floor_ge_one; assumption.
Qed.

Lemma initial_in_range opts : in_range (initial opts).
Proof.
  split; cbn [initial page limit];
    [apply sanitize_page_nonneg | apply sanitize_limit_ge_one].
Qed.

Lemma call_in_range c s : in_range s -> in_range (fst (call c s)).
Proof.
  intros [Hp Hl]. destruct c as [v | v]; split;
    cbn [call setPage setLimit setPageState setLimitState fst page limit];
    auto using sanitize_page_nonneg, sanitize_limit_ge_one.
Qed.

Lemma run_calls_in_range cs : forall s, in_range s -> in_range (run_calls cs s).
Proof.
  induction cs as [|c cs IH]; intros s Hs; [assumption|].
  apply IH, call_in_range, Hs.
Qed.

(** C2, as the specification has it, fails: [setPage(0)] on a freshly
    mounted hook leaves [page] at [0], which is below [1]. *)
Lemma setPage_zero :
  let s := run_calls [SetPage (Value (lit 0))] (initial no_options) in
  page s = lit 0 /\ le (lit 1) (page s) = false.
Proof. split; reflexivity. Qed.

(** C2 (amended).  Whatever setters are called with whatever values or
    updaters, from whatever options, [page] is at least [0] and [limit]
    at least [1].  Each call stores the sanitized next value: the
    fallback ([1] for page, [20] for limit) when the value is NaN or
    infinite, and when its floor is negative (page) or not positive
    (limit); the floor of the value otherwise, so that [setPage] keeps a
    floor equal to [0]. *)
Theorem setters_sanitize (opts : Options.t) (cs : list Call)
    (a : SetStateAction) :
  let s := run_calls cs (initial opts) in
  let vp := nextValue a (page s) in
  let vl := nextValue a (limit s) in
  let p' := page (fst (setPage a s)) in
  let l' := limit (fst (setLimit a s)) in
  (le (lit 0) (page s) = true /\ le (lit 1) (limit s) = true) /\
  (Number_isFinite vp = false -> p' = lit 1) /\
  (Number_isFinite vl = false -> l' = lit 20) /\
  (Number_isFinite vp = true ->
     p' = if lt (Math_floor vp) (lit 0) then lit 1 else Math_floor vp) /\
  (Number_isFinite vl = true ->
     l' = if le (Math_floor vl) (lit 0) then lit 20 else Math_floor vl).
Proof.
  intros s vp vl p' l'. split; [|repeat split].
  - apply run_calls_in_range, initial_in_range.
  - intros F. apply sanitize_not_finite, F.
  - intros F. apply sanitize_not_finite, F.
  - intros F. unfold p', setPage, setPageState, sanitizePositiveInteger.
    cbn [fst page]. fold vp. rewrite F. reflexivity.
  - intros F. unfold l', setLimit, setLimitState, sanitizePositiveInteger.
    cbn [fst limit]. fold vl. rewrite F. reflexivity.
Qed.

Lemma setters_sanitize_witness :
  let cs := [SetLimit (Value (lit 50)); SetPage (Updater (fun c => sub c (lit 1)))] in
  let s := run_calls cs (initial no_options) in
  page (fst (setPage (Value Number_NaN) s)) = lit 1 /\
  limit (fst (setLimit (Value Number_NaN) s)) = lit 20 /\
  le (lit 0) (page s) = true /\ le (lit 1) (limit s) = true.
Proof.
  intros cs s.
  destruct (setters_sanitize no_options cs (Value Number_NaN))
    as (Hr & Hp & Hl & _).
  split; [exact (Hp eq_refl) | split; [exact (Hl eq_refl) | exact Hr]].
Defined.

(** *** Settling a request *)

Lemma is_current_false s p :
  superseded s p ->
  match controllerRef s with
  | Some c' => Nat.eqb c' (controller p)
  | None => false
  end = false.
Proof.
  unfold superseded. destruct (controllerRef s) as [c'|]; [|reflexivity].
  intros H. apply Nat.eqb_neq. congruence.
Qed.

Lemma set_aborted_length c flags :
  List.length (set_aborted c flags) = List.length flags.
Proof.
  revert c. induction flags as [|b flags IH]; intros [|c]; cbn; auto.
Qed.

(** Issuing a request makes it the current one, under a fresh signal
    that is not aborted, and supersedes every request issued before. *)
Lemma fetchData_start_issues (req : FetchRequest.t) (s : State) :
  exists s1 p,
    fetchData_start req s = (s1, Normal p) /\
    controller p = List.length (controllers s) /\
    pending_withLoading p = FetchRequest.withLoading req /\
    current_live s1 p /\
    forall q, (controller q < controller p)%nat -> superseded s1 q.
Proof.
  unfold fetchData_start, bind, get_State, ret.
  destruct (abort_current s) as [sa [[]|ea]] eqn:Ea.
  2:{ unfold abort_current, abort, bind, get_State, ret, set_controllers in Ea.
      destruct (controllerRef s); discriminate. }
  assert (Hlen : List.length (controllers sa) = List.length (controllers s)).
  { unfold abort_current, abort, bind, get_State, ret, set_controllers in Ea.
    destruct (controllerRef s); inversion Ea; cbn [controllers];
      [apply set_aborted_length | reflexivity]. }
  unfold new_AbortController, bind, get_State, ret, set_controllers,
    set_controllerRef.
  cbn [controllers].
  destruct (FetchRequest.withLoading req);
    unfold setIsLoading, setIsRefreshing;
    cbn [controllers controllerRef];
    do 2 eexists; (split; [reflexivity|]); cbn [controller pending_withLoading];
    (split; [exact Hlen|]); (split; [reflexivity|]);
    (split;
     [ unfold current_live; cbn [controllers controllerRef controller];
       split; [reflexivity|];
       rewrite app_nth2, Nat.sub_diag by apply Nat.le_refl; reflexivity
     | intros q Hq; unfold superseded; cbn [controllerRef];
       intros E; inversion E; lia ]).
Qed.

(** C1, as the specification has it, fails.  A timer tick issues the
    refresh request [A]; [refetch] issues [B], which aborts and
    supersedes [A]; then [A] settles with the cancellation it was sent.
    The [isRefreshing] flag, raised for [B], is cleared by [A]. *)
Lemma superseded_refresh_clears_flag :
  let s0 := initial no_options in
  match interval_tick (page s0) (limit s0) s0 with
  | (s1, Normal A) =>
      match refetch s1 with
      | (s2, Normal B) =>
          let s3 := fst (fetchData_settle A (Throw AbortError) s2) in
          controllerRef s2 = Some (controller B) /\
          controller A <> controller B /\
          isRefreshing s2 = true /\
          isRefreshing s3 = false /\
          s3 <> s2
      | _ => False
      end
  | _ => False
  end.
Proof. vm_compute. repeat split; discriminate. Qed.

(** C1 (amended).  A request that settles after another one was
    issued writes neither [data], [meta], [isLoading], [page],
    [limit] nor the refs and controllers.  It leaves [error] alone when
    it settles with a response or with a cancellation.  A superseded
    load request leaves [isRefreshing] alone as well, whereas a
    superseded refresh request sets [isRefreshing] to false. *)
Theorem superseded_settle (s : State) (p : Pending)
    (settled : completion SensorReadingsResponse) :
  superseded s p ->
  let s' := fst (fetchData_settle p settled s) in
  data s' = data s /\ meta s' = meta s /\ isLoading s' = isLoading s /\
  page s' = page s /\ limit s' = limit s /\
  controllers s' = controllers s /\ controllerRef s' = controllerRef s /\
  intervalRef s' = intervalRef s /\
  isRefreshing s' =
    (if pending_withLoading p then isRefreshing s else false) /\
  match settled with
  | Normal _ => error s' = error s
  | Throw e => cancelled e = true -> error s' = error s
  end.
Proof.
  intros Hsup. pose proof (is_current_false s p Hsup) as Hc.
  unfold cancelled.
  destruct settled as [response | e]; run_hook.
  - rewrite Hc, orb_true_r. cbn. rewrite Hc.
    destruct (pending_withLoading p); cbn; repeat split; reflexivity.
  - destruct (String.eqb (name e) "AbortError"); cbn; rewrite Hc;
      destruct (pending_withLoading p); cbn; repeat split;
      try reflexivity; discriminate.
Qed.

Lemma superseded_settle_witness :
  let A := first_request true in
  let s2 := fst (refetch (fst (load_effect true (initial no_options)))) in
  let s3 := fst (fetchData_settle A (Normal one_reading) s2) in
  superseded s2 A /\ data s3 = data s2 /\ isLoading s3 = isLoading s2 /\
  error s3 = error s2.
Proof.
  intros A s2 s3.
  assert (H : superseded s2 A) by (vm_compute; discriminate).
  split; [exact H|].
  destruct (superseded_settle s2 A (Normal one_reading) H)
    as (Hd & _ & Hl & _ & _ & _ & _ & _ & _ & He).
  split; [exact Hd | split; [exact Hl | exact He]].
Defined.

Lemma is_current_true s p :
  controllerRef s = Some (controller p) ->
  match controllerRef s with
  | Some c' => Nat.eqb c' (controller p)
  | None => false
  end = true.
Proof. intros ->. apply Nat.eqb_refl. Qed.

(** C3.  A request that settles with an error other than a
    cancellation stores that error and leaves [data] and [meta] as they
    were (and, when it is the load request issued last, turns
    [isLoading] off); a later request that is still the latest and
    settles with a response stores the response and resets [error] to
    null. *)
Theorem stale_while_error
    (s : State) (p : Pending) (e : Error)
    (s2 : State) (p2 : Pending) (response : SensorReadingsResponse) :
  cancelled e = false ->
  current_live s2 p2 ->
  let s' := fst (fetchData_settle p (Throw e) s) in
  let s2' := fst (fetchData_settle p2 (Normal response) s2) in
  (error s' = Some e /\ data s' = data s /\ meta s' = meta s /\
   (pending_withLoading p = true ->
    controllerRef s = Some (controller p) -> isLoading s' = false)) /\
  (error s2' = None /\ data s2' = Api.data response /\
   meta s2' = Some (Api.meta response)).
Proof.
  unfold cancelled. intros He [Hcur Hlive]. split.
  - run_hook. rewrite He. cbn.
    destruct (match controllerRef s with
              | Some c' => Nat.eqb c' (controller p)
              | None => false
              end) eqn:Hc;
      destruct (pending_withLoading p); cbn; repeat split;
      try reflexivity; try discriminate.
    intros _ H. rewrite (is_current_true s p H) in Hc. discriminate.
  - run_hook. rewrite Hlive, (is_current_true s2 p2 Hcur). cbn.
    rewrite (is_current_true s2 p2 Hcur).
    destruct (pending_withLoading p2); cbn; repeat split; reflexivity.
Qed.

(** C5.  A request that settles with a cancellation (an error named
    AbortError) leaves [error] as it was. *)
Theorem cancellation_keeps_error (s : State) (p : Pending) (e : Error) :
  cancelled e = true ->
  error (fst (fetchData_settle p (Throw e) s)) = error s.
Proof.
  unfold cancelled. intros He. run_hook. rewrite He. cbn.
  destruct (match controllerRef s with
            | Some c' => Nat.eqb c' (controller p)
            | None => false
            end);
    destruct (pending_withLoading p); reflexivity.
Qed.

(** C4.  [refetch()] sends the current [page] and [limit] under a new
    signal, raises [isRefreshing] and leaves [isLoading] alone.  However
    and in whatever later state [s2] its promise settles, the call does
    not throw and does not write [isLoading]; it resolves to the
    response when the transport gave one and the request was neither
    aborted nor superseded, and to null otherwise. *)
Theorem refetch_contract (s : State) :
  match refetch s with
  | (s1, Normal p) =>
      Api.page (params p) = Some (page s) /\
      Api.limit (params p) = Some (limit s) /\
      signal (params p) = Some (controller p) /\
      pending_withLoading p = false /\
      isLoading s1 = isLoading s /\ isRefreshing s1 = true /\
      current_live s1 p /\
      forall (s2 : State) (settled : completion SensorReadingsResponse),
        isLoading (fst (fetchData_settle p settled s2)) = isLoading s2 /\
        snd (fetchData_settle p settled s2) =
          Normal
            match settled with
            | Normal response =>
                if nth (controller p) (controllers s2) false
                   || negb match controllerRef s2 with
                           | Some c' => Nat.eqb c' (controller p)
                           | None => false
                           end
                then None else Some response
            | Throw _ => None
            end
  | (_, Throw _) => False
  end.
Proof.
  unfold refetch, fetchData_start, bind, get_State, ret.
  cbn [FetchRequest.withLoading FetchRequest.page FetchRequest.limit].
  destruct (abort_current s) as [sa [[]|ea]] eqn:Ea.
  2:{ unfold abort_current, abort, bind, get_State, ret, set_controllers in Ea.
      destruct (controllerRef s); discriminate. }
  assert (Hsa : page sa = page s /\ limit sa = limit s /\
                isLoading sa = isLoading s).
  { unfold abort_current, abort, bind, get_State, ret, set_controllers in Ea.
    destruct (controllerRef s); inversion Ea; repeat split; reflexivity. }
  unfold new_AbortController, bind, get_State, ret, set_controllers,
    set_controllerRef, setIsRefreshing.
  cbn [controllers page limit isLoading isRefreshing controllerRef params
       controller pending_withLoading Api.page Api.limit signal].
  repeat split; try reflexivity; try apply Hsa.
  - unfold current_live. cbn [controllers controller].
    rewrite app_nth2, Nat.sub_diag by apply Nat.le_refl. reflexivity.
  - destruct settled as [response | e]; run_hook.
    + destruct (nth _ (controllers s2) false
                || negb match controllerRef s2 with
                        | Some c' => Nat.eqb c' _
                        | None => false
                        end); cbn;
        destruct (match controllerRef s2 with
                  | Some c' => Nat.eqb c' _
                  | None => false
                  end); reflexivity.
    + destruct (String.eqb (name e) "AbortError"); cbn;
        destruct (match controllerRef s2 with
                  | Some c' => Nat.eqb c' _
                  | None => false
                  end); reflexivity.
  - destruct settled as [response | e]; run_hook.
    + destruct (nth _ (controllers s2) false
                || negb match controllerRef s2 with
                        | Some c' => Nat.eqb c' _
                        | None => false
                        end); cbn;
        destruct (match controllerRef s2 with
                  | Some c' => Nat.eqb c' _
                  | None => false
                  end); reflexivity.
    + destruct (String.eqb (name e) "AbortError"); cbn;
        destruct (match controllerRef s2 with
                  | Some c' => Nat.eqb c' _
                  | None => false
                  end); reflexivity.
Qed.

(** The first load fails with status 500, the next tick succeeds. *)
Lemma stale_while_error_witness :
  let s1 := fst (load_effect true (initial no_options)) in
  let s1' := fst (fetchData_settle (first_request true) (Throw status_500) s1) in
  let s2 := fst (interval_tick (page s1') (limit s1') s1') in
  let s2' := fst (fetchData_settle (second_request false) (Normal one_reading) s2) in
  (isLoading s1 = true /\ isLoading s1' = false /\
   error s1' = Some status_500 /\ data s1' = []) /\
  (error s2' = None /\ data s2' = Api.data one_reading).
Proof.
  intros s1 s1' s2 s2'.
  assert (Hc : cancelled status_500 = false) by (vm_compute; reflexivity).
  assert (Hl : current_live s2 (second_request false))
    by (split; vm_compute; reflexivity).
  destruct (stale_while_error s1 (first_request true) status_500
              s2 (second_request false) one_reading Hc Hl)
    as ((He & Hd & _ & Hload) & (He2 & Hd2 & _)).
  split; [split; [vm_compute; reflexivity | split; [|split]] | split].
  - apply Hload; vm_compute; reflexivity.
  - exact He.
  - transitivity (data s1); [exact Hd | vm_compute; reflexivity].
  - exact He2.
  - exact Hd2.
Defined.

Lemma cancellation_keeps_error_witness :
  let s1 := fst (load_effect true (initial no_options)) in
  let s1' := fst (fetchData_settle (first_request true) (Throw status_500) s1) in
  let s2 := fst (interval_tick (page s1') (limit s1') s1') in
  cancelled AbortError = true /\
  error (fst (fetchData_settle (second_request false) (Throw AbortError) s2))
  = Some status_500.
Proof.
  intros s1 s1' s2.
  assert (Hc : cancelled AbortError = true) by (vm_compute; reflexivity).
  split; [exact Hc|].
  transitivity (error s2);
    [exact (cancellation_keeps_error s2 (second_request false) AbortError Hc)
    | vm_compute; reflexivity].
Defined.

End HookFacts.

(** ** The transport function *)

Module ApiFacts.

Import Api.

(** *** The query of the URL *)

Lemma has_filter_other key k ps :
  String.eqb k key = false ->
  searchParams_has k
    (filter (fun kv => negb (String.eqb (fst kv) key)) ps)
  = searchParams_has k ps.
Proof.
  intros Hk. unfold searchParams_has.
  induction ps as [|[k' v'] ps IH]; [reflexivity|].
  cbn [filter fst existsb].
  destruct (String.eqb_spec k' key) as [-> | Hne]; cbn [negb existsb fst].
  - rewrite IH. rewrite String.eqb_sym, Hk. reflexivity.
  - rewrite IH. reflexivity.
Qed.

Lemma has_set_same key value ps :
  searchParams_has key (searchParams_set key value ps) = true.
Proof.
  unfold searchParams_has.
  induction ps as [|[k v] ps IH]; cbn [searchParams_set existsb fst].
  - rewrite String.eqb_refl. reflexivity.
  - destruct (String.eqb_spec k key) as [-> | Hne]; cbn [existsb fst].
    + rewrite String.eqb_refl. reflexivity.
    + rewrite IH. apply orb_true_r.
Qed.

Lemma has_set_other key value k ps :
  String.eqb k key = false ->
  searchParams_has k (searchParams_set key value ps) = searchParams_has k ps.
Proof.
  intros Hk.
  induction ps as [|[k' v'] ps IH]; cbn [searchParams_set].
  - unfold searchParams_has. cbn [existsb fst].
    rewrite String.eqb_sym, Hk. reflexivity.
  - destruct (String.eqb_spec k' key) as [-> | Hne].
    + unfold searchParams_has at 1 2. cbn [existsb fst].
      fold (searchParams_has k
              (filter (fun kv => negb (String.eqb (fst kv) key)) ps)).
      fold (searchParams_has k ps).
      rewrite has_filter_other by assumption. reflexivity.
    + unfold searchParams_has at 1 2. cbn [existsb fst].
      fold (searchParams_has k (searchParams_set key value ps)).
      fold (searchParams_has k ps).
      rewrite IH. reflexivity.
Qed.

Lemma get_filter_other key k ps :
  String.eqb k key = false ->
  searchParams_get k
    (filter (fun kv => negb (String.eqb (fst kv) key)) ps)
  = searchParams_get k ps.
Proof.
  intros Hk.
  induction ps as [|[k' v'] ps IH]; [reflexivity|].
  cbn [filter fst searchParams_get].
  destruct (String.eqb_spec k' key) as [-> | Hne]; cbn [negb searchParams_get].
  - rewrite IH. rewrite String.eqb_sym, Hk. reflexivity.
  - rewrite IH. reflexivity.
Qed.

Lemma get_set_same key value ps :
  searchParams_get key (searchParams_set key value ps) = Some value.
Proof.
  induction ps as [|[k v] ps IH]; cbn [searchParams_set searchParams_get].
  - rewrite String.eqb_refl. reflexivity.
  - destruct (String.eqb_spec k key) as [-> | Hne]; cbn [searchParams_get].
    + rewrite String.eqb_refl. reflexivity.
    + apply String.eqb_neq in Hne. rewrite Hne. exact IH.
Qed.

Lemma get_set_other key value k ps :
  String.eqb k key = false ->
  searchParams_get k (searchParams_set key value ps) = searchParams_get k ps.
Proof.
  intros Hk.
  induction ps as [|[k' v'] ps IH]; cbn [searchParams_set searchParams_get].
  - rewrite String.eqb_sym, Hk. reflexivity.
  - destruct (String.eqb_spec k' key) as [-> | Hne]; cbn [searchParams_get].
    + rewrite (String.eqb_sym key k), Hk.
      apply get_filter_other. assumption.
    + rewrite IH. reflexivity.
Qed.

(** C7, as the specification has it, fails: the page [Infinity] is not
    a finite number, and the request carries [page=Infinity]. *)
Lemma infinite_page_is_attached :
  let params := {| page := Some POSITIVE_INFINITY; limit := None;
                   signal := None |} in
  Number_isFinite POSITIVE_INFINITY = false /\
  searchParams (request_url String_of_integer URL_without_query None params)
  = [("page", "Infinity"); ("limit", "20")]%string.
Proof. split; vm_compute; reflexivity. Qed.

(** C7 (amended).  When the configured endpoint has no [page] or
    [limit] of its own, the URL of the request has a [page] parameter
    if and only if the [page] argument, [1] when it is omitted, is not
    NaN, and the parameter then is [String(page)]; the same holds of
    [limit], whose default is [20].  The infinities, which are not
    finite, are attached. *)
Theorem query_parameters
    (Number_toString : number -> string) (new_URL : string -> URL)
    (env_endpoint : option string) (params : FetchSensorReadingsParams) :
  let base := searchParams (new_URL (SENSOR_READINGS_ENDPOINT env_endpoint)) in
  let query :=
    searchParams (request_url Number_toString new_URL env_endpoint params) in
  let page := match page params with Some p => p | None => lit 1 end in
  let limit := match limit params with Some l => l | None => lit 20 end in
  searchParams_has "page" base = false ->
  searchParams_has "limit" base = false ->
  searchParams_has "page" query = negb (Number_isNaN page) /\
  searchParams_has "limit" query = negb (Number_isNaN limit) /\
  (Number_isNaN page = false ->
   searchParams_get "page" query = Some (Number_toString page)) /\
  (Number_isNaN limit = false ->
   searchParams_get "limit" query = Some (Number_toString limit)).
Proof.
  intros base query page limit Hp Hl.
  assert (Npl : String.eqb "page" "limit" = false) by reflexivity.
  assert (Nlp : String.eqb "limit" "page" = false) by reflexivity.
  unfold query, request_url. fold page. fold limit. fold base.
  destruct (Number_isNaN page) eqn:Ep;
    destruct (Number_isNaN limit) eqn:El;
    cbn [negb url_set searchParams]; fold base;
    rewrite ?has_set_same, ?has_set_other, ?get_set_same, ?get_set_other,
      ?has_set_same, ?get_set_same by assumption;
    repeat split; auto; try discriminate.
Qed.

Lemma query_parameters_witness :
  let params := {| page := Some (lit 2); limit := Some Number_NaN;
                   signal := None |} in
  let query :=
    searchParams (request_url String_of_integer URL_without_query None params) in
  searchParams_has "page" query = true /\
  searchParams_has "limit" query = false /\
  searchParams_get "page" query = Some "2"%string.
Proof.
  intros params query.
  destruct (query_parameters String_of_integer URL_without_query None params
              eq_refl eq_refl) as (Hp & Hl & Hg & _).
  split; [exact Hp | split; [exact Hl | exact (Hg eq_refl)]].
Defined.

(** *** The validation of the response *)

(** With a response in hand and its body decoded, the call resolves
    exactly when the four tests of the source pass. *)
Lemma fetchSensorReadings_resolves_iff
    (Number_toString : number -> string) (new_URL : string -> URL)
    (env_endpoint : option string) (fetch : Request -> completion Response)
    (params : FetchSensorReadingsParams)
    (response : Response) (payload : JSON) :
  fetch (request Number_toString new_URL env_endpoint params) = Normal response ->
  json response = Normal payload ->
  (fetchSensorReadings Number_toString new_URL env_endpoint fetch params
   = Normal payload
   <-> ok response = true /\ truthy payload = true /\
       Array_isArray (get payload "data") = true /\
       typeof (get payload "meta") = "object"%string) /\
  (ok response = false ->
   fetchSensorReadings Number_toString new_URL env_endpoint fetch params
   = Throw (new_Error ("Failed to fetch sensor readings: "
                         ++ status_toString (status response) ++ " "
                         ++ statusText response))).
Proof.
  intros Hf Hj. unfold fetchSensorReadings. rewrite Hf, Hj.
  destruct (ok response); cbn [negb].
  - split; [|discriminate].
    destruct (truthy payload); cbn [negb orb].
    + destruct (Array_isArray (get payload "data")); cbn [negb orb].
      * destruct (String.eqb_spec (typeof (get payload "meta")) "object");
          cbn [negb]; split; try tauto; try discriminate.
      * split; [discriminate | intros (_ & _ & H & _); discriminate].
    + split; [discriminate | intros (_ & H & _); discriminate].
  - split; [|reflexivity].
    split; [discriminate | intros (H & _); discriminate].
Qed.

(** C6: the code at the input where it parts from the specification.  The
    status is 200 and the body decodes to an object whose [meta] is
    null, which is not an object; since [typeof null] is ["object"], the
    call resolves with that payload instead of rejecting. *)
Theorem null_meta_resolves :
  let payload := JObject [("data"%string, JArray []); ("meta"%string, JNull)] in
  let response :=
    {| status := 200; statusText := "OK"; json := Normal payload |} in
  ok response = true /\
  get payload "meta" = Some JNull /\
  fetchSensorReadings String_of_integer URL_without_query None
    (fun _ => Normal response)
    {| page := None; limit := None; signal := None |}
  = Normal payload.
Proof. repeat split. Qed.

End ApiFacts.

(** ** The statistics *)

Module DashboardFacts.

Import Api Dashboard NumberFacts.

(** C9.  On the empty sequence every statistic is null, whatever
    [Date.parse] does. *)
Theorem computeStatistics_empty (Date_parse : string -> number) :
  computeStatistics Date_parse [] =
  {| average := None; min := None; max := None; range := None;
     trend := None; latest := None; earliest := None;
     lastUpdated := None |}.
Proof. reflexivity. Qed.

Section Loop.

Variable Date_parse : string -> number.

Local Abbreviation time := (Dashboard.time Date_parse).
Local Abbreviation body := (Dashboard.body Date_parse).

(** *** What an iteration does to the two groups of variables *)

Lemma body_moisture v r :
  let v' := body v r in
  let m := moisture r in
  Vars.sum v' = (if Number_isFinite m then add (Vars.sum v) m else Vars.sum v) /\
  Vars.count v' = (if Number_isFinite m then Vars.count v + 1 else Vars.count v) /\
  Vars.min v' = (if Number_isFinite m
                 then if lt m (Vars.min v) then m else Vars.min v
                 else Vars.min v) /\
  Vars.max v' = (if Number_isFinite m
                 then if gt m (Vars.max v) then m else Vars.max v
                 else Vars.max v).
Proof.
  unfold Dashboard.body, fold_timestamp, fold_moisture.
  destruct (Number_isFinite (moisture r));
    destruct (Number_isNaN (Date_parse (timestamp r)));
    cbn; repeat split; reflexivity.
Qed.

Lemma body_time v r :
  let v' := body v r in
  let newer := negb (Number_isNaN (time r)) && gt (time r) (Vars.latestTime v) in
  let older := negb (Number_isNaN (time r)) && lt (time r) (Vars.earliestTime v) in
  Vars.latest v' = (if newer then Some r else Vars.latest v) /\
  Vars.latestTime v' = (if newer then time r else Vars.latestTime v) /\
  Vars.earliest v' = (if older then Some r else Vars.earliest v) /\
  Vars.earliestTime v' = (if older then time r else Vars.earliestTime v).
Proof.
  unfold Dashboard.body, fold_timestamp, fold_moisture, Dashboard.time.
  destruct (Number_isFinite (moisture r));
    destruct (Number_isNaN (Date_parse (timestamp r)));
    cbn; repeat split; reflexivity.
Qed.

Lemma loop_moisture data : forall v,
  let v' := fold_left body data v in
  let ms := finite_moistures data in
  Vars.sum v' = fold_left add ms (Vars.sum v) /\
  Vars.count v' = Vars.count v + Z.of_nat (List.length ms) /\
  Vars.min v' = running_min ms (Vars.min v) /\
  Vars.max v' = running_max ms (Vars.max v).
Proof.
  induction data as [|r data IH]; intros v.
  - cbn. repeat split; lia.
  - cbn [fold_left]. specialize (IH (body v r)).
    destruct (body_moisture v r) as (Hs & Hc & Hmin & Hmax).
    cbn zeta in IH, Hs, Hc, Hmin, Hmax.
    destruct IH as (IHs & IHc & IHmin & IHmax).
    rewrite IHs, IHc, IHmin, IHmax, Hs, Hc, Hmin, Hmax.
    unfold finite_moistures. cbn [map filter].
    destruct (Number_isFinite (moisture r)).
    + cbn [fold_left List.length running_min running_max].
      repeat split; try reflexivity. lia.
    + repeat split; reflexivity.
Qed.

(** *** The least and the greatest finite moisture *)

Lemma infinity_not_le x :
  Number_isFinite x = true -> le POSITIVE_INFINITY x = false.
Proof. destruct x as [[]|[]| |[] ? ?]; cbv; congruence. Qed.

Lemma not_ge_infinity x :
  Number_isFinite x = true -> le x NEGATIVE_INFINITY = false.
Proof. destruct x as [[]|[]| |[] ? ?]; cbv; congruence. Qed.

Lemma running_min_spec ms :
  Forall (fun x => Number_isFinite x = true) ms ->
  forall m0, m0 <> S754_nan ->
  (running_min ms m0 = m0 \/ In (running_min ms m0) ms) /\
  le (running_min ms m0) m0 = true /\
  (forall x, In x ms -> le (running_min ms m0) x = true).
Proof.
  unfold le. induction 1 as [|x ms Hx Hms IH]; intros m0 Hm0.
  - cbn [running_min fold_left].
    repeat split; [left; reflexivity | apply leb_refl; assumption |].
    intros y [].
  - cbn [running_min fold_left]. fold (running_min ms).
    pose proof (isFinite_not_NaN x Hx) as Hxn.
    destruct (lt x m0) eqn:L.
    + destruct (IH x Hxn) as (Hin & Hle & Hall).
      split; [|split].
      * right. destruct Hin as [E | I]; [left; symmetry; exact E | right; exact I].
      * apply leb_trans with x; [assumption | apply ltb_leb, L].
      * intros y [<- | Hy]; auto.
    + destruct (IH m0 Hm0) as (Hin & Hle & Hall).
      split; [|split].
      * destruct Hin as [E | I]; [left; exact E | right; right; exact I].
      * assumption.
      * intros y [<- | Hy]; auto.
        apply leb_trans with m0; [assumption|].
        apply leb_total; assumption.
Qed.

Lemma running_max_spec ms :
  Forall (fun x => Number_isFinite x = true) ms ->
  forall m0, m0 <> S754_nan ->
  (running_max ms m0 = m0 \/ In (running_max ms m0) ms) /\
  le m0 (running_max ms m0) = true /\
  (forall x, In x ms -> le x (running_max ms m0) = true).
Proof.
  unfold le. induction 1 as [|x ms Hx Hms IH]; intros m0 Hm0.
  - cbn [running_max fold_left].
    repeat split; [left; reflexivity | apply leb_refl; assumption |].
    intros y [].
  - cbn [running_max fold_left]. fold (running_max ms).
    pose proof (isFinite_not_NaN x Hx) as Hxn.
    destruct (gt x m0) eqn:G.
    + destruct (IH x Hxn) as (Hin & Hle & Hall).
      split; [|split].
      * right. destruct Hin as [E | I]; [left; symmetry; exact E | right; exact I].
      * apply leb_trans with x; [apply ltb_leb, G | assumption].
      * intros y [<- | Hy]; auto.
    + destruct (IH m0 Hm0) as (Hin & Hle & Hall).
      split; [|split].
      * destruct Hin as [E | I]; [left; exact E | right; right; exact I].
      * assumption.
      * intros y [<- | Hy]; auto.
        apply leb_trans with m0; [|assumption].
        apply leb_total; assumption.
Qed.

Lemma finite_moistures_finite data :
  Forall (fun x => Number_isFinite x = true) (finite_moistures data).
Proof.
  apply Forall_forall. intros x Hx.
  apply filter_In in Hx. apply Hx.
Qed.

(** C10 (amended).  When some reading has a finite moisture, [min]
    and [max] are the least and the greatest finite moisture of the
    data, so [min <= max]; [range] is [max - min] as binary64
    subtracts, and is not negative when the moistures are genuine
    binary64 numbers; [average] is the sum of the finite moistures,
    added in their order from [0] with binary64 rounding, divided by
    their number.  When no reading has a finite moisture the four are
    null. *)
Theorem moisture_statistics (data : list SensorReading) :
  let st := computeStatistics Date_parse data in
  let ms := finite_moistures data in
  match ms with
  | [] =>
      average st = None /\ min st = None /\ max st = None /\
      range st = None
  | _ :: _ =>
      exists mn mx : number,
        min st = Some mn /\ max st = Some mx /\
        In mn ms /\ In mx ms /\
        (forall x, In x ms -> le mn x = true /\ le x mx = true) /\
        le mn mx = true /\
        range st = Some (sub mx mn) /\
        (Forall (fun x => valid x = true) ms ->
         le (lit 0) (sub mx mn) = true) /\
        average st =
          Some (div (fold_left add ms (lit 0))
                    (lit (Z.of_nat (List.length ms))))
  end.
Proof.
  intros st ms.
  destruct (loop_moisture data vars0) as (Hs & Hc & Hmin & Hmax).
  cbn zeta in Hs, Hc, Hmin, Hmax. fold ms in Hs, Hc, Hmin, Hmax.
  cbn [vars0 Vars.sum Vars.count Vars.min Vars.max] in Hs, Hc, Hmin, Hmax.
  pose proof (finite_moistures_finite data) as Hfin. fold ms in Hfin.
  unfold st, computeStatistics. cbn [average min max range].
  rewrite Hs, Hc, Hmin, Hmax.
  destruct ms as [|x0 ms'] eqn:Ems.
  - cbn. repeat split; reflexivity.
  - replace (0 <? 0 + Z.of_nat (List.length (x0 :: ms'))) with true
      by (symmetry; apply Z.ltb_lt; cbn [List.length]; lia).
    destruct (running_min_spec (x0 :: ms') Hfin POSITIVE_INFINITY)
      as (Hin & _ & Hall); [discriminate|].
    destruct (running_max_spec (x0 :: ms') Hfin NEGATIVE_INFINITY)
      as (Hin' & _ & Hall'); [discriminate|].
    set (mn := running_min (x0 :: ms') POSITIVE_INFINITY) in *.
    set (mx := running_max (x0 :: ms') NEGATIVE_INFINITY) in *.
    assert (Hx0 : Number_isFinite x0 = true) by (inversion Hfin; assumption).
    assert (Imn : In mn (x0 :: ms')).
    { destruct Hin as [E | I]; [|exact I].
      pose proof (Hall x0 (or_introl eq_refl)) as H. rewrite E in H.
      rewrite infinity_not_le in H by assumption. discriminate. }
    assert (Imx : In mx (x0 :: ms')).
    { destruct Hin' as [E | I]; [|exact I].
      pose proof (Hall' x0 (or_introl eq_refl)) as H. rewrite E in H.
      rewrite not_ge_infinity in H by assumption. discriminate. }
    assert (Hle : le mn mx = true).
    { apply leb_trans with x0; [apply Hall | apply Hall']; left; reflexivity. }
    exists mn, mx. repeat split; auto.
    intros Hv. rewrite Forall_forall in Hv, Hfin.
    apply sub_nonneg; auto.
Qed.

(** *** The latest and the earliest reading *)

Lemma body_newer v r :
  Number_isNaN (time r) = false ->
  gt (time r) (Vars.latestTime v) = true ->
  Vars.latest (body v r) = Some r /\ Vars.latestTime (body v r) = time r.
Proof.
  intros Hn Hg. destruct (body_time v r) as (H1 & H2 & _).
  cbn zeta in H1, H2. rewrite Hn, Hg in H1, H2. split; assumption.
Qed.

Lemma body_not_newer v r :
  Number_isNaN (time r) = true \/ gt (time r) (Vars.latestTime v) = false ->
  Vars.latest (body v r) = Vars.latest v /\
  Vars.latestTime (body v r) = Vars.latestTime v.
Proof.
  intros H. destruct (body_time v r) as (H1 & H2 & _).
  cbn zeta in H1, H2.
  replace (negb (Number_isNaN (time r)) && gt (time r) (Vars.latestTime v))
    with false in H1, H2; [split; assumption|].
  destruct H as [-> | ->]; [reflexivity | rewrite andb_false_r; reflexivity].
Qed.

Lemma body_older v r :
  Number_isNaN (time r) = false ->
  lt (time r) (Vars.earliestTime v) = true ->
  Vars.earliest (body v r) = Some r /\ Vars.earliestTime (body v r) = time r.
Proof.
  intros Hn Hl. destruct (body_time v r) as (_ & _ & H1 & H2).
  cbn zeta in H1, H2. rewrite Hn, Hl in H1, H2. split; assumption.
Qed.

Lemma body_not_older v r :
  Number_isNaN (time r) = true \/ lt (time r) (Vars.earliestTime v) = false ->
  Vars.earliest (body v r) = Vars.earliest v /\
  Vars.earliestTime (body v r) = Vars.earliestTime v.
Proof.
  intros H. destruct (body_time v r) as (_ & _ & H1 & H2).
  cbn zeta in H1, H2.
  replace (negb (Number_isNaN (time r)) && lt (time r) (Vars.earliestTime v))
    with false in H1, H2; [split; assumption|].
  destruct H as [-> | ->]; [reflexivity | rewrite andb_false_r; reflexivity].
Qed.

(** Before the reading of time [t]: while the times met are below
    [t], so is [latestTime]. *)
Lemma loop_below t l : forall v,
  lt (Vars.latestTime v) t = true ->
  Forall (unparsed_or Date_parse (fun u => lt u t)) l ->
  lt (Vars.latestTime (fold_left body l v)) t = true.
Proof.
  induction l as [|x l IH]; intros v Hv Hl; [exact Hv|].
  inversion Hl as [|? ? Hx Hl']; subst. cbn [fold_left].
  apply IH; [|assumption].
  destruct (body_time v x) as (_ & H2 & _). cbn zeta in H2. rewrite H2.
  destruct (negb (Number_isNaN (time x)) && gt (time x) (Vars.latestTime v))
    eqn:E; [|exact Hv].
  destruct Hx as [Hx | Hx]; [|exact Hx].
  rewrite Hx in E. discriminate.
Qed.

(** After it: while the times met are at most [t], the candidate and
    [latestTime] stay. *)
Lemma loop_keeps_latest t r l : forall v,
  Vars.latest v = Some r -> Vars.latestTime v = t ->
  Forall (unparsed_or Date_parse (fun u => le u t)) l ->
  Vars.latest (fold_left body l v) = Some r /\
  Vars.latestTime (fold_left body l v) = t.
Proof.
  induction l as [|x l IH]; intros v Hr Ht Hl; [split; assumption|].
  inversion Hl as [|? ? Hx Hl']; subst. cbn [fold_left].
  destruct (body_not_newer v x) as (H1 & H2).
  { destruct Hx as [Hx | Hx]; [left; exact Hx | right].
    apply ltb_antisym. exact Hx. }
  apply IH; [congruence | congruence | assumption].
Qed.

Lemma loop_above t l : forall v,
  lt t (Vars.earliestTime v) = true ->
  Forall (unparsed_or Date_parse (fun u => gt u t)) l ->
  lt t (Vars.earliestTime (fold_left body l v)) = true.
Proof.
  induction l as [|x l IH]; intros v Hv Hl; [exact Hv|].
  inversion Hl as [|? ? Hx Hl']; subst. cbn [fold_left].
  apply IH; [|assumption].
  destruct (body_time v x) as (_ & _ & _ & H2). cbn zeta in H2. rewrite H2.
  destruct (negb (Number_isNaN (time x)) && lt (time x) (Vars.earliestTime v))
    eqn:E; [|exact Hv].
  destruct Hx as [Hx | Hx]; [|exact Hx].
  rewrite Hx in E. discriminate.
Qed.

Lemma loop_keeps_earliest t r l : forall v,
  Vars.earliest v = Some r -> Vars.earliestTime v = t ->
  Forall (unparsed_or Date_parse (fun u => le t u)) l ->
  Vars.earliest (fold_left body l v) = Some r /\
  Vars.earliestTime (fold_left body l v) = t.
Proof.
  induction l as [|x l IH]; intros v Hr Ht Hl; [split; assumption|].
  inversion Hl as [|? ? Hx Hl']; subst. cbn [fold_left].
  destruct (body_not_older v x) as (H1 & H2).
  { destruct Hx as [Hx | Hx]; [left; exact Hx | right].
    apply ltb_antisym. exact Hx. }
  apply IH; [congruence | congruence | assumption].
Qed.

(** C8.  Let the reading [r], of parsed time [t], stand between
    [before] and [after] in the data.  If the times parsed in
    [before] are below [t] and those parsed in [after] are at most
    [t], then [latest] is [r]: a later reading of the same time [t]
    does not replace it, the test being [>].  Likewise [earliest] is
    [r] when the times in [before] are above [t] and those in [after]
    at least [t].  So a reading that follows only unparsed ones and is
    followed only by readings of its own time, if parsed, is both the
    latest and the earliest. *)
Theorem first_seen_wins (before after : list SensorReading)
    (r : SensorReading) :
  let t := time r in
  let st := computeStatistics Date_parse (before ++ r :: after) in
  Number_isFinite t = true ->
  (Forall (unparsed_or Date_parse (fun u => lt u t)) before ->
   Forall (unparsed_or Date_parse (fun u => le u t)) after ->
   latest st = Some r /\ lastUpdated st = Some t) /\
  (Forall (unparsed_or Date_parse (fun u => gt u t)) before ->
   Forall (unparsed_or Date_parse (fun u => le t u)) after ->
   earliest st = Some r) /\
  (Forall (fun x => Number_isNaN (time x) = true) before ->
   Forall (fun x => Number_isNaN (time x) = true \/ time x = t) after ->
   latest st = Some r /\ earliest st = Some r).
Proof.
  intros t st Ht.
  pose proof (isFinite_not_NaN t Ht) as Hnan.
  assert (Hn : Number_isNaN t = false) by (destruct t; cbn in *; congruence).
  assert (Late : Forall (unparsed_or Date_parse (fun u => lt u t)) before ->
                 Forall (unparsed_or Date_parse (fun u => le u t)) after ->
                 latest st = Some r /\ lastUpdated st = Some t).
  { intros Hb Ha. unfold st, computeStatistics. cbn [latest lastUpdated].
    rewrite fold_left_app. cbn [fold_left].
    pose proof (loop_below t before vars0
                  (finite_above_infinity t Ht) Hb) as Hlow.
    destruct (body_newer (fold_left body before vars0) r Hn Hlow) as (L1 & L2).
    destruct (loop_keeps_latest t r after _ L1 L2 Ha) as (K1 & K2).
    rewrite K1, K2. split; [reflexivity|].
    unfold gt. rewrite (finite_above_infinity t Ht). reflexivity. }
  assert (Early : Forall (unparsed_or Date_parse (fun u => gt u t)) before ->
                  Forall (unparsed_or Date_parse (fun u => le t u)) after ->
                  earliest st = Some r).
  { intros Hb Ha. unfold st, computeStatistics. cbn [earliest].
    rewrite fold_left_app. cbn [fold_left].
    pose proof (loop_above t before vars0
                  (finite_below_infinity t Ht) Hb) as Hup.
    destruct (body_older (fold_left body before vars0) r Hn Hup) as (L1 & L2).
    destruct (loop_keeps_earliest t r after _ L1 L2 Ha) as (K1 & _).
    exact K1. }
  split; [exact Late | split; [exact Early |]].
  intros Hb Ha.
  assert (Hrefl : le t t = true) by (apply leb_refl; assumption).
  split.
  - apply Late.
    + eapply Forall_impl; [|exact Hb]. intros x Hx. left. exact Hx.
    + eapply Forall_impl; [|exact Ha]. intros x [Hx | Hx];
        [left; exact Hx | right; rewrite Hx; exact Hrefl].
  - apply Early.
    + eapply Forall_impl; [|exact Hb]. intros x Hx. left. exact Hx.
    + eapply Forall_impl; [|exact Ha]. intros x [Hx | Hx];
        [left; exact Hx | right; rewrite Hx; exact Hrefl].
Qed.

End Loop.

(** C10, as the specification has it, fails: three readings of
    moisture 0.1 have an average above their maximum, since the sum
    0.1 + 0.1 + 0.1 rounds up to 0.30000000000000004. *)
Lemma average_above_max :
  let tenth := div (lit 1) (lit 10) in
  let r := {| timestamp := "1970-01-01T00:00:00.000Z"; moisture := tenth |} in
  let st := computeStatistics Date_parse_sample [r; r; r] in
  valid tenth = true /\
  max st = Some tenth /\
  average st = Some (S754_finite false 7205759403792795 (-56)) /\
  le (S754_finite false 7205759403792795 (-56)) tenth = false.
Proof. vm_compute. repeat split. Qed.

Lemma moisture_statistics_witness :
  let tenth := div (lit 1) (lit 10) in
  let r := {| timestamp := "1970-01-01T00:00:00.000Z"; moisture := tenth |} in
  let q := {| timestamp := "not a date"; moisture := lit 7 |} in
  let st := computeStatistics Date_parse_sample [r; q] in
  min st = Some tenth /\ max st = Some (lit 7) /\
  le (lit 0) (sub (lit 7) tenth) = true.
Proof.
  intros tenth r q st.
  pose proof (moisture_statistics Date_parse_sample [r; q]) as H.
  cbn [finite_moistures map filter moisture] in H.
  change (Number_isFinite (moisture r)) with true in H.
  change (Number_isFinite (moisture q)) with true in H.
  cbn match in H.
  destruct H as (mn & mx & Hmn & Hmx & _ & _ & _ & _ & _ & Hr & _).
  assert (Emn : min st = Some tenth) by (vm_compute; reflexivity).
  assert (Emx : max st = Some (lit 7)) by (vm_compute; reflexivity).
  fold st in Hmn, Hmx.
  assert (E1 : mn = tenth) by congruence.
  assert (E2 : mx = lit 7) by congruence.
  subst mn mx.
  split; [exact Emn | split; [exact Emx |]].
  apply Hr. repeat constructor.
Defined.

(** C8, as the specification has it, fails: of two readings of one
    instant that follow a reading of an earlier instant, the first is
    the latest candidate but not the earliest, which is the earlier
    reading. *)
Lemma tied_pair_not_earliest :
  let a := {| timestamp := "1970-01-01T00:00:00.000Z"; moisture := lit 3 |} in
  let b := {| timestamp := "1970-01-01T00:00:01.000Z"; moisture := lit 5 |} in
  let c := {| timestamp := "1970-01-01T00:00:01.000Z"; moisture := lit 9 |} in
  let st := computeStatistics Date_parse_sample [a; b; c] in
  Number_isNaN (time Date_parse_sample b) = false /\
  time Date_parse_sample c = time Date_parse_sample b /\
  latest st = Some b /\ earliest st = Some a /\ a <> b.
Proof. vm_compute. repeat split. discriminate. Qed.

(** Two readings of one instant after a reading without a date: the
    first of the two is both candidates. *)
Lemma first_seen_wins_witness :
  let q := {| timestamp := "not a date"; moisture := lit 7 |} in
  let r1 := {| timestamp := "1970-01-01T00:00:01.000Z"; moisture := lit 5 |} in
  let r2 := {| timestamp := "1970-01-01T00:00:01.000Z"; moisture := lit 9 |} in
  let st := computeStatistics Date_parse_sample [q; r1; r2] in
  Number_isFinite (time Date_parse_sample r1) = true /\
  time Date_parse_sample r2 = time Date_parse_sample r1 /\
  latest st = Some r1 /\ earliest st = Some r1.
Proof.
  intros q r1 r2 st.
  assert (Hf : Number_isFinite (time Date_parse_sample r1) = true)
    by (vm_compute; reflexivity).
  assert (He : time Date_parse_sample r2 = time Date_parse_sample r1)
    by (vm_compute; reflexivity).
  split; [exact Hf | split; [exact He |]].
  destruct (first_seen_wins Date_parse_sample [q] [r2] r1 Hf) as (_ & _ & H).
  apply H.
  - constructor; [vm_compute; reflexivity | constructor].
  - constructor; [right; exact He | constructor].
Defined.

End DashboardFacts.


(** ** Integers among the binary64 numbers *)

Module IntegerFacts.

Import NumberFacts.

Lemma digits2_pos_iter_xO k : forall p,
  digits2_pos (Pos.iter xO p k) = (digits2_pos p + k)%positive.
Proof.
  induction k as [|k IH] using Pos.peano_ind; intros p.
  - cbn [Pos.iter digits2_pos]. rewrite Pos.add_1_r. reflexivity.
  - rewrite Pos.iter_succ. cbn [digits2_pos]. rewrite IH.
    rewrite Pos.add_succ_r. reflexivity.
Qed.

(** A mantissa of 53 digits with an exponent in range is kept as it
    is. *)
Lemma binary_round_aux_exact s m e :
  Zpos (digits2_pos m) = 53 -> -1074 <= e <= 971 ->
  binary_round_aux JS.prec JS.emax s (Zpos m) e loc_Exact = S754_finite s m e.
Proof.
  intros Hd He. unfold binary_round_aux, shr_fexp.
  cbn [Zdigits2 shr_record_of_loc]. rewrite Hd.
  replace (fexp JS.prec JS.emax (53 + e) - e) with 0
    by (unfold fexp, emin, JS.prec, JS.emax; lia).
  cbn [shr shr_m loc_of_shr_record round_nearest_even Zdigits2 shr_record_of_loc].
  rewrite Hd.
  replace (fexp JS.prec JS.emax (53 + e) - e) with 0
    by (unfold fexp, emin, JS.prec, JS.emax; lia).
  cbn [shr shr_m].
  replace (e <=? JS.emax - JS.prec) with true
    by (symmetry; apply Z.leb_le; unfold JS.prec, JS.emax; lia).
  reflexivity.
Qed.

Lemma binary_round_exact s p :
  Zpos (digits2_pos p) <= 53 ->
  binary_round JS.prec JS.emax s p 0
  = S754_finite s (fst (top_aligned p)) (snd (top_aligned p)) /\
  Zpos (digits2_pos (fst (top_aligned p))) = 53 /\
  snd (top_aligned p) = Zpos (digits2_pos p) - 53 /\
  Zpos (fst (top_aligned p)) = Zpos p * 2 ^ (53 - Zpos (digits2_pos p)).
Proof.
  intros Hd. unfold binary_round, top_aligned.
  replace (fexp JS.prec JS.emax (Zpos (digits2_pos p) + 0))
    with (Zpos (digits2_pos p) - 53)
    by (unfold fexp, emin, JS.prec, JS.emax; lia).
  destruct (shl_align_spec p 0 (Zpos (digits2_pos p) - 53)) as [Hm He].
  assert (Hdig : Zpos (digits2_pos (fst (shl_align p 0 (Zpos (digits2_pos p) - 53)))) = 53).
  { unfold shl_align.
    destruct (Zpos (digits2_pos p) - 53 - 0) as [|k|k] eqn:E; cbn [fst]; try lia.
    rewrite digits2_pos_iter_xO. lia. }
  destruct (shl_align p 0 (Zpos (digits2_pos p) - 53)) as [mz ez].
  cbn [fst snd] in *.
  assert (Hez : ez = Zpos (digits2_pos p) - 53) by lia.
  split; [|split; [exact Hdig | split; [exact Hez|]]].
  - apply binary_round_aux_exact; [exact Hdig | lia].
  - rewrite Hm. f_equal. f_equal. lia.
Qed.

Lemma digits2_pos_le p m :
  Zpos p <= Zpos m -> Zpos (digits2_pos p) <= Zpos (digits2_pos m).
Proof.
  intros Hle.
  pose proof (digits2_pos_bounds p) as [Hp _].
  pose proof (digits2_pos_bounds m) as [_ Hm].
  destruct (Z.le_gt_cases (Zpos (digits2_pos p)) (Zpos (digits2_pos m)))
    as [H | H]; [exact H | exfalso].
  assert (2 ^ Zpos (digits2_pos m) <= 2 ^ (Zpos (digits2_pos p) - 1))
    by (apply Z.pow_le_mono_r; lia).
  lia.
Qed.

Lemma shiftr_pos_le m k p :
  0 < k -> Z.shiftr (Zpos m) k = Zpos p -> Zpos p <= Zpos m.
Proof.
  intros Hk H. rewrite Z.shiftr_div_pow2 in H by lia.
  assert (Hpow : 0 < 2 ^ k) by (apply Z.pow_pos_nonneg; lia).
  pose proof (Z.div_mod (Zpos m) (2 ^ k) ltac:(lia)) as D.
  pose proof (Z.mod_pos_bound (Zpos m) (2 ^ k) Hpow) as B.
  rewrite H in D. nia.
Qed.

Lemma shiftr_neg_le m k p :
  0 < k -> Z.shiftr (Zneg m) k = Zneg p -> Zpos p <= Zpos m.
Proof.
  intros Hk H. rewrite Z.shiftr_div_pow2 in H by lia.
  assert (Hpow : 0 < 2 ^ k) by (apply Z.pow_pos_nonneg; lia).
  pose proof (Z.div_mod (Zneg m) (2 ^ k) ltac:(lia)) as D.
  pose proof (Z.mod_pos_bound (Zneg m) (2 ^ k) Hpow) as B.
  rewrite H in D. nia.
Qed.

Lemma canonical_digits m e :
  canonical_mantissa JS.prec JS.emax m e = true -> Zpos (digits2_pos m) <= 53.
Proof.
  unfold canonical_mantissa, fexp, emin, JS.prec, JS.emax.
  intros H. apply Z.eqb_eq in H. lia.
Qed.

(** The number an integer of at most 53 bits becomes is an integer. *)
Lemma round_integer s p :
  Zpos (digits2_pos p) <= 53 ->
  integer (binary_round JS.prec JS.emax s p 0).
Proof.
  intros Hd.
  destruct (binary_round_exact s p Hd) as (-> & Hdig & He & Hm).
  pose proof (digits2_pos_bounds p) as [_ Hp].
  assert (Hd1 : 1 <= Zpos (digits2_pos p)) by lia.
  unfold integer. split; [reflexivity|]. split.
  - unfold valid, valid_binary, bounded, canonical_mantissa.
    rewrite Hdig, He.
    unfold fexp, emin, JS.prec, JS.emax.
    apply andb_true_intro. split; [apply Z.eqb_eq | apply Z.leb_le]; lia.
  - cbn [Math_floor]. destruct (Z.leb_spec 0 (snd (top_aligned p))) as [H0 | H0];
      [reflexivity|].
    assert (Hz : Z.shiftr (cond_Zopp s (Zpos (fst (top_aligned p))))
                   (- snd (top_aligned p)) = cond_Zopp s (Zpos p)).
    { rewrite Z.shiftr_div_pow2 by lia.
      replace (- snd (top_aligned p)) with (53 - Zpos (digits2_pos p)) by lia.
      assert (0 < 2 ^ (53 - Zpos (digits2_pos p)))
        by (apply Z.pow_pos_nonneg; lia).
      destruct s; cbn [cond_Zopp]; rewrite Hm.
      - rewrite <- Z.mul_opp_l. apply Z.div_mul. lia.
      - apply Z.div_mul. lia. }
    rewrite Hz.
    destruct (binary_round_exact s p Hd) as (E & _).
    destruct s; cbn [cond_Zopp binary_normalize]; exact E.
Qed.

(** [Math.floor] of a genuine finite number is a finite integer. *)
Lemma Math_floor_integer x :
  valid x = true -> Number_isFinite x = true -> integer (Math_floor x).
Proof.
  destruct x as [s|s| |s m e]; try (cbn; congruence); intros V _.
  - repeat split.
  - cbn [Math_floor]. destruct (Z.leb_spec 0 e) as [He | He].
    + unfold integer. split; [reflexivity|]. split; [exact V|].
      cbn [Math_floor]. rewrite (proj2 (Z.leb_le 0 e) He). reflexivity.
    + unfold valid in V. cbn [valid_binary] in V. unfold bounded in V.
      apply andb_prop in V. destruct V as [C _].
      pose proof (canonical_digits m e C) as Hm.
      destruct s; cbn [cond_Zopp]; change (- Zpos m) with (Zneg m).
      * destruct (Z.shiftr (Zneg m) (- e)) as [|p|p] eqn:E;
          cbn [binary_normalize].
        -- repeat split.
        -- exfalso. pose proof (Z.shiftr_neg (Zneg m) (- e)) as N.
           rewrite E in N. assert (H : Zneg m < 0) by lia.
           apply N in H. lia.
        -- apply round_integer.
           pose proof (shiftr_neg_le m (- e) p ltac:(lia) E).
           pose proof (digits2_pos_le p m ltac:(assumption)). lia.
      * destruct (Z.shiftr (Zpos m) (- e)) as [|p|p] eqn:E;
          cbn [binary_normalize].
        -- repeat split.
        -- apply round_integer.
           pose proof (shiftr_pos_le m (- e) p ltac:(lia) E).
           pose proof (digits2_pos_le p m ltac:(assumption)). lia.
        -- exfalso. pose proof (Z.shiftr_nonneg (Zpos m) (- e)) as N.
           rewrite E in N. assert (H : 0 <= Zpos m) by lia.
           apply N in H. lia.
Qed.

End IntegerFacts.


(** ** The life of the hook *)

Module HookLife.

Import Api Hook NumberFacts IntegerFacts HookFacts.

(** Unfolds the operations of the hook down to the record of cells. *)
Ltac open_hook :=
  unfold event, run_calls, call, load_effect, poll_effect, poll_cleanup,
    unmount, clear_interval, interval_tick, refetch, Table.handleLimitChange,
    setPage, setLimit, fetchData_settle, fetchData_start,
    new_AbortController, abort_current, abort, signal_aborted, is_current,
    try_finally, try_catch, bind, await, ret, get_State,
    setPageState, setLimitState,
    setData, setMeta, setError, setIsLoading, setIsRefreshing,
    set_controllers, set_controllerRef, set_intervalRef in *.

Ltac split_cases :=
  repeat match goal with
  | |- context [match ?x with _ => _ end] =>
      match type of x with
      | bool => destruct x eqn:?
      | option _ => destruct x eqn:?
      | completion _ => destruct x eqn:?
      | Call => destruct x
      end; cbn
  end.

(** *** What an event writes *)

(** Only the setters write [page] and [limit]. *)
Lemma event_keeps_query e s :
  (forall c, e <> Setter c) ->
  page (event e s) = page s /\ limit (event e s) = limit s.
Proof.
  intros Hne. destruct e as [en|en ms| |pg lm| |p settled|c|];
    try (exfalso; eapply Hne; reflexivity);
    open_hook; cbn; split_cases; split; congruence.
Qed.

(** The controllers and [controllerRef] after an event: a request is
    issued, the current request is aborted, or nothing moves. *)
Lemma event_controllers e s :
  let s' := event e s in
  if issues e then
    controllers s' = (aborted_current s ++ [false])%list /\
    controllerRef s' = Some (List.length (aborted_current s))
  else if aborts e then
    controllers s' = aborted_current s /\ controllerRef s' = controllerRef s
  else
    controllers s' = controllers s /\ controllerRef s' = controllerRef s.
Proof.
  destruct e as [[]|en ms| |pg lm| |p settled|c|]; cbn [issues aborts];
    unfold aborted_current; open_hook; cbn; split_cases; split; congruence.
Qed.

(** X18.  Each cell has its writers: only a setter writes [page] or
    [limit]; only the settlement of a request writes [data], [meta] or
    [error], so what is shown stays while a request is issued, aborted
    or in flight; and nothing but the two effects and their cleanups
    writes [intervalRef]. *)
Theorem cells_and_their_writers (e : Event) (s : State) :
  let s' := event e s in
  match e with
  | Setter _ => True
  | _ => page s' = page s /\ limit s' = limit s
  end /\
  match e with
  | Settle _ _ => True
  | _ => data s' = data s /\ meta s' = meta s /\ error s' = error s
  end /\
  match e with
  | LoadEffect _ | PollEffect _ _ | PollCleanup | Unmount => True
  | _ => intervalRef s' = intervalRef s
  end.
Proof.
  destruct e as [en|en ms| |pg lm| |p settled|c|];
    open_hook; cbn; split_cases; repeat split; congruence.
Qed.

(** *** At most one live signal *)

Lemma nth_set_aborted_same c : forall flags,
  (c < List.length flags)%nat -> nth c (set_aborted c flags) false = true.
Proof.
  induction c as [|c IH]; intros [|b flags] H; cbn in *;
    first [lia | reflexivity | apply IH; lia].
Qed.






(** *** The numbers in [page] and [limit] *)

Lemma sanitize_integer value fallback allowZero :
  valid value = true -> integer fallback ->
  integer (sanitizePositiveInteger value fallback allowZero).
Proof.
  intros V F. unfold sanitizePositiveInteger.
  destruct (Number_isFinite value) eqn:E; cbn [negb]; [|exact F].
  pose proof (Math_floor_integer value V E) as I.
  destruct allowZero;
    [destruct (lt (Math_floor value) (lit 0))
    | destruct (le (Math_floor value) (lit 0))]; assumption.
Qed.

Lemma integer_1 : integer (lit 1).
Proof. repeat split. Qed.

Lemma integer_20 : integer (lit 20).
Proof. repeat split. Qed.

Lemma le_not_NaN x y : le x y = true -> Number_isNaN y = false.
Proof. destruct y; [reflexivity | reflexivity | | reflexivity].
  destruct x; cbv; congruence. Qed.

Lemma one_le_not_le_zero n : le (lit 1) n = true -> le n (lit 0) = false.
Proof.
  unfold le. intros H. destruct (SFleb n (lit 0)) eqn:E; [|reflexivity].
  pose proof (leb_trans _ _ _ H E) as C. vm_compute in C. discriminate.
Qed.

(** A stored page, or limit, passes the sanitizer unchanged. *)
Lemma sanitize_page_fixed n :
  integer n -> le (lit 0) n = true ->
  sanitizePositiveInteger n (lit 1) true = n.
Proof.
  intros (F & _ & Hfl) Hle. unfold sanitizePositiveInteger.
  rewrite F, Hfl. cbn [negb].
  unfold lt. rewrite (ltb_antisym n (lit 0) Hle). reflexivity.
Qed.

Lemma sanitize_limit_fixed n :
  integer n -> le (lit 1) n = true ->
  sanitizePositiveInteger n (lit 20) false = n.
Proof.
  intros (F & _ & Hfl) Hle. unfold sanitizePositiveInteger.
  rewrite F, Hfl. cbn [negb].
  rewrite (one_le_not_le_zero n Hle). reflexivity.
Qed.

Lemma initial_integers opts :
  genuine_options opts -> query_integers (initial opts).
Proof.
  intros [Hp Hl]. split; cbn [initial page limit].
  - apply sanitize_integer; [|exact integer_1].
    destruct (Options.initialPage opts); [exact Hp | reflexivity].
  - apply sanitize_integer; [|exact integer_20].
    destruct (Options.initialLimit opts); [exact Hl | reflexivity].
Qed.

Lemma genuine_nextValue a current :
  genuine_action a -> valid current = true -> valid (nextValue a current) = true.
Proof. destruct a as [v | f]; cbn; auto. Qed.

Lemma event_integers e s :
  genuine_event e -> query_integers s -> query_integers (event e s).
Proof.
  intros He [Hp Hl].
  destruct e as [en|en ms| |pg lm| |p settled|c|];
    try (match goal with
         | |- query_integers (event ?e s) =>
             assert (Hk : forall c, e <> Setter c) by (intros ?; discriminate);
             destruct (event_keeps_query e s Hk) as [Ep El];
             unfold query_integers; rewrite Ep, El; split; assumption
         end).
  destruct c as [a | a]; cbn in He; split;
    cbn [event call setPage setLimit setPageState setLimitState fst page limit];
    try assumption.
  - apply sanitize_integer; [|exact integer_1].
    apply genuine_nextValue; [assumption | apply Hp].
  - apply sanitize_integer; [|exact integer_20].
    apply genuine_nextValue; [assumption | apply Hl].
Qed.

Lemma event_in_range e s : in_range s -> in_range (event e s).
Proof.
  intros Hs.
  destruct e as [en|en ms| |pg lm| |p settled|c|];
    try (match goal with
         | |- in_range (event ?e s) =>
             assert (Hk : forall c, e <> Setter c) by (intros ?; discriminate);
             destruct (event_keeps_query e s Hk) as [Ep El];
             unfold in_range; rewrite Ep, El; exact Hs
         end).
  apply call_in_range, Hs.
Qed.

Lemma run_in_range es : forall s, in_range s -> in_range (run es s).
Proof.
  induction es as [|e es IH]; intros s Hs; [exact Hs|].
  apply IH, event_in_range, Hs.
Qed.

Lemma run_integers es : forall s,
  Forall genuine_event es -> query_integers s -> query_integers (run es s).
Proof.
  induction es as [|e es IH]; intros s Hes Hs; [exact Hs|].
  inversion Hes; subst. apply IH; [assumption|].
  apply event_integers; assumption.
Qed.

(** X1.  When the options and the arguments of the setters are genuine
    numbers, [page] and [limit] hold finite integers at every moment of
    the life of the hook, whatever values and updaters are passed. *)
Theorem query_always_integers (opts : Options.t) (es : list Event) :
  genuine_options opts -> Forall genuine_event es ->
  let s := run es (initial opts) in
  integer (page s) /\ integer (limit s).
Proof.
  intros Ho He. apply run_integers; [assumption|].
  apply initial_integers, Ho.
Qed.

(** X2.  Setting [page] or [limit] to the value it has, directly or by
    the identity updater, leaves the whole state as it is. *)
Theorem set_current_is_identity (opts : Options.t) (es : list Event) :
  genuine_options opts -> Forall genuine_event es ->
  let s := run es (initial opts) in
  fst (setPage (Value (page s)) s) = s /\
  fst (setLimit (Value (limit s)) s) = s /\
  fst (setPage (Updater (fun current => current)) s) = s /\
  fst (setLimit (Updater (fun current => current)) s) = s.
Proof.
  intros Ho He s.
  destruct (run_integers es (initial opts) He (initial_integers opts Ho))
    as [Ip Il].
  destruct (run_in_range es (initial opts) (initial_in_range opts))
    as [Rp Rl].
  fold s in Ip, Il, Rp, Rl.
  pose proof (sanitize_page_fixed (page s) Ip Rp) as Fp.
  pose proof (sanitize_limit_fixed (limit s) Il Rl) as Fl.
  unfold setPage, setLimit, setPageState, setLimitState, nextValue.
  cbn [fst]. rewrite Fp, Fl. destruct s; repeat split.
Qed.

(** *** The two flags *)

(** X4.  However a request settles (response, stale response,
    cancellation or failure), the [finally] block runs: a refresh
    request always turns [isRefreshing] off and leaves [isLoading] alone;
    a load request leaves [isRefreshing] alone and turns [isLoading] off
    exactly when it is still the latest request.  The call never
    throws. *)
Theorem settle_flags (s : State) (p : Pending)
    (settled : completion SensorReadingsResponse) :
  let s' := fst (fetchData_settle p settled s) in
  isRefreshing s' = (if pending_withLoading p then isRefreshing s else false) /\
  isLoading s' =
    (if pending_withLoading p && is_latest s p then false else isLoading s) /\
  exists r, snd (fetchData_settle p settled s) = Normal r.
Proof.
  unfold is_latest. open_hook. cbn.
  destruct settled as [response | e]; cbn; split_cases;
    repeat split; try reflexivity; try congruence; eexists; reflexivity.
Qed.

(** What issuing a request writes. *)
Lemma fetchData_start_writes (req : FetchRequest.t) (s : State) :
  exists s1 p,
    fetchData_start req s = (s1, Normal p) /\
    controller p = List.length (controllers s) /\
    pending_withLoading p = FetchRequest.withLoading req /\
    controllerRef s1 = Some (controller p) /\
    List.length (controllers s1) = S (List.length (controllers s)) /\
    isLoading s1 = (if FetchRequest.withLoading req then true else isLoading s) /\
    isRefreshing s1 =
      (if FetchRequest.withLoading req then isRefreshing s else true) /\
    data s1 = data s /\ meta s1 = meta s /\ error s1 = error s.
Proof.
  open_hook. cbn.
  destruct (controllerRef s); destruct (FetchRequest.withLoading req); cbn;
    do 2 eexists; (split; [reflexivity|]); cbn;
    rewrite ?length_app, ?set_aborted_length; cbn;
    repeat split; try reflexivity; lia.
Qed.

Lemma settle_keeps_controllers s p settled :
  controllerRef (fst (fetchData_settle p settled s)) = controllerRef s /\
  controllers (fst (fetchData_settle p settled s)) = controllers s.
Proof.
  pose proof (event_controllers (Settle p settled) s) as H.
  cbn in H. destruct H; split; assumption.
Qed.

(** X5.  A timer tick that fires while a load request is in flight
    leaves [isLoading] raised for good: once both requests have settled,
    in either order and however they settle, [isLoading] is still true
    and [isRefreshing] is false. *)
Theorem loading_flag_stuck (s : State) (req : FetchRequest.t)
    (page limit : number)
    (settledA settledB : completion SensorReadingsResponse) :
  FetchRequest.withLoading req = true ->
  match fetchData_start req s with
  | (s1, Normal A) =>
      match interval_tick page limit s1 with
      | (s2, Normal B) =>
          let sAB := fst (fetchData_settle B settledB
                            (fst (fetchData_settle A settledA s2))) in
          let sBA := fst (fetchData_settle A settledA
                            (fst (fetchData_settle B settledB s2))) in
          isLoading sAB = true /\ isRefreshing sAB = false /\
          isLoading sBA = true /\ isRefreshing sBA = false
      | (_, Throw _) => False
      end
  | (_, Throw _) => False
  end.
Proof.
  intros Hreq.
  destruct (fetchData_start_writes req s)
    as (s1 & A & -> & HcA & HwA & HrA & HlenA & HloadA & _).
  unfold interval_tick.
  destruct (fetchData_start_writes
              {| FetchRequest.page := page; FetchRequest.limit := limit;
                 FetchRequest.withLoading := false |} s1)
    as (s2 & B & -> & HcB & HwB & HrB & HlenB & HloadB & HrefB & _).
  cbn [FetchRequest.withLoading] in HwB, HloadB, HrefB.
  rewrite Hreq in HwA, HloadA.
  assert (HlatA : forall t, controllerRef t = controllerRef s2 ->
                            is_latest t A = false).
  { intros t Ht. unfold is_latest. rewrite Ht, HrB.
    apply Nat.eqb_neq. lia. }
  cbn zeta.
  destruct (settle_flags s2 A settledA) as (RA & LA & _).
  destruct (settle_flags s2 B settledB) as (RB & LB & _).
  destruct (settle_keeps_controllers s2 A settledA) as (CA & _).
  destruct (settle_keeps_controllers s2 B settledB) as (CB & _).
  destruct (settle_flags (fst (fetchData_settle A settledA s2)) B settledB)
    as (RAB & LAB & _).
  destruct (settle_flags (fst (fetchData_settle B settledB s2)) A settledA)
    as (RBA & LBA & _).
  cbn zeta in *.
  rewrite HwA, HwB in *. cbn [andb] in *.
  rewrite (HlatA s2 eq_refl) in LA.
  rewrite (HlatA _ CB) in LBA.
  repeat split; congruence.
Qed.

(** *** Requests that were aborted *)

(** A response that arrives for an aborted request is dropped. *)
Lemma aborted_response_dropped s p response :
  nth (controller p) (controllers s) false = true ->
  let r := fetchData_settle p (Normal response) s in
  data (fst r) = data s /\ meta (fst r) = meta s /\
  error (fst r) = error s /\ snd r = Normal None.
Proof.
  intros Ha. open_hook. cbn. rewrite Ha. cbn.
  split_cases; repeat split; reflexivity.
Qed.

(** X6.  Disabling the hook (the load effect run with [enabled] false)
    turns both flags off, stops the timer and keeps the data, the
    pagination and the error shown; the request that was in flight is
    aborted, so that a response arriving for it afterwards is dropped:
    [data], [meta] and [error] stay and the call resolves to null. *)
Theorem disable_drops_response (s : State) (p : Pending)
    (response : SensorReadingsResponse) :
  controllerRef s = Some (controller p) ->
  (controller p < List.length (controllers s))%nat ->
  let s1 := fst (load_effect false s) in
  let r := fetchData_settle p (Normal response) s1 in
  (isLoading s1 = false /\ isRefreshing s1 = false /\
   intervalRef s1 = None /\
   data s1 = data s /\ meta s1 = meta s /\ error s1 = error s) /\
  (data (fst r) = data s /\ meta (fst r) = meta s /\
   error (fst r) = error s /\ snd r = Normal None).
Proof.
  intros Hc Hlt s1 r.
  assert (Hs1 : isLoading s1 = false /\ isRefreshing s1 = false /\
                intervalRef s1 = None /\
                data s1 = data s /\ meta s1 = meta s /\ error s1 = error s).
  { unfold s1. open_hook. cbn. rewrite Hc. cbn.
    destruct (intervalRef s) eqn:E; cbn; repeat split;
      first [reflexivity | exact E]. }
  split; [exact Hs1|].
  destruct Hs1 as (_ & _ & _ & Hd & Hm & He).
  pose proof (event_controllers (LoadEffect false) s) as [Hcs _].
  cbn [event] in Hcs. fold s1 in Hcs.
  assert (Ha : nth (controller p) (controllers s1) false = true).
  { rewrite Hcs. unfold aborted_current. rewrite Hc.
    apply nth_set_aborted_same. exact Hlt. }
  destruct (aborted_response_dropped s1 p response Ha) as (D & M & E & R).
  fold r in D, M, E, R. repeat split; congruence.
Qed.

(** X7.  After the unmount the timer is stopped and the request in
    flight is aborted: a response arriving for it is dropped, [data],
    [meta] and [error] stay and the call resolves to null. *)
Theorem unmount_drops_response (s : State) (p : Pending)
    (response : SensorReadingsResponse) :
  controllerRef s = Some (controller p) ->
  (controller p < List.length (controllers s))%nat ->
  let s1 := fst (unmount s) in
  let r := fetchData_settle p (Normal response) s1 in
  intervalRef s1 = None /\
  data (fst r) = data s /\ meta (fst r) = meta s /\
  error (fst r) = error s /\ snd r = Normal None.
Proof.
  intros Hc Hlt s1 r.
  assert (Hs1 : intervalRef s1 = None /\
                data s1 = data s /\ meta s1 = meta s /\ error s1 = error s).
  { unfold s1. open_hook. cbn. rewrite Hc. cbn.
    destruct (intervalRef s) eqn:E; cbn; repeat split;
      first [reflexivity | exact E]. }
  destruct Hs1 as (Hi & Hd & Hm & He). split; [exact Hi|].
  pose proof (event_controllers Unmount s) as [Hcs _].
  cbn [event] in Hcs. fold s1 in Hcs.
  assert (Ha : nth (controller p) (controllers s1) false = true).
  { rewrite Hcs. unfold aborted_current. rewrite Hc.
    apply nth_set_aborted_same. exact Hlt. }
  destruct (aborted_response_dropped s1 p response Ha) as (D & M & E & R).
  fold r in D, M, E, R. repeat split; congruence.
Qed.

(** *** What the hook asks the transport *)

Lemma fetchData_start_params (req : FetchRequest.t) (s : State) :
  exists s1 p,
    fetchData_start req s = (s1, Normal p) /\
    Api.page (params p) = Some (FetchRequest.page req) /\
    Api.limit (params p) = Some (FetchRequest.limit req).
Proof.
  open_hook. cbn.
  destruct (controllerRef s); destruct (FetchRequest.withLoading req); cbn;
    do 2 eexists; repeat split; reflexivity.
Qed.

Lemma query_of_numbers
    (Number_toString : number -> string) (new_URL : string -> URL)
    (env_endpoint : option string) (ps : FetchSensorReadingsParams) pg lm :
  Api.page ps = Some pg -> Api.limit ps = Some lm ->
  Number_isNaN pg = false -> Number_isNaN lm = false ->
  let q := searchParams (request_url Number_toString new_URL env_endpoint ps) in
  searchParams_get "page" q = Some (Number_toString pg) /\
  searchParams_get "limit" q = Some (Number_toString lm).
Proof.
  intros Hp Hl Np Nl. unfold request_url. rewrite Hp, Hl, Np, Nl.
  cbn [negb url_set searchParams]. split.
  - rewrite ApiFacts.get_set_other by reflexivity.
    apply ApiFacts.get_set_same.
  - apply ApiFacts.get_set_same.
Qed.

(** X8.  At every moment of the life of the hook, the request that
    [refetch] or the load effect issues carries both parameters in its
    URL, whatever the endpoint: [page] is [String] of the page of the
    state and [limit] is [String] of its limit. *)
Theorem issued_request_query
    (opts : Options.t) (es : list Event)
    (Number_toString : number -> string) (new_URL : string -> URL)
    (env_endpoint : option string) :
  let s := run es (initial opts) in
  let carries (p : Pending) :=
    let q := searchParams
               (request_url Number_toString new_URL env_endpoint (params p)) in
    searchParams_get "page" q = Some (Number_toString (page s)) /\
    searchParams_get "limit" q = Some (Number_toString (limit s)) in
  match refetch s with
  | (_, Normal p) => carries p
  | (_, Throw _) => False
  end /\
  match load_effect true s with
  | (_, Normal (Some p)) => carries p
  | _ => False
  end.
Proof.
  intros s carries.
  destruct (run_in_range es (initial opts) (initial_in_range opts)) as [Rp Rl].
  fold s in Rp, Rl.
  pose proof (le_not_NaN _ _ Rp) as Np. pose proof (le_not_NaN _ _ Rl) as Nl.
  split.
  - unfold refetch, bind, get_State.
    destruct (fetchData_start_params
                {| FetchRequest.page := page s; FetchRequest.limit := limit s;
                   FetchRequest.withLoading := false |} s)
      as (s1 & p & -> & Hp & Hl).
    apply query_of_numbers; assumption.
  - unfold load_effect. cbn [negb]. unfold bind at 1, get_State.
    unfold bind, ret.
    destruct (fetchData_start_params
                {| FetchRequest.page := page s; FetchRequest.limit := limit s;
                   FetchRequest.withLoading := true |} s)
      as (s1 & p & -> & Hp & Hl).
    apply query_of_numbers; assumption.
Qed.

(** *** The page-size selector *)

(** X9.  The handler of the page-size selector does nothing when the
    choice is not a finite number; otherwise it stores the sanitized
    limit, which is the choice itself when it is an integer of at least
    [1], and goes back to page [1], without touching any other cell. *)
Theorem handleLimitChange_resets_page (s : State) (value : number) :
  let s' := fst (Table.handleLimitChange value s) in
  (Number_isFinite value = false -> s' = s) /\
  (Number_isFinite value = true ->
   page s' = lit 1 /\
   limit s' = sanitizePositiveInteger value (lit 20) false /\
   (integer value -> le (lit 1) value = true -> limit s' = value) /\
   data s' = data s /\ meta s' = meta s /\ error s' = error s /\
   isLoading s' = isLoading s /\ isRefreshing s' = isRefreshing s /\
   controllers s' = controllers s /\ controllerRef s' = controllerRef s /\
   intervalRef s' = intervalRef s).
Proof.
  intros s'. unfold s', Table.handleLimitChange. split; intros F; rewrite F.
  - reflexivity.
  - open_hook. unfold nextValue.
    cbn [negb fst page limit data meta error isLoading isRefreshing
         controllers controllerRef intervalRef].
    split; [reflexivity|]. split; [reflexivity|].
    split; [intros I L; apply sanitize_limit_fixed; assumption|].
    repeat split.
Qed.

End HookLife.


(** ** More on the transport function *)

Module TransportMore.

Import Api Hook.

(** *** The parameters of the query, one by one *)






(** *** What the call resolves with, and what it rejects with *)

(** X11.  A payload the call resolves with comes from a response of
    status 200-299 whose body decoded to an object with a [data] member
    that is an array and a [meta] member that is an object, an array or
    null. *)
Theorem resolved_payload_shape
    (Number_toString : number -> string) (new_URL : string -> URL)
    (env_endpoint : option string) (fetch : Request -> completion Response)
    (ps : FetchSensorReadingsParams) (payload : JSON) :
  fetchSensorReadings Number_toString new_URL env_endpoint fetch ps
  = Normal payload ->
  (exists response,
     fetch (request Number_toString new_URL env_endpoint ps) = Normal response /\
     200 <= status response <= 299 /\
     json response = Normal payload) /\
  exists members items m,
    payload = JObject members /\
    assoc "data" members = Some (JArray items) /\
    assoc "meta" members = Some m /\
    (m = JNull \/ (exists l, m = JArray l) \/ (exists l, m = JObject l)).
Proof.
  unfold fetchSensorReadings.
  destruct (fetch _) as [response | e]; [|discriminate].
  destruct (ok response) eqn:Hok; cbn [negb]; [|discriminate].
  destruct (json response) as [pl | e] eqn:J; [|discriminate].
  destruct (truthy pl) eqn:T; cbn [negb orb]; [|discriminate].
  destruct (Array_isArray (get pl "data")) eqn:A; cbn [negb orb];
    [|discriminate].
  destruct (String.eqb (typeof (get pl "meta")) "object") eqn:O;
    cbn [negb]; [|discriminate].
  intros H. inversion H. subst pl. split.
  - exists response. unfold ok in Hok. apply andb_prop in Hok.
    destruct Hok as [H1 H2]. apply Z.leb_le in H1, H2.
    repeat split; assumption.
  - destruct payload as [| | | |l|members]; try discriminate A.
    cbn [get] in A, O.
    destruct (assoc "data" members) as [[| | | |items|]|] eqn:D;
      try discriminate A.
    destruct (assoc "meta" members) as [m|] eqn:M; [|discriminate O].
    exists members, items, m. repeat split; try assumption.
    destruct m; try discriminate O; eauto.
Qed.

Lemma failure_is_stored s p e :
  cancelled e = false -> error (fst (fetchData_settle p (Throw e) s)) = Some e.
Proof.
  unfold cancelled. intros He.
  unfold fetchData_settle, try_finally, try_catch, bind, await, ret,
    is_current, get_State, setError, setIsLoading, setIsRefreshing.
  cbn. rewrite He. cbn.
  destruct (controllerRef s) as [c|]; [destruct (Nat.eqb c (controller p))|];
    destruct (pending_withLoading p); reflexivity.
Qed.

(** X12.  The errors that the call makes itself, for a status outside
    200-299 and for a body of the wrong shape, are named Error: when the
    server has answered and its body, if read, has decoded, a rejection
    is no cancellation, and the hook stores it in [error], even for a
    request that was superseded. *)
Theorem own_errors_are_stored
    (Number_toString : number -> string) (new_URL : string -> URL)
    (env_endpoint : option string) (fetch : Request -> completion Response)
    (ps : FetchSensorReadingsParams) (response : Response) (e : Error)
    (s : State) (p : Pending) :
  fetch (request Number_toString new_URL env_endpoint ps) = Normal response ->
  (ok response = false \/ exists payload, json response = Normal payload) ->
  fetchSensorReadings Number_toString new_URL env_endpoint fetch ps = Throw e ->
  name e = "Error"%string /\
  cancelled e = false /\
  error (fst (fetchData_settle p (Throw e) s)) = Some e.
Proof.
  intros Hf Hb. unfold fetchSensorReadings. rewrite Hf.
  assert (Hname : forall e', name e' = "Error"%string ->
                  name e' = "Error"%string /\ cancelled e' = false /\
                  error (fst (fetchData_settle p (Throw e') s)) = Some e').
  { intros e' N. assert (C : cancelled e' = false)
      by (unfold cancelled; rewrite N; reflexivity).
    split; [exact N | split; [exact C | apply failure_is_stored, C]]. }
  destruct (ok response) eqn:Hok; cbn [negb].
  - destruct Hb as [Hb | [payload Hj]]; [discriminate|]. rewrite Hj.
    destruct (negb (truthy payload)
              || negb (Array_isArray (get payload "data"))
              || negb (String.eqb (typeof (get payload "meta")) "object"));
      [|discriminate].
    intros H. inversion H. apply Hname. reflexivity.
  - intros H. inversion H. apply Hname. reflexivity.
Qed.

End TransportMore.


(** ** Exact sums, differences and quotients *)

Module ExactFacts.

Import NumberFacts IntegerFacts.

(** A canonical mantissa with its exponent in range is kept as it is. *)
Lemma binary_round_aux_canonical s m e :
  canonical_mantissa JS.prec JS.emax m e = true -> e <= 971 ->
  binary_round_aux JS.prec JS.emax s (Zpos m) e loc_Exact = S754_finite s m e.
Proof.
  intros C He. unfold canonical_mantissa in C. apply Z.eqb_eq in C.
  unfold binary_round_aux, shr_fexp.
  cbn [Zdigits2 shr_record_of_loc]. rewrite C, Z.sub_diag.
  cbn [shr shr_m loc_of_shr_record round_nearest_even Zdigits2 shr_record_of_loc].
  rewrite C, Z.sub_diag. cbn [shr shr_m].
  replace (e <=? JS.emax - JS.prec) with true
    by (symmetry; apply Z.leb_le; unfold JS.prec, JS.emax; lia).
  reflexivity.
Qed.

Lemma div_eucl_exact a b q :
  0 < b -> a = q * b -> Z.div_eucl a b = (q, 0).
Proof.
  intros Hb Ha.
  destruct (Z.div_eucl a b) as [q' r'] eqn:E.
  assert (Hq : q' = a / b) by (unfold Z.div; rewrite E; reflexivity).
  assert (Hr : r' = a mod b) by (unfold Z.modulo; rewrite E; reflexivity).
  rewrite Ha, Z.div_mul in Hq by lia. rewrite Ha, Z.mod_mul in Hr by lia.
  congruence.
Qed.

(** The quotient by [1], mantissa and exponent, for a number above the
    least exponent and for one at the least exponent. *)
Lemma div_core_one_normal m e :
  Zpos (digits2_pos m) = 53 -> -1074 < e ->
  SFdiv_core_binary JS.prec JS.emax (Zpos m) e (Zpos 4503599627370496) (-52)
  = (Zpos m~0, e - 1, loc_Exact).
Proof.
  intros Hd He. unfold SFdiv_core_binary. cbn [Zdigits2]. rewrite Hd.
  change (Zpos (digits2_pos 4503599627370496)) with 53.
  replace (Z.min (fexp JS.prec JS.emax (53 + e - (53 + -52))) (e - -52))
    with (e - 1) by (unfold fexp, emin, JS.prec, JS.emax; lia).
  replace (e - -52 - (e - 1)) with 53 by lia.
  cbn match. rewrite Z.shiftl_mul_pow2 by lia.
  rewrite (div_eucl_exact _ _ (Zpos m~0)); [reflexivity | lia |].
  rewrite Pos2Z.inj_xO. change (2 ^ 53) with (2 * 4503599627370496). lia.
Qed.

Lemma div_core_one_least m :
  SFdiv_core_binary JS.prec JS.emax (Zpos m) (-1074) (Zpos 4503599627370496) (-52)
  = (Zpos m, -1074, loc_Exact) \/ 53 < Zpos (digits2_pos m).
Proof.
  destruct (Z.le_gt_cases (Zpos (digits2_pos m)) 53) as [Hd | Hd];
    [left | right; lia].
  unfold SFdiv_core_binary. cbn [Zdigits2].
  change (Zpos (digits2_pos 4503599627370496)) with 53.
  replace (Z.min (fexp JS.prec JS.emax
                    (Zpos (digits2_pos m) + -1074 - (53 + -52)))
                 (-1074 - -52))
    with (-1074) by (unfold fexp, emin, JS.prec, JS.emax; lia).
  change (-1074 - -52 - -1074) with 52.
  cbn match. rewrite Z.shiftl_mul_pow2 by lia.
  rewrite (div_eucl_exact _ _ (Zpos m)); [reflexivity | lia |].
  change (2 ^ 52) with 4503599627370496. lia.
Qed.

Lemma round_doubled s m e :
  Zpos (digits2_pos m) = 53 -> -1074 < e <= 971 ->
  binary_round_aux JS.prec JS.emax s (Zpos m~0) (e - 1) loc_Exact
  = S754_finite s m e.
Proof.
  intros Hd He. unfold binary_round_aux, shr_fexp.
  cbn [Zdigits2 digits2_pos shr_record_of_loc].
  rewrite Pos2Z.inj_succ, Hd.
  replace (fexp JS.prec JS.emax (Z.succ 53 + (e - 1)) - (e - 1)) with 1
    by (unfold fexp, emin, JS.prec, JS.emax; lia).
  cbn [shr iter_pos shr_1 orb shr_m loc_of_shr_record round_nearest_even
       Zdigits2 shr_record_of_loc].
  rewrite Hd.
  replace (fexp JS.prec JS.emax (53 + (e - 1 + 1)) - (e - 1 + 1)) with 0
    by (unfold fexp, emin, JS.prec, JS.emax; lia).
  cbn [shr shr_m].
  replace (e - 1 + 1 <=? JS.emax - JS.prec) with true
    by (symmetry; apply Z.leb_le; unfold JS.prec, JS.emax; lia).
  f_equal. lia.
Qed.

(** Dividing a genuine finite number by [1] gives it back. *)
Lemma div_one x :
  valid x = true -> Number_isFinite x = true -> div x (lit 1) = x.
Proof.
  destruct x as [s|s| |s m e]; try (cbn; congruence); intros V _.
  - destruct s; reflexivity.
  - unfold valid in V. cbn [valid_binary] in V. unfold bounded in V.
    apply andb_prop in V. destruct V as [C B].
    apply Z.leb_le in B. unfold JS.prec, JS.emax in B.
    pose proof (canonical_digits m e C) as Hd.
    assert (Ce := C). unfold canonical_mantissa in Ce. apply Z.eqb_eq in Ce.
    unfold fexp, emin, JS.prec, JS.emax in Ce.
    change (lit 1) with (S754_finite false 4503599627370496 (-52)).
    unfold div. cbn [SFdiv].
    replace (xorb s false) with s by (destruct s; reflexivity).
    destruct (Z.eq_dec e (-1074)) as [-> | Hne].
    + destruct (div_core_one_least m) as [-> | H]; [|lia].
      apply binary_round_aux_canonical; [exact C | lia].
    + rewrite div_core_one_normal by lia.
      apply round_doubled; lia.
Qed.

(** The difference of a finite number and itself is [+0]; a finite
    number added to [+0] is itself, [-0] apart, which gives [+0]. *)
Lemma sub_self x : Number_isFinite x = true -> sub x x = lit 0.
Proof.
  destruct x as [[]|s| |s m e]; try (cbn; congruence); intros _;
    try reflexivity.
  unfold sub. cbn [SFsub]. rewrite Z.sub_diag. reflexivity.
Qed.

Lemma add_to_zero x :
  Number_isFinite x = true ->
  add (lit 0) x = match x with S754_zero _ => lit 0 | _ => x end.
Proof. destruct x as [[]|s| |s m e]; try (cbn; congruence); reflexivity. Qed.

End ExactFacts.

(** ** More on the statistics *)

Module StatisticsMore.

Import Api Dashboard NumberFacts DashboardFacts.

Lemma above_something x y :
  SFltb x y = true -> SFltb NEGATIVE_INFINITY y = true.
Proof. unfold NEGATIVE_INFINITY. float_order. Qed.

Lemma below_something x y :
  SFltb x y = true -> SFltb x POSITIVE_INFINITY = true.
Proof. unfold POSITIVE_INFINITY. float_order. Qed.

Lemma not_above_bottom x :
  Number_isNaN x = false -> SFltb NEGATIVE_INFINITY x = false ->
  x = NEGATIVE_INFINITY.
Proof.
  unfold NEGATIVE_INFINITY.
  destruct x as [[]|[]| |[] ? ?]; cbv; congruence.
Qed.

Lemma not_below_top x :
  Number_isNaN x = false -> SFltb x POSITIVE_INFINITY = false ->
  x = POSITIVE_INFINITY.
Proof.
  unfold POSITIVE_INFINITY.
  destruct x as [[]|[]| |[] ? ?]; cbv; congruence.
Qed.

Lemma isNaN_false x : Number_isNaN x = false -> x <> S754_nan.
Proof. destruct x; cbn; congruence. Qed.

Section Extremes.

Variable Date_parse : string -> number.

Local Abbreviation time := (Dashboard.time Date_parse).
Local Abbreviation body := (Dashboard.body Date_parse).
Local Abbreviation latest_of := (Dashboard.latest_of Date_parse).
Local Abbreviation earliest_of := (Dashboard.earliest_of Date_parse).

Lemma body_latest_of v seen x :
  latest_of v seen -> latest_of (body v x) (seen ++ [x]).
Proof.
  unfold Dashboard.latest_of, lt, le. intros H.
  destruct (body_time Date_parse v x) as (H1 & H2 & _). cbn zeta in H1, H2.
  rewrite H1, H2. clear H1 H2.
  destruct (Number_isNaN (time x)) eqn:N; cbn [negb andb].
  - destruct (Vars.latest v) as [r|].
    + destruct H as (Hin & Ht & Hn & Hb & Hall).
      repeat split; auto using in_or_app.
      intros y Hy Ny. apply in_app_or in Hy. destruct Hy as [Hy | [<- | []]];
        [auto | congruence].
    + destruct H as (Ht & Hall). split; [exact Ht|].
      intros y Hy Ny. apply in_app_or in Hy. destruct Hy as [Hy | [<- | []]];
        [auto | congruence].
  - unfold gt. destruct (SFltb (Vars.latestTime v) (time x)) eqn:G.
    + repeat split; auto.
      * apply in_or_app. right. left. reflexivity.
      * eapply above_something. exact G.
      * intros y Hy Ny. apply in_app_or in Hy.
        destruct Hy as [Hy | [<- | []]];
          [|apply leb_refl, isNaN_false, N].
        destruct (Vars.latest v) as [r|].
        -- destruct H as (_ & Ht & _ & _ & Hall).
           apply ltb_leb. apply leb_ltb_trans with (time r); [auto|].
           rewrite <- Ht. exact G.
        -- destruct H as (Ht & Hall). rewrite (Hall y Hy Ny).
           apply ltb_leb. eapply above_something. exact G.
    + destruct (Vars.latest v) as [r|].
      * destruct H as (Hin & Ht & Hn & Hb & Hall).
        repeat split; auto using in_or_app.
        intros y Hy Ny. apply in_app_or in Hy.
        destruct Hy as [Hy | [<- | []]]; [auto|].
        apply leb_total; [apply isNaN_false, Hn | apply isNaN_false, N|].
        rewrite <- Ht. exact G.
      * destruct H as (Ht & Hall). split; [exact Ht|].
        intros y Hy Ny. apply in_app_or in Hy.
        destruct Hy as [Hy | [<- | []]]; [auto|].
        apply not_above_bottom; [exact N|]. rewrite <- Ht. exact G.
Qed.

Lemma body_earliest_of v seen x :
  earliest_of v seen -> earliest_of (body v x) (seen ++ [x]).
Proof.
  unfold Dashboard.earliest_of, lt, le. intros H.
  destruct (body_time Date_parse v x) as (_ & _ & H1 & H2). cbn zeta in H1, H2.
  rewrite H1, H2. clear H1 H2.
  destruct (Number_isNaN (time x)) eqn:N; cbn [negb andb].
  - destruct (Vars.earliest v) as [r|].
    + destruct H as (Hin & Ht & Hn & Hb & Hall).
      repeat split; auto using in_or_app.
      intros y Hy Ny. apply in_app_or in Hy. destruct Hy as [Hy | [<- | []]];
        [auto | congruence].
    + destruct H as (Ht & Hall). split; [exact Ht|].
      intros y Hy Ny. apply in_app_or in Hy. destruct Hy as [Hy | [<- | []]];
        [auto | congruence].
  - unfold lt. destruct (SFltb (time x) (Vars.earliestTime v)) eqn:G.
    + repeat split; auto.
      * apply in_or_app. right. left. reflexivity.
      * eapply below_something. exact G.
      * intros y Hy Ny. apply in_app_or in Hy.
        destruct Hy as [Hy | [<- | []]];
          [|apply leb_refl, isNaN_false, N].
        destruct (Vars.earliest v) as [r|].
        -- destruct H as (_ & Ht & _ & _ & Hall).
           apply ltb_leb. apply ltb_leb_trans with (time r); [|auto].
           rewrite <- Ht. exact G.
        -- destruct H as (Ht & Hall). rewrite (Hall y Hy Ny).
           apply ltb_leb. eapply below_something. exact G.
    + destruct (Vars.earliest v) as [r|].
      * destruct H as (Hin & Ht & Hn & Hb & Hall).
        repeat split; auto using in_or_app.
        intros y Hy Ny. apply in_app_or in Hy.
        destruct Hy as [Hy | [<- | []]]; [auto|].
        apply leb_total; [apply isNaN_false, N | apply isNaN_false, Hn|].
        rewrite <- Ht. exact G.
      * destruct H as (Ht & Hall). split; [exact Ht|].
        intros y Hy Ny. apply in_app_or in Hy.
        destruct Hy as [Hy | [<- | []]]; [auto|].
        apply not_below_top; [exact N|]. rewrite <- Ht. exact G.
Qed.

Lemma loop_extremes data : forall v seen,
  latest_of v seen -> earliest_of v seen ->
  latest_of (fold_left body data v) (seen ++ data) /\
  earliest_of (fold_left body data v) (seen ++ data).
Proof.
  induction data as [|x data IH]; intros v seen Hl He.
  - rewrite app_nil_r. split; assumption.
  - cbn [fold_left].
    replace (seen ++ x :: data)%list with ((seen ++ [x]) ++ data)%list
      by (rewrite <- app_assoc; reflexivity).
    apply IH; [apply body_latest_of | apply body_earliest_of]; assumption.
Qed.

Lemma computed_extremes data :
  latest_of (fold_left body data vars0) data /\
  earliest_of (fold_left body data vars0) data.
Proof.
  apply (loop_extremes data vars0 []).
  - split; [reflexivity | intros x []].
  - split; [reflexivity | intros x []].
Qed.

(** X13.  [latest], when it is not null, is a reading of the data whose
    timestamp parses and whose time no parsed time of the data exceeds,
    and [lastUpdated] is that time; [earliest], when it is not null, is
    a reading of the data whose parsed time is exceeded by none. *)
Theorem extremes_are_extreme (data : list SensorReading) (r : SensorReading) :
  let st := computeStatistics Date_parse data in
  (latest st = Some r ->
   In r data /\ Number_isNaN (time r) = false /\
   lastUpdated st = Some (time r) /\
   forall x, In x data -> Number_isNaN (time x) = false ->
             le (time x) (time r) = true) /\
  (earliest st = Some r ->
   In r data /\ Number_isNaN (time r) = false /\
   forall x, In x data -> Number_isNaN (time x) = false ->
             le (time r) (time x) = true).
Proof.
  intros st. destruct (computed_extremes data) as [Hl He].
  unfold Dashboard.latest_of in Hl. unfold Dashboard.earliest_of in He.
  unfold st, computeStatistics. cbn [latest earliest lastUpdated]. split.
  - intros E. rewrite E in Hl. destruct Hl as (Hin & Ht & Hn & Hb & Hall).
    repeat split; auto.
    rewrite Ht. unfold gt. unfold lt in Hb. rewrite Hb. reflexivity.
  - intros E. rewrite E in He. destruct He as (Hin & Ht & Hn & Hb & Hall).
    repeat split; auto.
Qed.

(** X14.  When every timestamp either fails to parse or parses to a
    finite time, the three of [latest], [earliest] and [lastUpdated] are
    null together, exactly when no timestamp parses; otherwise the
    three are set, [lastUpdated] is the time of [latest] and the time of
    [earliest] is at most that of [latest]. *)
Theorem candidates_go_together (data : list SensorReading) :
  let st := computeStatistics Date_parse data in
  Forall (fun x => Number_isNaN (time x) = true \/
                   Number_isFinite (time x) = true) data ->
  (Forall (fun x => Number_isNaN (time x) = true) data ->
   latest st = None /\ earliest st = None /\ lastUpdated st = None) /\
  (Exists (fun x => Number_isNaN (time x) = false) data ->
   exists l e,
     latest st = Some l /\ earliest st = Some e /\
     lastUpdated st = Some (time l) /\
     le (time e) (time l) = true).
Proof.
  intros st Hfin. destruct (computed_extremes data) as [Hl He].
  unfold Dashboard.latest_of in Hl. unfold Dashboard.earliest_of in He.
  rewrite Forall_forall in Hfin.
  assert (Hfinite : forall x, In x data -> Number_isNaN (time x) = false ->
                              Number_isFinite (time x) = true).
  { intros x Hx Nx. destruct (Hfin x Hx) as [H | H]; [congruence | exact H]. }
  unfold st, computeStatistics. cbn [latest earliest lastUpdated]. split.
  - intros Hall. rewrite Forall_forall in Hall.
    destruct (Vars.latest (fold_left body data vars0)) as [l|].
    { destruct Hl as (Hin & _ & Hn & _). rewrite (Hall l Hin) in Hn.
      discriminate. }
    destruct (Vars.earliest (fold_left body data vars0)) as [e|].
    { destruct He as (Hin & _ & Hn & _). rewrite (Hall e Hin) in Hn.
      discriminate. }
    destruct Hl as (Ht & _). rewrite Ht. repeat split.
  - intros Hex. apply Exists_exists in Hex. destruct Hex as (x & Hx & Nx).
    pose proof (Hfinite x Hx Nx) as Fx.
    destruct (Vars.latest (fold_left body data vars0)) as [l|].
    2:{ destruct Hl as (_ & Hall). rewrite (Hall x Hx Nx) in Fx.
        discriminate. }
    destruct (Vars.earliest (fold_left body data vars0)) as [e|].
    2:{ destruct He as (_ & Hall). rewrite (Hall x Hx Nx) in Fx.
        discriminate. }
    destruct Hl as (Hinl & Htl & Hnl & Hbl & Halll).
    destruct He as (Hine & Hte & Hne & Hbe & Halle).
    exists l, e. repeat split.
    + rewrite Htl. unfold gt. unfold lt in Hbl. rewrite Hbl. reflexivity.
    + apply Halll; assumption.
Qed.

(** X15.  The readings that have neither a finite moisture nor a
    timestamp that parses count for nothing: the statistics of the data
    are those of the data without them. *)
Theorem unusable_readings_are_ignored (data : list SensorReading) :
  computeStatistics Date_parse (filter (usable Date_parse) data)
  = computeStatistics Date_parse data.
Proof.
  unfold computeStatistics.
  assert (H : forall v, fold_left body (filter (usable Date_parse) data) v
                        = fold_left body data v).
  { induction data as [|x data IH]; intros v; [reflexivity|].
    cbn [filter fold_left]. unfold usable at 1.
    destruct (Number_isFinite (moisture x)) eqn:F; cbn [orb].
    - cbn [fold_left]. apply IH.
    - destruct (Number_isNaN (time x)) eqn:N; cbn [negb].
      + rewrite IH. f_equal.
        unfold Dashboard.body, fold_timestamp, fold_moisture.
        unfold Dashboard.time in N. rewrite F, N. reflexivity.
      + cbn [fold_left]. apply IH. }
  rewrite H. reflexivity.
Qed.

(** X16.  For a single reading whose moisture is a genuine finite
    number [m] and whose timestamp parses to a finite time, [min],
    [max] and [average] are [m] (the average of [-0] being [+0]),
    [range] and [trend] are [+0], [latest] and [earliest] are the
    reading and [lastUpdated] is its time. *)
Theorem single_reading (r : SensorReading) :
  let st := computeStatistics Date_parse [r] in
  let m := moisture r in
  valid m = true -> Number_isFinite m = true ->
  Number_isFinite (time r) = true ->
  min st = Some m /\ max st = Some m /\
  average st = Some match m with S754_zero _ => lit 0 | _ => m end /\
  range st = Some (lit 0) /\ trend st = Some (lit 0) /\
  latest st = Some r /\ earliest st = Some r /\
  lastUpdated st = Some (time r).
Proof.
  intros st m V F T.
  destruct (body_moisture Date_parse vars0 r) as (Hs & Hc & Hmin & Hmax).
  destruct (body_time Date_parse vars0 r) as (Hl & Hlt & He & Het).
  cbn zeta in Hs, Hc, Hmin, Hmax, Hl, Hlt, He, Het.
  fold m in Hs, Hc, Hmin, Hmax.
  assert (N : Number_isNaN (time r) = false)
    by (destruct (time r); cbn in *; congruence).
  rewrite F in Hs, Hc, Hmin, Hmax.
  cbn [vars0 Vars.sum Vars.count Vars.min Vars.max Vars.latest Vars.earliest
       Vars.latestTime Vars.earliestTime] in Hs, Hc, Hmin, Hmax, Hl, Hlt, He, Het.
  unfold lt, gt in Hmin, Hmax, Hl, Hlt, He, Het.
  rewrite (finite_below_infinity m F) in Hmin.
  rewrite (finite_above_infinity m F) in Hmax.
  rewrite N, (finite_above_infinity _ T) in Hl, Hlt.
  rewrite N, (finite_below_infinity _ T) in He, Het.
  cbn [negb andb] in Hl, Hlt, He, Het.
  unfold st, computeStatistics. cbn [fold_left].
  cbn [min max average range trend latest earliest lastUpdated].
  rewrite Hs, Hc, Hmin, Hmax, Hl, Hlt, He.
  cbn [finite_moisture]. fold m. rewrite F.
  change (0 <? 0 + 1) with true. change (lit (0 + 1)) with (lit 1).
  rewrite (ExactFacts.sub_self m F).
  unfold gt. rewrite (finite_above_infinity _ T).
  repeat split.
  rewrite (ExactFacts.add_to_zero m F). f_equal.
  destruct m as [s| | |s mm e]; try discriminate F.
  - reflexivity.
  - apply ExactFacts.div_one; [exact V | reflexivity].
Qed.

(** X19.  When the moisture of the latest reading is not below that
    of the earliest, both being genuine finite numbers, [trend] is their
    binary64 difference and is not negative. *)
Theorem trend_not_falling (data : list SensorReading) (l e : SensorReading) :
  let st := computeStatistics Date_parse data in
  latest st = Some l -> earliest st = Some e ->
  valid (moisture l) = true -> valid (moisture e) = true ->
  Number_isFinite (moisture l) = true -> Number_isFinite (moisture e) = true ->
  le (moisture e) (moisture l) = true ->
  trend st = Some (sub (moisture l) (moisture e)) /\
  le (lit 0) (sub (moisture l) (moisture e)) = true /\
  lt (sub (moisture l) (moisture e)) (lit 0) = false.
Proof.
  intros st Hl He Vl Ve Fl Fe Hle.
  unfold st, computeStatistics in *. cbn [latest earliest trend] in *.
  rewrite Hl, He. cbn [finite_moisture]. rewrite Fl, Fe.
  pose proof (sub_nonneg _ _ Vl Ve Fl Fe Hle) as Hn.
  split; [reflexivity | split; [exact Hn|]].
  apply ltb_antisym. exact Hn.
Qed.

End Extremes.

(** X17.  The page shown is always above [0], whatever the pagination
    received says.  Without pagination, at every moment of the life of a
    hook given genuine numbers, it is the page of the hook when that is
    at least [1], and [1] for the page [0]: it is never below [1]. *)
Theorem displayPage_positive
    (meta : option PaginationMeta) (page : number)
    (opts : Hook.Options.t) (es : list Hook.Event) :
  lt (lit 0) (displayPage meta page) = true /\
  (Hook.genuine_options opts -> Forall Hook.genuine_event es ->
   let s := Hook.run es (Hook.initial opts) in
   le (lit 1) (displayPage None (Hook.page s)) = true /\
   displayPage None (Hook.page s) =
     if gt (Hook.page s) (lit 0) then Hook.page s else lit 1).
Proof.
  split.
  - unfold displayPage. cbn zeta.
    destruct (gt (currentPage meta page) (lit 0)) eqn:G;
      [exact G | reflexivity].
  - intros Ho He s.
    destruct (HookLife.run_integers es (Hook.initial opts) He
                (HookLife.initial_integers opts Ho)) as [(F & _ & Hfl) _].
    fold s in F, Hfl. split; [|reflexivity].
    unfold displayPage, currentPage. cbn zeta.
    destruct (gt (Hook.page s) (lit 0)) eqn:G; [|reflexivity].
    rewrite <- Hfl. apply Math_floor_ge_one; [exact F|].
    rewrite Hfl. unfold gt, lt in G. unfold le.
    destruct (SFleb (Hook.page s) (lit 0)) eqn:L; [|reflexivity].
    rewrite (ltb_antisym _ _ L) in G. discriminate.
Qed.

End StatisticsMore.


(** ** The numbers arithmetic produces are genuine *)

Module RoundingFacts.

Import NumberFacts IntegerFacts.

Lemma digits_unique p k :
  2 ^ (k - 1) <= Zpos p < 2 ^ k -> Zpos (digits2_pos p) = k.
Proof.
  intros [Hlo Hhi].
  pose proof (digits2_pos_bounds p) as [Dlo Dhi].
  assert (Hk : 0 < k).
  { destruct (Z.le_gt_cases k 0) as [H | H]; [|exact H].
    assert (2 ^ k <= 2 ^ 0) by (apply Z.pow_le_mono_r; lia).
    change (2 ^ 0) with 1 in *. lia. }
  destruct (Z.lt_trichotomy (Zpos (digits2_pos p)) k) as [H | [H | H]];
    [exfalso | exact H | exfalso].
  - assert (2 ^ Zpos (digits2_pos p) <= 2 ^ (k - 1))
      by (apply Z.pow_le_mono_r; lia). lia.
  - assert (2 ^ k <= 2 ^ (Zpos (digits2_pos p) - 1))
      by (apply Z.pow_le_mono_r; lia). lia.
Qed.

Lemma Zdigits2_nonneg m : 0 <= m -> 0 <= Zdigits2 m.
Proof. destruct m; cbn; lia. Qed.

Lemma Zdigits2_bounds_full m :
  0 < m -> 2 ^ (Zdigits2 m - 1) <= m < 2 ^ Zdigits2 m.
Proof.
  destruct m as [|p|p]; try lia. intros _. apply digits2_pos_bounds.
Qed.

Lemma Zdigits2_unique m k :
  2 ^ (k - 1) <= m < 2 ^ k -> 0 < m -> Zdigits2 m = k.
Proof.
  destruct m as [|p|p]; try lia. intros H _. apply digits_unique, H.
Qed.

(** Dropping [n] low bits of a number of more than [n] bits leaves the
    other bits; dropping them all leaves nothing. *)
Lemma Zdigits2_shift m n :
  0 < m -> 0 <= n < Zdigits2 m ->
  0 < m / 2 ^ n /\ Zdigits2 (m / 2 ^ n) = Zdigits2 m - n.
Proof.
  intros Hm Hn.
  pose proof (Zdigits2_bounds_full m Hm) as [Hlo Hhi].
  assert (Hp : 0 < 2 ^ n) by (apply Z.pow_pos_nonneg; lia).
  assert (Hlo' : 2 ^ (Zdigits2 m - n - 1) <= m / 2 ^ n).
  { apply Z.div_le_lower_bound; [exact Hp|].
    rewrite <- Z.pow_add_r by lia.
    replace (n + (Zdigits2 m - n - 1)) with (Zdigits2 m - 1) by lia.
    exact Hlo. }
  assert (Hhi' : m / 2 ^ n < 2 ^ (Zdigits2 m - n)).
  { apply Z.div_lt_upper_bound; [exact Hp|].
    rewrite <- Z.pow_add_r by lia.
    replace (n + (Zdigits2 m - n)) with (Zdigits2 m) by lia.
    exact Hhi. }
  assert (Hpos : 0 < m / 2 ^ n).
  { apply Z.lt_le_trans with (2 := Hlo'). apply Z.pow_pos_nonneg; lia. }
  split; [exact Hpos|].
  apply Zdigits2_unique; [split; assumption | exact Hpos].
Qed.

Lemma shift_out m n :
  0 <= m -> Zdigits2 m <= n -> m / 2 ^ n = 0.
Proof.
  intros Hm Hn. apply Z.div_small. split; [exact Hm|].
  destruct (Z.eq_dec m 0) as [-> | Hne].
  - apply Z.pow_pos_nonneg; [lia|]. cbn in Hn. lia.
  - pose proof (Zdigits2_bounds_full m ltac:(lia)) as [_ Hhi].
    apply Z.lt_le_trans with (1 := Hhi).
    apply Z.pow_le_mono_r; lia.
Qed.

(** Adding one keeps the number of bits, unless a power of two is
    reached. *)
Lemma Zdigits2_succ m :
  0 < m ->
  Zdigits2 (m + 1) = Zdigits2 m \/
  (m + 1 = 2 ^ Zdigits2 m /\ Zdigits2 (m + 1) = Zdigits2 m + 1).
Proof.
  intros Hm.
  pose proof (Zdigits2_bounds_full m Hm) as [Hlo Hhi].
  pose proof (Zdigits2_nonneg m ltac:(lia)) as Hd.
  assert (Hd1 : 0 < Zdigits2 m) by (destruct m; cbn in *; lia).
  destruct (Z.eq_dec (m + 1) (2 ^ Zdigits2 m)) as [E | Hne].
  - right. split; [exact E|].
    apply Zdigits2_unique; [|lia].
    replace (Zdigits2 m + 1 - 1) with (Zdigits2 m) by lia.
    split; [lia|]. rewrite Z.pow_add_r by lia. change (2 ^ 1) with 2. lia.
  - left. apply Zdigits2_unique; [|lia]. split; lia.
Qed.

Lemma Zdigits2_half_pow k :
  0 < k -> 2 ^ k / 2 ^ 1 = 2 ^ (k - 1) /\ Zdigits2 (2 ^ (k - 1)) = k.
Proof.
  intros Hk. split.
  - replace k with (k - 1 + 1) at 1 by lia.
    rewrite Z.pow_add_r by lia. apply Z.div_mul. discriminate.
  - assert (0 < 2 ^ (k - 1)) by (apply Z.pow_pos_nonneg; lia).
    apply Zdigits2_unique; [|assumption].
    split; [lia|].
    replace k with (k - 1 + 1) at 2 by lia.
    rewrite Z.pow_add_r by lia. change (2 ^ 1) with 2. lia.
Qed.

(** *** Rounding gives genuine numbers *)

Local Abbreviation fx x := (fexp JS.prec JS.emax x).

Lemma fx_eq x : fx x = Z.max (x - 53) (-1074).
Proof. reflexivity. Qed.

Lemma pow_digits k : 0 <= k -> Zdigits2 (2 ^ k) = k + 1.
Proof.
  intros Hk. destruct (Zdigits2_half_pow (k + 1) ltac:(lia)) as [_ H].
  replace (k + 1 - 1) with k in H by lia. exact H.
Qed.

(** The second shift of the rounding: a mantissa at its proper exponent,
    or one bit above it, ends at its proper exponent. *)
Lemma settle_exponent m1 e' :
  0 < m1 ->
  fx (Zdigits2 m1 + e') = e' \/
  (exists k, 0 < k /\ m1 = 2 ^ k /\ fx (k + e') = e') ->
  let n2 := Z.max 0 (fx (Zdigits2 m1 + e') - e') in
  0 < m1 / 2 ^ n2 /\
  fx (Zdigits2 (m1 / 2 ^ n2) + (e' + n2)) = e' + n2.
Proof.
  intros Hm1 [Hc | (k & Hk & -> & Hc)]; cbn zeta.
  - rewrite Hc, Z.sub_diag. cbn [Z.max]. rewrite Z.pow_0_r, Z.div_1_r, Z.add_0_r.
    split; assumption.
  - rewrite (pow_digits k) by lia. rewrite fx_eq in *.
    destruct (Z.lt_ge_cases (k + e' - 53) (-1074)) as [Hs | Hs].
    + replace (Z.max 0 (Z.max (k + 1 + e' - 53) (-1074) - e')) with 0 by lia.
      rewrite Z.pow_0_r, Z.div_1_r, Z.add_0_r, (pow_digits k) by lia.
      split; [assumption | rewrite ?fx_eq; lia].
    + replace (Z.max 0 (Z.max (k + 1 + e' - 53) (-1074) - e')) with 1 by lia.
      destruct (Zdigits2_half_pow k Hk) as [-> Hh]. rewrite Hh.
      split; [apply Z.pow_pos_nonneg; lia | rewrite ?fx_eq; lia].
Qed.

Lemma valid_finite s p e :
  fx (Zdigits2 (Zpos p) + e) = e -> e <= 971 ->
  valid (S754_finite s p e) = true.
Proof.
  intros Hc He. unfold valid, valid_binary, bounded, canonical_mantissa.
  cbn [Zdigits2] in Hc. rewrite Hc, Z.eqb_refl.
  apply Z.leb_le. unfold JS.prec, JS.emax. lia.
Qed.

(** Rounding a mantissa that is not negative, given at an exponent not
    above its proper one, yields a genuine number, whose exponent is the
    proper one of the value rounded at least. *)
Lemma binary_round_aux_valid s m e l :
  0 <= m -> e <= fx (Zdigits2 m + e) ->
  valid (binary_round_aux JS.prec JS.emax s m e l) = true /\
  forall m' e0, binary_round_aux JS.prec JS.emax s m e l = S754_finite s m' e0 ->
                fx (Zdigits2 m + e) <= e0.
Proof.
  intros Hm Hpre. unfold binary_round_aux.
  pose proof (shr_fexp_spec JS.prec JS.emax m e l Hm) as H1. cbn zeta in H1.
  replace (Z.max 0 (fx (Zdigits2 m + e) - e))
    with (fx (Zdigits2 m + e) - e) in H1 by lia.
  destruct (shr_fexp JS.prec JS.emax m e l) as [mrs' e'] eqn:E1.
  cbn [fst snd] in H1. destruct H1 as [H1m H1e].
  assert (He' : e' = fx (Zdigits2 m + e)) by lia. clear H1e.
  pose proof (Zdigits2_nonneg m Hm) as Hd0.
  assert (A : (shr_m mrs' = 0 /\ e' = -1074) \/
              (0 < shr_m mrs' /\ fx (Zdigits2 (shr_m mrs') + e') = e')).
  { destruct (Z.lt_ge_cases (fx (Zdigits2 m + e) - e) (Zdigits2 m)) as [Hn | Hn].
    - right. assert (Hmpos : 0 < m) by (destruct m; cbn in *; lia).
      destruct (Zdigits2_shift m (fx (Zdigits2 m + e) - e) Hmpos ltac:(lia))
        as [Hp Hdig].
      rewrite H1m. split; [exact Hp|]. rewrite Hdig, He'.
      f_equal. lia.
    - left. split.
      + rewrite H1m. apply shift_out; [exact Hm | lia].
      + rewrite He'. rewrite fx_eq in *. lia. }
  pose proof (round_nearest_even_bounds (shr_m mrs') (loc_of_shr_record mrs')) as Hr.
  set (m1 := round_nearest_even (shr_m mrs') (loc_of_shr_record mrs')) in *.
  clearbody m1. assert (Hm1 : 0 <= m1) by lia.
  pose proof (shr_fexp_spec JS.prec JS.emax m1 e' loc_Exact Hm1) as H2.
  cbn zeta in H2.
  destruct (shr_fexp JS.prec JS.emax m1 e' loc_Exact) as [mrs'' e''] eqn:E2.
  cbn [fst snd] in H2. destruct H2 as [H2m H2e].
  assert (Final : shr_m mrs'' = 0 \/
                  (0 < shr_m mrs'' /\ fx (Zdigits2 (shr_m mrs'') + e'') = e'')).
  { destruct (Z.eq_dec m1 0) as [Z1 | N1].
    - left. rewrite H2m, Z1. apply Z.div_0_l.
      apply Z.pow_nonzero; lia.
    - right. rewrite H2m, H2e.
      apply settle_exponent; [lia|].
      destruct A as [[A0 Ae] | [Ap Ac]].
      + left. assert (E : m1 = 1) by lia. rewrite E, Ae. reflexivity.
      + destruct (Z.eq_dec m1 (shr_m mrs')) as [Same | Diff].
        * left. rewrite Same. exact Ac.
        * assert (Hs : m1 = shr_m mrs' + 1) by lia.
          destruct (Zdigits2_succ (shr_m mrs') Ap) as [Hk | [Hpow Hk]].
          -- left. rewrite Hs, Hk. exact Ac.
          -- right. exists (Zdigits2 (shr_m mrs')).
             split; [destruct (shr_m mrs'); cbn in *; lia|].
             split; [rewrite Hs; exact Hpow | exact Ac]. }
  destruct (shr_m mrs'') as [|p|p] eqn:Em.
  - split; [reflexivity | discriminate].
  - destruct (Z.leb_spec e'' (JS.emax - JS.prec)) as [Hb | Hb];
      [|split; [reflexivity | discriminate]].
    split.
    + apply valid_finite; [|unfold JS.prec, JS.emax in Hb; lia].
      destruct Final as [F | [_ F]]; [discriminate | exact F].
    + intros m' e0 E. injection E as _ <-. lia.
  - destruct Final as [F | [F _]]; [discriminate | lia].
Qed.

(** A mantissa and an exponent of any size round to a genuine number. *)
Lemma binary_round_valid s m e :
  valid (binary_round JS.prec JS.emax s m e) = true /\
  forall m' e0, binary_round JS.prec JS.emax s m e = S754_finite s m' e0 ->
                fx (Zpos (digits2_pos m) + e) <= e0.
Proof.
  unfold binary_round.
  pose proof (shl_align_spec m e (fx (Zpos (digits2_pos m) + e))) as [Hm He].
  assert (Hd : Zpos (digits2_pos (fst (shl_align m e (fx (Zpos (digits2_pos m) + e)))))
               = Zpos (digits2_pos m) + Z.max 0 (e - fx (Zpos (digits2_pos m) + e))).
  { unfold shl_align.
    destruct (fx (Zpos (digits2_pos m) + e) - e) as [|k|k] eqn:E; cbn [fst]; try lia.
    rewrite digits2_pos_iter_xO. lia. }
  destruct (shl_align m e (fx (Zpos (digits2_pos m) + e))) as [mz ez].
  cbn [fst snd] in *. clear Hm.
  assert (Hfx : fx (Zdigits2 (Zpos mz) + ez) = fx (Zpos (digits2_pos m) + e)).
  { cbn [Zdigits2]. rewrite Hd, He.
    destruct (Z.le_gt_cases e (fx (Zpos (digits2_pos m) + e))) as [H | H];
      f_equal; lia. }
  destruct (binary_round_aux_valid s (Zpos mz) ez loc_Exact) as [V B]; [lia | lia |].
  split; [exact V|]. intros m' e0 E. rewrite <- Hfx. exact (B m' e0 E).
Qed.

Lemma binary_normalize_valid m e szero :
  valid (binary_normalize JS.prec JS.emax m e szero) = true.
Proof.
  destruct m as [|p|p]; cbn [binary_normalize];
    [reflexivity | apply binary_round_valid | apply binary_round_valid].
Qed.

(** Sums and differences of genuine numbers are genuine. *)
Lemma add_valid x y : valid x = true -> valid y = true -> valid (add x y) = true.
Proof.
  intros Vx Vy. unfold add.
  destruct x as [sx|sx| |sx mx ex], y as [sy|sy| |sy my ey]; cbn [SFadd];
    try assumption; try reflexivity;
    try (destruct sx, sy; first [assumption | reflexivity | exact Vy]).
  apply binary_normalize_valid.
Qed.

Lemma sub_valid x y : valid x = true -> valid y = true -> valid (sub x y) = true.
Proof.
  intros Vx Vy. unfold sub.
  destruct x as [sx|sx| |sx mx ex], y as [sy|sy| |sy my ey]; cbn [SFsub];
    try assumption; try reflexivity;
    try (destruct sx, sy; first [assumption | reflexivity | exact Vy]).
  apply binary_normalize_valid.
Qed.

(** *** At least one *)

(** A genuine finite number not below [1] has a floor not below [1]. *)
Lemma valid_floor_ge_one x :
  valid x = true -> Number_isFinite x = true ->
  le (lit 1) x = true -> le (lit 1) (Math_floor x) = true.
Proof.
  unfold le. change (lit 1) with (S754_finite false 4503599627370496 (-52)).
  destruct x as [s|s| |s m e]; try (cbn; congruence); intros V _ L.
  destruct s; [cbn in L; congruence|].
  cbn [Math_floor]. destruct (Z.leb_spec 0 e) as [He | He]; [exact L|].
  unfold valid in V. cbn [valid_binary] in V. unfold bounded in V.
  apply andb_prop in V. destruct V as [C _].
  destruct (canonical_bounds JS.prec JS.emax m e C) as (_ & _ & Hlo).
  assert (He52 : -52 <= e).
  { unfold SFleb, SFcompare in L.
    destruct (Z.compare_spec (-52) e); first [lia | discriminate]. }
  specialize (Hlo ltac:(unfold emin, JS.prec, JS.emax; lia)).
  change (2 ^ (JS.prec - 1)) with (2 ^ 52) in Hlo.
  cbn [cond_Zopp]. rewrite Z.shiftr_div_pow2 by lia.
  assert (Hq : 1 <= Zpos m / 2 ^ (- e)).
  { apply Z.div_le_lower_bound; [apply Z.pow_pos_nonneg; lia|].
    rewrite Z.mul_1_r. apply Z.le_trans with (2 := Hlo).
    apply Z.pow_le_mono_r; lia. }
  destruct (Zpos m / 2 ^ (- e)) as [|p|p]; try lia.
  cbn [binary_normalize]. apply round_pos_ge_one.
Qed.

Lemma ge_one_not_negative x :
  le (lit 1) x = true -> lt x (lit 0) = false.
Proof.
  change (lit 1) with (S754_finite false 4503599627370496 (-52)).
  change (lit 0) with (S754_zero false).
  unfold le, lt. destruct x as [[]|[]| |[] m e]; cbn; congruence.
Qed.

(** One more than a genuine number that is not negative is not below
    [1]. *)
Lemma add_one_ge_one c :
  valid c = true -> le (lit 0) c = true -> le (lit 1) (add c (lit 1)) = true.
Proof.
  unfold le, add. change (lit 0) with (S754_zero false).
  change (lit 1) with (S754_finite false 4503599627370496 (-52)).
  destruct c as [s|s| |s m e]; intros V L.
  - reflexivity.
  - destruct s; [cbv in L; congruence | reflexivity].
  - cbv in L; congruence.
  - destruct s; [cbn in L; congruence|]. clear L.
    unfold valid in V. cbn [valid_binary] in V. unfold bounded in V.
    apply andb_prop in V. destruct V as [C _].
    destruct (canonical_bounds JS.prec JS.emax m e C) as (Hmin & _ & _).
    unfold emin, JS.prec, JS.emax in Hmin.
    cbn [SFadd cond_Zopp].
    set (ez := Z.min e (-52)).
    destruct (shl_align_spec m e ez) as [Ha _].
    destruct (shl_align_spec 4503599627370496 (-52) ez) as [Hb _].
    set (a := fst (shl_align m e ez)) in *.
    set (b := fst (shl_align 4503599627370496 (-52) ez)) in *.
    change (Zpos a + Zpos b) with (Zpos (a + b)).
    cbn [binary_normalize].
    assert (Hdb : 1 - ez <= Zpos (digits2_pos (a + b))).
    { apply Z.le_trans with (Zpos (digits2_pos b)).
      - change (Zpos (digits2_pos b)) with (Zdigits2 (Zpos b)). rewrite Hb.
        replace (Z.max 0 (-52 - ez)) with (-52 - ez) by lia.
        change 4503599627370496 with (2 ^ 52).
        rewrite <- Z.pow_add_r by lia. rewrite pow_digits by lia. lia.
      - apply digits2_pos_le. lia. }
    destruct (binary_round_valid false (a + b)%positive ez) as [V B].
    destruct (binary_round_pos JS.prec JS.emax prec_pos false (a + b)%positive ez)
      as [E | (m' & e' & E & _)].
    + unfold emin, JS.prec, JS.emax. lia.
    + rewrite E. reflexivity.
    + specialize (B m' e' E). rewrite E in V |- *.
      rewrite fx_eq in B.
      unfold valid in V. cbn [valid_binary] in V. unfold bounded in V.
      apply andb_prop in V. destruct V as [C' _].
      destruct (canonical_bounds JS.prec JS.emax m' e' C') as (_ & _ & Hlo).
      unfold SFleb, SFcompare.
      destruct (Z.compare_spec (-52) e') as [He | He | He];
        [|reflexivity | lia].
      specialize (Hlo ltac:(unfold emin, JS.prec, JS.emax; lia)).
      change (2 ^ (JS.prec - 1)) with 4503599627370496 in Hlo.
      change (Pos.compare_cont Eq 4503599627370496 m')
        with (Pos.compare 4503599627370496 m').
      rewrite Pos2Z.inj_compare.
      destruct (Z.compare_spec 4503599627370496 (Zpos m')); first [reflexivity | lia].
Qed.

(** *** [Math.max], [Math.ceil] and the quotient *)

Lemma Math_max_valid x y :
  valid x = true -> valid y = true -> valid (Math_max x y) = true.
Proof.
  intros Vx Vy. unfold Math_max.
  destruct (Number_isNaN x || Number_isNaN y); [reflexivity|].
  destruct x as [[]| | |], y as [[]| | |]; try destruct (lt _ _); assumption.
Qed.

(** [Math.max(1, y)] is NaN when [y] is, and otherwise [1], or [y] when
    [y] is above [1]. *)
Lemma Math_max_one_cases y :
  (Number_isNaN y = true /\ Math_max (lit 1) y = Number_NaN) \/
  (Number_isNaN y = false /\
   (Math_max (lit 1) y = lit 1 \/
    (Math_max (lit 1) y = y /\ lt (lit 1) y = true))).
Proof.
  unfold Math_max. change (Number_isNaN (lit 1)) with false. cbn [orb].
  destruct (Number_isNaN y); [left; split; reflexivity|].
  right. split; [reflexivity|].
  change (lit 1) with (S754_finite false 4503599627370496 (-52)).
  destruct (lt (S754_finite false 4503599627370496 (-52)) y) eqn:E.
  - right. split; reflexivity.
  - left. reflexivity.
Qed.

Lemma Math_max_one_ge y :
  Number_isNaN y = false -> le (lit 1) (Math_max (lit 1) y) = true.
Proof.
  intros N. destruct (Math_max_one_cases y) as [[N' _] | [_ [-> | [-> L]]]].
  - congruence.
  - reflexivity.
  - apply ltb_leb, L.
Qed.

(** A number above [0] is a positive finite number or the infinity. *)
Lemma gt_zero_shape x :
  gt x (lit 0) = true ->
  x = S754_infinity false \/ exists m e, x = S754_finite false m e.
Proof.
  unfold gt. change (lit 0) with (S754_zero false).
  destruct x as [s|[]| |[] m e]; cbn; try congruence; eauto.
Qed.

(** [Math.max(limit, 1)] for a finite [limit] is a positive finite
    number. *)
Lemma Math_max_limit_one limit :
  Number_isFinite limit = true ->
  exists m e, Math_max limit (lit 1) = S754_finite false m e.
Proof.
  intros F. unfold Math_max.
  change (lit 1) with (S754_finite false 4503599627370496 (-52)).
  destruct limit as [s|s| |s m e]; try discriminate; cbn [Number_isNaN orb].
  - destruct s; cbn; eauto.
  - destruct (lt (S754_finite s m e) (S754_finite false 4503599627370496 (-52)))
      eqn:E; [eauto|].
    destruct s; [cbn in E; discriminate | eauto].
Qed.

Lemma div_core_nonneg m1 e1 m2 e2 :
  0 <= fst (fst (SFdiv_core_binary JS.prec JS.emax (Zpos m1) e1 (Zpos m2) e2)).
Proof.
  unfold SFdiv_core_binary.
  set (e' := Z.min _ _). set (s := e1 - e2 - e').
  set (m' := match s with Z0 => _ | Zpos _ => _ | Zneg _ => _ end).
  assert (Hm' : 0 <= m').
  { unfold m'. destruct s; try lia. apply Z.shiftl_nonneg. lia. }
  destruct (Z.div_eucl m' (Zpos m2)) as [q r] eqn:E. cbn [fst].
  assert (Hq : q = m' / Zpos m2) by (unfold Z.div; rewrite E; reflexivity).
  rewrite Hq. apply Z.div_pos; lia.
Qed.

(** The quotient of a number above [0] by a positive finite number is
    not NaN. *)
Lemma div_positive_not_NaN n m e :
  gt n (lit 0) = true ->
  Number_isNaN (div n (S754_finite false m e)) = false.
Proof.
  intros G. destruct (gt_zero_shape n G) as [-> | (mn & en & ->)];
    [reflexivity|].
  unfold div. cbn [SFdiv xorb].
  pose proof (div_core_nonneg mn en m e) as Hq.
  destruct (SFdiv_core_binary JS.prec JS.emax (Zpos mn) en (Zpos m) e)
    as [[mz ez] lz]. cbn [fst] in Hq.
  destruct (binary_round_aux_cases JS.prec JS.emax false mz ez lz Hq)
    as [-> | [-> | (m' & e' & -> & _)]]; reflexivity.
Qed.

Lemma Math_ceil_not_NaN x :
  Number_isNaN x = false -> Number_isNaN (Math_ceil x) = false.
Proof.
  intros N. unfold Math_ceil.
  destruct x as [s|s| |s m e]; try discriminate; try reflexivity.
  pose proof (Math_floor_not_NaN (SFopp (S754_finite s m e)) eq_refl) as H.
  destruct (Math_floor (SFopp (S754_finite s m e))); first [reflexivity | congruence].
Qed.

End RoundingFacts.

(** ** The pager of the table *)

Module PagerFacts.

Import Api Hook NumberFacts IntegerFacts HookFacts HookLife RoundingFacts.

(** What [setPage] makes of a genuine number that is NaN or not below
    [1]: a number not below [1]. *)
Lemma sanitize_page_ge_one v :
  valid v = true -> v = Number_NaN \/ le (lit 1) v = true ->
  le (lit 1) (sanitizePositiveInteger v (lit 1) true) = true.
Proof.
  intros V H. unfold sanitizePositiveInteger.
  destruct (Number_isFinite v) eqn:F; cbn [negb]; [|reflexivity].
  destruct H as [-> | L]; [discriminate|].
  pose proof (valid_floor_ge_one v V F L) as G.
  rewrite (ge_one_not_negative _ G). exact G.
Qed.

(** X20.  The Previous button does nothing in a render that shows page
    [1] or less.  Otherwise, whatever genuine number [page] holds when
    the update runs, [page] becomes a finite integer that is at least
    [1] (although [setPage] itself accepts [0]), and no other cell
    changes. *)
Theorem handlePrevious_page_at_least_one
    (s : State) (meta : option PaginationMeta) (shown : number) :
  valid (page s) = true ->
  let s' := fst (Table.handlePrevious meta shown s) in
  (Table.canPreviousPage meta shown = false -> s' = s) /\
  (Table.canPreviousPage meta shown = true ->
   integer (page s') /\ le (lit 1) (page s') = true /\
   limit s' = limit s /\ data s' = data s /\ Hook.meta s' = Hook.meta s /\
   error s' = error s /\ isLoading s' = isLoading s /\
   isRefreshing s' = isRefreshing s /\ controllers s' = controllers s /\
   controllerRef s' = controllerRef s /\ intervalRef s' = intervalRef s).
Proof.
  intros V s'. unfold s', Table.handlePrevious. split; intros C; rewrite C.
  - reflexivity.
  - unfold setPage, setPageState, nextValue.
    cbn [fst page limit data Hook.meta error isLoading isRefreshing
         controllers controllerRef intervalRef].
    pose proof (sub_valid (page s) (lit 1) V eq_refl) as Vd.
    pose proof (Math_max_valid (lit 1) _ eq_refl Vd) as Vm.
    split; [apply sanitize_integer; [exact Vm | exact integer_1]|].
    split; [|repeat split].
    apply sanitize_page_ge_one; [exact Vm|].
    destruct (Math_max_one_cases (sub (page s) (lit 1)))
      as [[_ ->] | [_ [-> | [-> L]]]].
    + left; reflexivity.
    + right; reflexivity.
    + right. apply ltb_leb, L.
Qed.

(** X21.  The Next button does nothing in a render where there is no
    next page.  Otherwise, when [page] holds a genuine number that is
    not negative, as it always does, [page] becomes a finite integer
    that is at least [1], and no other cell changes. *)
Theorem handleNext_page_at_least_one
    (s : State) (rows : list SensorReading) (meta : option PaginationMeta)
    (shown size : number) :
  valid (page s) = true -> le (lit 0) (page s) = true ->
  let s' := fst (Table.handleNext rows meta shown size s) in
  (Table.canNextPage rows meta shown size = false -> s' = s) /\
  (Table.canNextPage rows meta shown size = true ->
   integer (page s') /\ le (lit 1) (page s') = true /\
   limit s' = limit s /\ data s' = data s /\ Hook.meta s' = Hook.meta s /\
   error s' = error s /\ isLoading s' = isLoading s /\
   isRefreshing s' = isRefreshing s /\ controllers s' = controllers s /\
   controllerRef s' = controllerRef s /\ intervalRef s' = intervalRef s).
Proof.
  intros V L s'. unfold s', Table.handleNext. split; intros C; rewrite C.
  - reflexivity.
  - unfold setPage, setPageState, nextValue.
    cbn [fst page limit data Hook.meta error isLoading isRefreshing
         controllers controllerRef intervalRef].
    pose proof (add_valid (page s) (lit 1) V eq_refl) as Va.
    split; [apply sanitize_integer; [exact Va | exact integer_1]|].
    split; [|repeat split].
    apply sanitize_page_ge_one; [exact Va|].
    right. apply add_one_ge_one; assumption.
Qed.

(** X22.  When the pagination received gives no number of pages above
    [0], the number of pages the table shows is at least [1], whatever
    the page size is.  With a finite page size, which is what the hook
    provides, the estimate itself is at least [1] (so it is not NaN) and
    is what the table shows; with a page size that is NaN and at least
    one record, the estimate of the dashboard is NaN. *)
Theorem page_count_at_least_one
    (rows : list SensorReading) (meta : option PaginationMeta) (size : number) :
  Dashboard.totalPagesFromMeta meta = None ->
  le (lit 1) (Table.displayTotalPages rows meta size) = true /\
  (Number_isFinite size = true ->
   le (lit 1) (Dashboard.totalPages rows meta size) = true /\
   Table.displayTotalPages rows meta size = Dashboard.totalPages rows meta size) /\
  (Number_isNaN size = true ->
   gt (Dashboard.normalizedTotalItems rows meta) (lit 0) = true ->
   Dashboard.totalPages rows meta size = Number_NaN).
Proof.
  intros T. unfold Table.displayTotalPages, Dashboard.totalPages.
  rewrite T. cbn zeta.
  destruct (gt (Dashboard.normalizedTotalItems rows meta) (lit 0)) eqn:G.
  - set (y := Math_ceil (div (Dashboard.normalizedTotalItems rows meta)
                               (Math_max size (lit 1)))).
    split; [|split].
    + destruct (Math_max_one_cases y) as [[_ ->] | [_ [-> | [-> L]]]];
        try reflexivity.
      assert (Hg : gt y (lit 0) = true).
      { unfold gt. apply ltb_leb_trans with (lit 1); [reflexivity|].
        apply ltb_leb, L. }
      rewrite Hg. apply ltb_leb, L.
    + intros F. destruct (Math_max_limit_one size F) as (m & e & E).
      assert (N : Number_isNaN y = false).
      { unfold y. rewrite E. apply Math_ceil_not_NaN.
        apply div_positive_not_NaN, G. }
      pose proof (Math_max_one_ge y N) as L. split; [exact L|].
      assert (Hg : gt (Math_max (lit 1) y) (lit 0) = true).
      { unfold gt. apply ltb_leb_trans with (lit 1); [reflexivity | exact L]. }
      rewrite Hg. reflexivity.
    + intros N _. unfold y.
      destruct size; try discriminate.
      change (Math_max S754_nan (lit 1)) with S754_nan.
      destruct (Dashboard.normalizedTotalItems rows meta); reflexivity.
  - split; [reflexivity|]. split; [intros _; split; reflexivity | discriminate].
Qed.

End PagerFacts.


(** ** Examples *)

Module Examples.

Import Api Hook Dashboard.

Lemma sample_life_genuine : Forall genuine_event sample_life.
Proof.
  unfold sample_life.
  repeat constructor; cbn; try reflexivity. intros c H. exact H.
Defined.

Lemma no_options_genuine : genuine_options no_options.
Proof. split; exact I. Defined.

Lemma query_always_integers_witness :
  let s := run sample_life (initial no_options) in
  integer (page s) /\ integer (limit s).
Proof.
  exact (HookLife.query_always_integers no_options sample_life
           no_options_genuine sample_life_genuine).
Defined.

Lemma set_current_is_identity_witness :
  let s := run sample_life (initial no_options) in
  fst (setPage (Value (page s)) s) = s /\
  fst (setLimit (Value (limit s)) s) = s /\
  fst (setPage (Updater (fun current => current)) s) = s /\
  fst (setLimit (Updater (fun current => current)) s) = s.
Proof.
  exact (HookLife.set_current_is_identity no_options sample_life
           no_options_genuine sample_life_genuine).
Defined.

Lemma loading_flag_stuck_witness :
  let req := {| FetchRequest.page := lit 1; FetchRequest.limit := lit 20;
                FetchRequest.withLoading := true |} in
  FetchRequest.withLoading req = true /\
  match fetchData_start req (initial no_options) with
  | (s1, Normal A) =>
      match interval_tick (lit 1) (lit 20) s1 with
      | (s2, Normal B) =>
          let sAB := fst (fetchData_settle B (Normal one_reading)
                            (fst (fetchData_settle A (Throw AbortError) s2))) in
          let sBA := fst (fetchData_settle A (Throw AbortError)
                            (fst (fetchData_settle B (Normal one_reading) s2))) in
          isLoading sAB = true /\ isRefreshing sAB = false /\
          isLoading sBA = true /\ isRefreshing sBA = false
      | (_, Throw _) => False
      end
  | (_, Throw _) => False
  end.
Proof.
  intros req. split; [reflexivity|].
  exact (HookLife.loading_flag_stuck (initial no_options) req (lit 1) (lit 20)
           (Throw AbortError) (Normal one_reading) eq_refl).
Defined.

Lemma disable_drops_response_witness :
  let s := fst (load_effect true (initial no_options)) in
  let s1 := fst (load_effect false s) in
  let r := fetchData_settle (first_request true) (Normal one_reading) s1 in
  (isLoading s = true /\ controllerRef s = Some 0%nat) /\
  (isLoading s1 = false /\ isRefreshing s1 = false /\
   intervalRef s1 = None /\
   data s1 = data s /\ meta s1 = meta s /\ error s1 = error s) /\
  (data (fst r) = data s /\ meta (fst r) = meta s /\
   error (fst r) = error s /\ snd r = Normal None).
Proof.
  intros s s1 r.
  assert (Hc : controllerRef s = Some (controller (first_request true)))
    by (vm_compute; reflexivity).
  assert (Hl : (controller (first_request true) < List.length (controllers s))%nat)
    by (vm_compute; constructor).
  split; [split; [vm_compute; reflexivity | exact Hc]|].
  exact (HookLife.disable_drops_response s (first_request true) one_reading
           Hc Hl).
Defined.

Lemma unmount_drops_response_witness :
  let s := fst (load_effect true (initial no_options)) in
  let s1 := fst (unmount s) in
  let r := fetchData_settle (first_request true) (Normal one_reading) s1 in
  controllerRef s = Some 0%nat /\
  intervalRef s1 = None /\
  data (fst r) = data s /\ meta (fst r) = meta s /\
  error (fst r) = error s /\ snd r = Normal None.
Proof.
  intros s s1 r.
  assert (Hc : controllerRef s = Some (controller (first_request true)))
    by (vm_compute; reflexivity).
  assert (Hl : (controller (first_request true) < List.length (controllers s))%nat)
    by (vm_compute; constructor).
  split; [exact Hc|].
  exact (HookLife.unmount_drops_response s (first_request true) one_reading
           Hc Hl).
Defined.

Lemma handleLimitChange_resets_page_witness :
  let s := run sample_life (initial no_options) in
  fst (Table.handleLimitChange Number_NaN s) = s /\
  page (fst (Table.handleLimitChange (lit 10) s)) = lit 1 /\
  limit (fst (Table.handleLimitChange (lit 10) s)) = lit 10.
Proof.
  intros s.
  destruct (HookLife.handleLimitChange_resets_page s Number_NaN) as [Hn _].
  destruct (HookLife.handleLimitChange_resets_page s (lit 10)) as [_ Hf].
  destruct (Hf eq_refl) as (Hp & _ & Hl & _).
  split; [exact (Hn eq_refl) | split; [exact Hp|]].
  apply Hl; [repeat split | reflexivity].
Defined.

Lemma resolved_payload_shape_witness :
  fetchSensorReadings String_of_integer URL_without_query None
    answers_empty_page no_params = Normal empty_page /\
  exists members items m,
    empty_page = JObject members /\
    assoc "data" members = Some (JArray items) /\
    assoc "meta" members = Some m /\
    (m = JNull \/ (exists l, m = JArray l) \/ (exists l, m = JObject l)).
Proof.
  assert (H : fetchSensorReadings String_of_integer URL_without_query None
                answers_empty_page no_params = Normal empty_page)
    by reflexivity.
  split; [exact H|].
  exact (proj2 (TransportMore.resolved_payload_shape String_of_integer
                  URL_without_query None answers_empty_page no_params
                  empty_page H)).
Defined.

Lemma own_errors_are_stored_witness :
  let s := fst (refetch (fst (load_effect true (initial no_options)))) in
  fetchSensorReadings String_of_integer URL_without_query None
    answers_500 no_params = Throw status_500 /\
  superseded s (first_request true) /\
  error (fst (fetchData_settle (first_request true) (Throw status_500) s))
  = Some status_500.
Proof.
  intros s.
  assert (H : fetchSensorReadings String_of_integer URL_without_query None
                answers_500 no_params = Throw status_500)
    by reflexivity.
  split; [exact H|]. split; [vm_compute; discriminate|].
  refine (proj2 (proj2 (TransportMore.own_errors_are_stored String_of_integer
            URL_without_query None answers_500 no_params _ status_500
            s (first_request true) eq_refl (or_introl eq_refl) H))).
Defined.

Lemma extremes_are_extreme_witness :
  let st := computeStatistics Date_parse_sample sample_readings in
  let r := {| timestamp := "1970-01-01T00:00:02.000Z"; moisture := lit 42 |} in
  latest st = Some r /\ In r sample_readings /\
  lastUpdated st = Some (lit 2000).
Proof.
  intros st r.
  assert (H : latest st = Some r) by (vm_compute; reflexivity).
  destruct (proj1 (StatisticsMore.extremes_are_extreme Date_parse_sample
                     sample_readings r) H) as (Hin & _ & Hl & _).
  split; [exact H | split; [exact Hin | exact Hl]].
Defined.

Lemma candidates_go_together_witness :
  let st := computeStatistics Date_parse_sample sample_readings in
  exists l e,
    latest st = Some l /\ earliest st = Some e /\
    lastUpdated st = Some (time Date_parse_sample l) /\
    le (time Date_parse_sample e) (time Date_parse_sample l) = true.
Proof.
  intros st.
  assert (Hf : Forall (fun x => Number_isNaN (time Date_parse_sample x) = true \/
                               Number_isFinite (time Date_parse_sample x) = true)
                 sample_readings)
    by (repeat constructor; right; reflexivity).
  apply (proj2 (StatisticsMore.candidates_go_together Date_parse_sample
                  sample_readings Hf)).
  apply Exists_cons_hd. reflexivity.
Defined.

Lemma single_reading_witness :
  let tenth := div (lit 1) (lit 10) in
  let r := {| timestamp := "1970-01-01T00:00:01.000Z"; moisture := tenth |} in
  let st := computeStatistics Date_parse_sample [r] in
  min st = Some tenth /\ max st = Some tenth /\ average st = Some tenth /\
  range st = Some (lit 0) /\ trend st = Some (lit 0) /\
  latest st = Some r /\ earliest st = Some r /\
  lastUpdated st = Some (lit 1000).
Proof.
  intros tenth r st.
  exact (StatisticsMore.single_reading Date_parse_sample r
           eq_refl eq_refl eq_refl).
Defined.

Lemma displayPage_positive_witness :
  let s := run sample_life (initial no_options) in
  le (lit 1) (displayPage None (page s)) = true /\
  displayPage None (lit 0) = lit 1.
Proof.
  intros s.
  destruct (StatisticsMore.displayPage_positive None (lit 0)
              no_options sample_life) as [_ H].
  destruct (H no_options_genuine sample_life_genuine) as [H1 _].
  split; [exact H1 | reflexivity].
Defined.

Lemma trend_not_falling_witness :
  let st := computeStatistics Date_parse_sample
              [ {| timestamp := "1970-01-01T00:00:02.000Z"; moisture := lit 42 |};
                {| timestamp := "1970-01-01T00:00:00.000Z"; moisture := lit 40 |} ] in
  trend st = Some (lit 2) /\ lt (lit 2) (lit 0) = false.
Proof.
  intros st.
  destruct (StatisticsMore.trend_not_falling Date_parse_sample _
              {| timestamp := "1970-01-01T00:00:02.000Z"; moisture := lit 42 |}
              {| timestamp := "1970-01-01T00:00:00.000Z"; moisture := lit 40 |}
              (eq_refl : latest st = Some _) (eq_refl : earliest st = Some _)
              eq_refl eq_refl eq_refl eq_refl eq_refl)
    as (Ht & _ & Hn).
  split; [exact Ht | exact Hn].
Defined.

Lemma handlePrevious_page_at_least_one_witness :
  let s := run sample_life (initial no_options) in
  let s' := fst (Table.handlePrevious None (page s) s) in
  page s = lit 3 /\ Table.canPreviousPage None (page s) = true /\
  integer (page s') /\ le (lit 1) (page s') = true /\ page s' = lit 2.
Proof.
  intros s s'.
  destruct (PagerFacts.handlePrevious_page_at_least_one s None (page s) eq_refl)
    as [_ H].
  destruct (H eq_refl) as (Hi & Hl & _).
  repeat split; first [reflexivity | apply Hi | exact Hl].
Defined.

Lemma handleNext_page_at_least_one_witness :
  let s := fst (setPage (Value (lit 0)) (initial no_options)) in
  let s' := fst (Table.handleNext [] None (page s) (limit s) s) in
  page s = lit 0 /\ Table.canNextPage [] None (page s) (limit s) = false /\
  s' = s /\
  let s'' := fst (Table.handleNext (data (run sample_life (initial no_options)))
                    None (page s) (lit 1) s) in
  integer (page s'') /\ le (lit 1) (page s'') = true /\ page s'' = lit 1.
Proof.
  intros s s'.
  destruct (PagerFacts.handleNext_page_at_least_one s [] None (page s) (limit s)
              eq_refl eq_refl) as [H0 _].
  split; [reflexivity|]. split; [reflexivity|]. split; [exact (H0 eq_refl)|].
  intros s''.
  destruct (PagerFacts.handleNext_page_at_least_one s
              (data (run sample_life (initial no_options)))
              None (page s) (lit 1) eq_refl eq_refl) as [_ H1].
  destruct (H1 eq_refl) as (Hi & Hl & _).
  split; [exact Hi|]. split; [exact Hl | reflexivity].
Defined.

Lemma page_count_at_least_one_witness :
  Dashboard.totalPagesFromMeta None = None /\
  le (lit 1) (Table.displayTotalPages sample_readings None (lit 2)) = true /\
  Dashboard.totalPages sample_readings None (lit 2) = lit 2 /\
  Dashboard.totalPages sample_readings None Number_NaN = Number_NaN /\
  Table.displayTotalPages sample_readings None Number_NaN = lit 1.
Proof.
  destruct (PagerFacts.page_count_at_least_one sample_readings None (lit 2) eq_refl)
    as (H & _ & _).
  destruct (PagerFacts.page_count_at_least_one sample_readings None Number_NaN eq_refl)
    as (_ & _ & Hn).
  split; [reflexivity|]. split; [exact H|]. split; [reflexivity|].
  split; [exact (Hn eq_refl eq_refl) | reflexivity].
Defined.

End Examples.
